(** * fxload: EZ-USB firmware loader (examples/fxload.c)

    A shallow embedding of the two [main] procedures of examples/fxload.c
    and of the download engine they drive.  The calls that leave the file
    (libc, libusb, ezusb) are collaborators: each one is recorded in a
    sequence of events and its result is taken from an interface record, so
    that every theorem holds for every behaviour of the collaborators. *)

From Stdlib Require Import ZArith List String Ascii Bool Lia.
Import ListNotations.

Local Open Scope string_scope.
Local Open Scope list_scope.
Local Open Scope Z_scope.

(** ** C integers *)

(** Conversion of an [unsigned long] to a 32-bit [int] (two's complement
    wrap-around), as in [config = strtoul(optarg, NULL, 0)]. *)
Definition to_int (z : Z) : Z := (z + 2147483648) mod 4294967296 - 2147483648.

(** The cast [(uint16_t)vid]. *)
Definition to_uint16 (z : Z) : Z := z mod 65536.

Definition NULL : Z := 0.
Definition LIBUSB_SUCCESS : Z := 0.
Definition LOG_ERR : Z := 3.

(** The line feed of the C string literals. *)
Definition nl : string := String (ascii_of_nat 10) EmptyString.
Definition tab : string := String (ascii_of_nat 9) EmptyString.
Definition dq : string := String (ascii_of_nat 34) EmptyString.

(** ** Build configuration and invocation *)

(** [_WIN32] is defined on [Windows], [__linux__] on [Linux]. *)
Inductive platform := Windows | Linux | OtherPosix.

Definition defined_WIN32 (p : platform) : bool :=
  match p with Windows => true | _ => false end.

Definition defined_linux (p : platform) : bool :=
  match p with Linux => true | _ => false end.

(** One value returned by [getopt(argc, argv, "vV?D:I:c:s:t:")], with its
    [optarg].  [OptQuestion] is ['?']: the option [-?] itself, an unknown
    option, or a missing argument.  For the last two, [getopt] itself
    writes a line on the error stream ([opterr] is left as it is); that
    line is written inside [getopt] and is not among the events below,
    which are the calls that fxload.c makes. *)
Inductive getopt_result :=
| OptD (optarg : string)
| OptI (optarg : string)
| OptV
| Optc (optarg : string)
| Opts (optarg : string)
| Optt (optarg : string)
| Optv
| OptQuestion.

Record invocation := {
  argv0 : string;
  opts : list getopt_result;          (* successive results of getopt *)
  DEVICE : option string              (* getenv("DEVICE") *)
}.

(** ** Events: the calls that leave fxload.c *)

Inductive stream := stdout | stderr.

(** An argument of a printf-like call. *)
Inductive arg := AStr (s : string) | AInt (z : Z).

Inductive event :=
| Puts (s : string)
| Fputs (s : string) (f : stream)
| Fprintf (f : stream) (format : string) (args : list arg)
| Vfprintf (f : stream) (format : string) (args : list arg)
| Vsyslog (priority : Z) (format : string) (args : list arg)
| LibusbInit
| LibusbSetDebug (level : Z)
| LibusbGetDeviceList
| LibusbGetDeviceDescriptor (dev : Z)
| LibusbFreeDeviceList
| LibusbOpen (dev : Z)
| LibusbOpenDeviceWithVidPid (vid pid : Z)
| LibusbClaimInterface (device : Z) (interface : Z)
| LibusbDetachKernelDriver (device : Z) (interface : Z)
| LibusbReleaseInterface (device : Z) (interface : Z)
| LibusbClose (device : Z)
| LibusbExit
| EzusbLoadRam (device : Z) (path : string) (fx_type : Z) (stage : Z)
    (returned : Z)
| EzusbLoadEeprom (device : Z) (path : string) (fx_type : arg) (config : Z)
    (returned : Z).

(** The events that write to standard output. *)
Definition writes_stdout (e : event) : bool :=
  match e with
  | Puts _ => true
  | Fputs _ stdout | Fprintf stdout _ _ | Vfprintf stdout _ _ => true
  | _ => false
  end.

(** The events that write a message anywhere; the other events are the
    calls into libusb and ezusb. *)
Definition is_output (e : event) : bool :=
  match e with
  | Puts _ | Fputs _ _ | Fprintf _ _ _ | Vfprintf _ _ _ | Vsyslog _ _ _ => true
  | _ => false
  end.

(** The download passes. *)
Definition is_load (e : event) : bool :=
  match e with
  | EzusbLoadRam _ _ _ _ _ | EzusbLoadEeprom _ _ _ _ _ => true
  | _ => false
  end.

(** ** The collaborators *)

Record libusb_device_descriptor := {
  idVendor : Z;
  idProduct : Z
}.

(** Results of the external calls, over a world [W] that they may change.
    Pointers ([libusb_device *], [libusb_device_handle *]) are integers,
    [NULL] being 0. *)
Record Externals (W : Type) := {
  strtoul : string -> Z;
    (* strtoul(optarg, NULL, 0), an unsigned long *)
  sscanf_vid_pid : string -> Z * (Z * Z);
    (* sscanf(s, "%x:%x", &vid, &pid): the count, then vid and pid *)
  libusb_error_name : Z -> string;
  libusb_init : W -> Z * W;
  libusb_get_device_list : W -> (Z * list Z) * W;
    (* the count (negative on error) and the NULL-terminated list devs *)
  libusb_get_device_descriptor : Z -> W -> (Z * libusb_device_descriptor) * W;
  libusb_open : Z -> W -> (Z * Z) * W;
    (* the status and the handle stored in device *)
  libusb_open_device_with_vid_pid : Z -> Z -> W -> Z * W;
  libusb_claim_interface : Z -> Z -> W -> Z * W;
  libusb_detach_kernel_driver : Z -> Z -> W -> Z * W;
  ezusb_load_ram : Z -> string -> Z -> Z -> W -> Z * W;
  ezusb_load_eeprom : Z -> string -> arg -> Z -> W -> Z * W
}.

Arguments strtoul {W} _ _.
Arguments sscanf_vid_pid {W} _ _.
Arguments libusb_error_name {W} _ _.
Arguments libusb_init {W} _ _.
Arguments libusb_get_device_list {W} _ _.
Arguments libusb_get_device_descriptor {W} _ _ _.
Arguments libusb_open {W} _ _ _.
Arguments libusb_open_device_with_vid_pid {W} _ _ _ _.
Arguments libusb_claim_interface {W} _ _ _ _.
Arguments libusb_detach_kernel_driver {W} _ _ _ _.
Arguments ezusb_load_ram {W} _ _ _ _ _ _.
Arguments ezusb_load_eeprom {W} _ _ _ _ _ _.

(** ** The machine: world and globals; events; early [return] *)

Record state (W : Type) := {
  world : W;
  verbose : Z                  (* the global of ezusb *)
}.

Arguments world {W} _.
Arguments verbose {W} _.

(** What a piece of [main] ends with: it goes on with a value, or [main]
    returns. *)
Inductive outcome (A : Type) :=
| Continue (a : A)
| Return (status : Z).

Arguments Continue {A} _.
Arguments Return {A} _.

(** A piece of [main]: from a state, an outcome, the events in the order
    of their occurrence, and the state after. *)
Definition M (W A : Type) : Type := state W -> (outcome A * list event) * state W.

Definition ret {W A} (a : A) : M W A := fun st => ((Continue a, []), st).

Definition return_ {W A} (status : Z) : M W A := fun st => ((Return status, []), st).

Definition bind {W A B} (m : M W A) (k : A -> M W B) : M W B :=
  fun st =>
    match m st with
    | ((Continue a, evs), st') =>
        match k a st' with
        | ((o, evs'), st'') => ((o, evs ++ evs'), st'')
        end
    | ((Return z, evs), st') => ((Return z, evs), st')
    end.

Declare Scope fx_scope.
Delimit Scope fx_scope with fx.
Notation "x <- m ;; k" := (bind m (fun x => k))
  (at level 61, m at next level, right associativity) : fx_scope.
Notation "m ;;; k" := (bind m (fun _ => k))
  (at level 61, right associativity) : fx_scope.
Local Open Scope fx_scope.

Definition emit {W} (e : event) : M W unit :=
  fun st => ((Continue tt, [e]), st).

Definition get_verbose {W} : M W Z := fun st => ((Continue (verbose st), []), st).

Definition set_verbose {W} (v : Z) : M W unit :=
  fun st => ((Continue tt, []), {| world := world st; verbose := v |}).

(** An external call: the world moves on and the event is recorded; the
    event may hold the value returned. *)
Definition call_with {W A} (e : A -> event) (f : W -> A * W) : M W A :=
  fun st =>
    let (a, w) := f (world st) in
    ((Continue a, [e a]), {| world := w; verbose := verbose st |}).

Definition call {W A} (e : event) (f : W -> A * W) : M W A :=
  call_with (fun _ => e) f.

Definition when {W} (b : bool) (m : M W unit) : M W unit :=
  if b then m else ret tt.

(** ** logerror *)

(** [static bool dosyslog = false;] is never assigned. *)
Definition dosyslog : bool := false.

(** After preprocessing, [logerror] is, without [_WIN32],
    [if (dosyslog) vsyslog(LOG_ERR, format, ap); else va_end(ap);]
    and, with [_WIN32], [vfprintf(stderr, format, ap); va_end(ap);]. *)
Definition logerror {W} (p : platform) (format : string) (args : list arg)
  : M W unit :=
  if defined_WIN32 p then emit (Vfprintf stderr format args)
  else if dosyslog then emit (Vsyslog LOG_ERR format args)
  else ret tt.

(** ** What ezusb.h and the build provide *)

(** [fx_known_device], one entry of [FX_KNOWN_DEVICES]. *)
Record fx_known_device := {
  known_vid : Z;
  known_pid : Z;
  known_type : Z;
  designation : string
}.

(** The constants that fxload.c takes from ezusb.h and from the compiler. *)
Record Build := {
  target : platform;
  FXLOAD_VERSION : string;
  known_device : list fx_known_device;      (* FX_KNOWN_DEVICES *)
  fx_name : list string;                    (* FX_TYPE_NAMES *)
  FX_TYPE_UNDEFINED : Z
}.

Definition FX_TYPE_MAX (b : Build) : Z := Z.of_nat (List.length (fx_name b)).

(** * The first [main]: known-device table *)

Module Variant1.

(** What the label [usage:] writes. *)
Definition usage_text (inv : invocation) : list event :=
  [ Fprintf stderr
      (nl ++ "usage: %s [-vV] [-t type] [-D vid:pid] -I firmware" ++ nl)
      [AStr (argv0 inv)];
    Fprintf stderr ("      [-s loader] [-c config_byte]" ++ nl) [];
    Fprintf stderr ("      type: one of an21, fx, fx2, fx2lp, fx3" ++ nl) [] ].

(** The locals of [main] that the option loop assigns. *)
Record locals := {
  firmware_path : option string;
  loader_path : option string;
  device_id : option string;
  type : option string;
  config : Z
}.

Definition is_null {A} (p : option A) : bool :=
  match p with None => true | Some _ => false end.

(** What the device loop leaves in [dev], [status], [fx_type], [vid] and
    [pid]. *)
Record target_vars := {
  dev : Z;
  status : Z;
  fx_type : Z;
  vid : Z;
  pid : Z
}.

Section Main.

Context {W : Type}.
Variable X : Externals W.
Variable B : Build.

(** The label [usage:]. *)
Definition usage {A} (inv : invocation) : M W A :=
  emit (Fprintf stderr
          (nl ++ "usage: %s [-vV] [-t type] [-D vid:pid] -I firmware" ++ nl)
          [AStr (argv0 inv)]) ;;;
  emit (Fprintf stderr ("      [-s loader] [-c config_byte]" ++ nl) []) ;;;
  emit (Fprintf stderr ("      type: one of an21, fx, fx2, fx2lp, fx3" ++ nl) []) ;;;
  return_ (-1).

(** [while ((opt = getopt(...)) != EOF) switch (opt) ...] *)
Fixpoint getopt_loop (inv : invocation) (os : list getopt_result) (l : locals)
  : M W locals :=
  match os with
  | [] => ret l
  | o :: os' =>
    match o with
    | OptD optarg =>
        getopt_loop inv os'
          {| firmware_path := firmware_path l; loader_path := loader_path l;
             device_id := Some optarg; type := type l; config := config l |}
    | OptI optarg =>
        getopt_loop inv os'
          {| firmware_path := Some optarg; loader_path := loader_path l;
             device_id := device_id l; type := type l; config := config l |}
    | OptV => emit (Puts (FXLOAD_VERSION B)) ;;; return_ 0
    | Optc optarg =>
        let config' := to_int (strtoul X optarg) in
        if (config' <? 0) || (config' >? 255) then
          logerror (target B) ("illegal config byte: %s" ++ nl) [AStr optarg] ;;;
          usage inv
        else
          getopt_loop inv os'
            {| firmware_path := firmware_path l; loader_path := loader_path l;
               device_id := device_id l; type := type l; config := config' |}
    | Opts optarg =>
        getopt_loop inv os'
          {| firmware_path := firmware_path l; loader_path := Some optarg;
             device_id := device_id l; type := type l; config := config l |}
    | Optt optarg =>
        getopt_loop inv os'
          {| firmware_path := firmware_path l; loader_path := loader_path l;
             device_id := device_id l; type := Some optarg; config := config l |}
    | Optv =>
        v <- get_verbose ;; set_verbose (v + 1) ;;; getopt_loop inv os' l
    | OptQuestion => usage inv
    end
  end.

(** The initial values of the locals. *)
Definition locals0 (inv : invocation) : locals :=
  {| firmware_path := None; loader_path := None; device_id := DEVICE inv;
     type := None; config := -1 |}.

(** Lines 141-159: the checks on the options. *)
Definition check_options (inv : invocation) (l : locals) : M W unit :=
  (if config l >=? 0 then
     if is_null (type l) then
       logerror (target B) ("must specify microcontroller type to write EEPROM!" ++ nl) [] ;;;
       usage inv
     else if is_null (loader_path l) || is_null (firmware_path l) then
       logerror (target B) ("need 2nd stage loader and firmware to write EEPROM!" ++ nl) [] ;;;
       usage inv
     else ret tt
   else ret tt) ;;;
  if is_null (firmware_path l) then
    logerror (target B) ("no firmware specified!" ++ nl) [] ;;;
    usage inv
  else ret tt.

(** Lines 161-164: [vid] and [pid] from [device_id]. *)
Definition parse_device_id (l : locals) : M W (Z * Z) :=
  match device_id l with
  | Some id =>
      let '(n, (vid, pid)) := sscanf_vid_pid X id in
      if negb (n =? 2) then
        emit (Fputs ("please specify VID & PID as " ++ dq ++ "vid:pid" ++ dq
                     ++ " in hexadecimal format" ++ nl) stderr) ;;;
        return_ (-1)
      else ret (vid, pid)
  | None => ret (0, 0)
  end.

(** [for (i=0; i<FX_TYPE_MAX; i++) if (strcmp(type, fx_name[i]) == 0) ...] *)
Fixpoint find_type (type : string) (names : list string) (i : Z) : option Z :=
  match names with
  | [] => None
  | n :: names' =>
      if String.eqb type n then Some i else find_type type names' (i + 1)
  end.

(** Lines 166-178: determine the target type. *)
Definition determine_type (inv : invocation) (l : locals) : M W Z :=
  match type l with
  | Some t =>
      match find_type t (fx_name B) 0 with
      | Some i => ret i
      | None =>
          logerror (target B) ("illegal microcontroller type: %s" ++ nl) [AStr t] ;;;
          usage inv
      end
  | None => ret (FX_TYPE_UNDEFINED B)
  end.

(** Lines 200-219: the loop over [known_device] for one descriptor.  The
    result is the entry at which the loop breaks, with the values of
    [fx_type], [vid] and [pid] then; [None] when [j] reaches the end. *)
Fixpoint match_known (known : list fx_known_device)
    (desc : libusb_device_descriptor) (type_null device_id_null : bool)
    (fx_type vid pid : Z) : option (fx_known_device * (Z * (Z * Z))) :=
  match known with
  | [] => None
  | k :: known' =>
      if (idVendor desc =? known_vid k) && (idProduct desc =? known_pid k) then
        if type_null && device_id_null then
          Some (k, (known_type k, (idVendor desc, idProduct desc)))
        else if type_null && (vid =? idVendor desc) && (pid =? idProduct desc) then
          Some (k, (known_type k, (vid, pid)))
        else if device_id_null && (fx_type =? known_type k) then
          Some (k, (fx_type, (idVendor desc, idProduct desc)))
        else match_known known' desc type_null device_id_null fx_type vid pid
      else match_known known' desc type_null device_id_null fx_type vid pid
  end.

(** Lines 195-227: the loop over the NULL-terminated [devs]. *)
Fixpoint scan_devices (devs : list Z) (l : locals) (t : target_vars)
  : M W target_vars :=
  match devs with
  | [] => ret {| dev := NULL; status := status t; fx_type := fx_type t;
                 vid := vid t; pid := pid t |}
  | d :: devs' =>
      if d =? NULL then
        ret {| dev := NULL; status := status t; fx_type := fx_type t;
               vid := vid t; pid := pid t |}
      else
        r <- call (LibusbGetDeviceDescriptor d) (libusb_get_device_descriptor X d) ;;
        let (status', desc) := r : Z * libusb_device_descriptor in
        let t' := {| dev := d; status := status'; fx_type := fx_type t;
                     vid := vid t; pid := pid t |} in
        if status' >=? 0 then
          v <- get_verbose ;;
          when (v >=? 2)
            (logerror (target B) ("trying to match against %04x:%04x" ++ nl)
               [AInt (idVendor desc); AInt (idProduct desc)]) ;;;
          match match_known (known_device B) desc (is_null (type l))
                  (is_null (device_id l)) (fx_type t) (vid t) (pid t) with
          | Some (k, (fx_type', (vid', pid'))) =>
              v <- get_verbose ;;
              when (negb (v =? 0))
                (logerror (target B) ("found device '%s' [%04x:%04x]" ++ nl)
                   [AStr (designation k); AInt vid'; AInt pid']) ;;;
              ret {| dev := d; status := status'; fx_type := fx_type';
                     vid := vid'; pid := pid' |}
          | None => scan_devices devs' l t'
          end
        else scan_devices devs' l t'
  end.

(** Lines 228-239: after the device loop, the device found is opened; the
    result is the handle [device] and [fx_type]. *)
Definition open_found (inv : invocation) (t' : target_vars) : M W (Z * Z) :=
  if dev t' =? NULL then
    emit LibusbFreeDeviceList ;;;
    logerror (target B)
      ("could not find a known device - please specify type and/or vid:pid" ++ nl)
      [] ;;;
    usage inv
  else
    r <- call (LibusbOpen (dev t')) (libusb_open X (dev t')) ;;
    let (status', device) := r : Z * Z in
    if status' <? 0 then
      logerror (target B) ("libusb_open() failed: %s" ++ nl)
        [AStr (libusb_error_name X status')] ;;;
      emit LibusbExit ;;;
      return_ (-1)
    else
      emit LibusbFreeDeviceList ;;;
      ret (device, fx_type t').

(** Lines 188-247: open the device; the result is the handle [device] and
    [fx_type]. *)
Definition open_device (inv : invocation) (l : locals) (t : target_vars)
  : M W (Z * Z) :=
  if is_null (type l) || is_null (device_id l) then
    r <- call LibusbGetDeviceList (libusb_get_device_list X) ;;
    let (n, devs) := r : Z * list Z in
    if n <? 0 then
      logerror (target B) ("libusb_get_device_list() failed: %s" ++ nl)
        [AStr (libusb_error_name X (status t))] ;;;
      emit LibusbExit ;;;
      return_ (-1)
    else
      t' <- scan_devices devs l t ;;
      open_found inv t'
  else
    device <- call (LibusbOpenDeviceWithVidPid (to_uint16 (vid t)) (to_uint16 (pid t)))
                (libusb_open_device_with_vid_pid X (to_uint16 (vid t))
                   (to_uint16 (pid t))) ;;
    if device =? NULL then
      logerror (target B) ("libusb_open() failed" ++ nl) [] ;;;
      emit LibusbExit ;;;
      return_ (-1)
    else ret (device, fx_type t).

(** Lines 248-261: claim the first interface. *)
Definition claim_interface (device : Z) : M W unit :=
  status <- call (LibusbClaimInterface device 0) (libusb_claim_interface X device 0) ;;
  status <- (if defined_linux (target B) && negb (status =? LIBUSB_SUCCESS) then
               call (LibusbDetachKernelDriver device 0)
                 (libusb_detach_kernel_driver X device 0) ;;;
               call (LibusbClaimInterface device 0)
                 (libusb_claim_interface X device 0)
             else ret status) ;;
  if negb (status =? LIBUSB_SUCCESS) then
    logerror (target B) ("libusb_claim_interface failed: %s" ++ nl)
      [AStr (libusb_error_name X status)] ;;;
    emit LibusbExit ;;;
    return_ (-1)
  else ret tt.

(** Lines 266-284: the one or two download passes; the result is [status]
    at the label [out:]. *)
Definition download (device : Z) (l : locals) (fx_type : Z)
    (firmware : string) : M W Z :=
  match loader_path l with
  | Some loader =>
      v <- get_verbose ;;
      when (negb (v =? 0)) (logerror (target B) ("1st stage: load 2nd stage loader" ++ nl) []) ;;;
      status <- call_with (EzusbLoadRam device loader fx_type 0)
                  (ezusb_load_ram X device loader fx_type 0) ;;
      if negb (status =? 0) then ret status
      else if config l >=? 0 then
        call_with (EzusbLoadEeprom device firmware (AInt fx_type) (config l))
          (ezusb_load_eeprom X device firmware (AInt fx_type) (config l))
      else
        call_with (EzusbLoadRam device firmware fx_type 1)
          (ezusb_load_ram X device firmware fx_type 1)
  | None =>
      v <- get_verbose ;;
      when (negb (v =? 0)) (logerror (target B) ("single stage: load on-chip memory" ++ nl) []) ;;;
      call_with (EzusbLoadRam device firmware fx_type 0)
        (ezusb_load_ram X device firmware fx_type 0)
  end.

(** The label [out:]. *)
Definition out (device : Z) (status : Z) : M W unit :=
  emit (LibusbReleaseInterface device 0) ;;;
  emit (LibusbClose device) ;;;
  emit LibusbExit ;;;
  return_ status.

(** Lines 141-264: from the checks on the options to the claimed
    interface; the result is the handle [device] and [fx_type]. *)
Definition prepare (inv : invocation) (l : locals) : M W (Z * Z) :=
  check_options inv l ;;;
  vp <- parse_device_id l ;;
  fx_type <- determine_type inv l ;;
  status <- call LibusbInit (libusb_init X) ;;
  (if status <? 0 then
     logerror (target B) ("libusb_init() failed: %s" ++ nl)
       [AStr (libusb_error_name X status)] ;;;
     return_ (-1)
   else ret tt) ;;;
  v <- get_verbose ;;
  emit (LibusbSetDebug v) ;;;
  df <- open_device inv l
          {| dev := NULL; status := status; fx_type := fx_type;
             vid := fst vp; pid := snd vp |} ;;
  claim_interface (fst df) ;;;
  v <- get_verbose ;;
  when (negb (v =? 0))
    (logerror (target B) ("microcontroller type: %s" ++ nl)
       [AStr (nth (Z.to_nat (snd df)) (fx_name B) "")]) ;;;
  ret df.

(** [firmware_path], which [check_options] has found not to be null. *)
Definition firmware_of (l : locals) : string :=
  match firmware_path l with Some f => f | None => "" end.

Definition main_body (inv : invocation) : M W unit :=
  l <- getopt_loop inv (opts inv) (locals0 inv) ;;
  df <- prepare inv l ;;
  status <- download (fst df) l (snd df) (firmware_of l) ;;
  out (fst df) status.

(** [main]: the value returned, the events and the final state.
    [main_body] always ends in a [return]; the [Continue] case is not
    reachable. *)
Definition main (inv : invocation) (st : state W) : (Z * list event) * state W :=
  match main_body inv st with
  | ((Return z, evs), st') => ((z, evs), st')
  | ((Continue _, evs), st') => ((0, evs), st')
  end.

End Main.

End Variant1.

(** * The second [main]: type names checked in the option loop *)

Module Variant2.

(** What the label [usage:] writes. *)
Definition usage_text (inv : invocation) : list event :=
  [ Fputs "usage: " stderr;
    Fputs (argv0 inv) stderr;
    Fputs (" [-vV] [-t type] [-D devpath]" ++ nl) stderr;
    Fputs (tab ++ tab ++ "[-I firmware_hexfile] ") stderr;
    Fputs ("[-s loader] [-c config_byte]" ++ nl) stderr;
    Fputs ("... [-D vid:pid] overrides DEVICE= in env" ++ nl) stderr;
    Fputs ("... device types:  one of an21, fx, fx2, fx2lp" ++ nl) stderr ].

Record locals := {
  ihex_path : option string;
  device_path : option string;
  type : option string;
  stage1 : option string;
  config : Z
}.

Definition is_null {A} (p : option A) : bool :=
  match p with None => true | Some _ => false end.

Section Main.

Context {W : Type}.
Variable X : Externals W.
Variable B : Build.

(** The label [usage:]. *)
Definition usage {A} (inv : invocation) : M W A :=
  emit (Fputs "usage: " stderr) ;;;
  emit (Fputs (argv0 inv) stderr) ;;;
  emit (Fputs (" [-vV] [-t type] [-D devpath]" ++ nl) stderr) ;;;
  emit (Fputs (tab ++ tab ++ "[-I firmware_hexfile] ") stderr) ;;;
  emit (Fputs ("[-s loader] [-c config_byte]" ++ nl) stderr) ;;;
  emit (Fputs ("... [-D vid:pid] overrides DEVICE= in env" ++ nl) stderr) ;;;
  emit (Fputs ("... device types:  one of an21, fx, fx2, fx2lp" ++ nl) stderr) ;;;
  return_ (-1).

(** [strcmp(a, b)] used as a truth value: non-zero when the strings
    differ. *)
Definition strcmp_ne (a b : string) : bool := negb (String.eqb a b).

(** [while ((opt = getopt(...)) != EOF) switch (opt) ...] *)
Fixpoint getopt_loop (inv : invocation) (os : list getopt_result) (l : locals)
  : M W locals :=
  match os with
  | [] => ret l
  | o :: os' =>
    match o with
    | OptD optarg =>
        getopt_loop inv os'
          {| ihex_path := ihex_path l; device_path := Some optarg;
             type := type l; stage1 := stage1 l; config := config l |}
    | OptI optarg =>
        getopt_loop inv os'
          {| ihex_path := Some optarg; device_path := device_path l;
             type := type l; stage1 := stage1 l; config := config l |}
    | OptV => emit (Puts (FXLOAD_VERSION B)) ;;; return_ 0
    | Optc optarg =>
        let config' := to_int (strtoul X optarg) in
        if (config' <? 0) || (config' >? 255) then
          logerror (target B) ("illegal config byte: %s" ++ nl) [AStr optarg] ;;;
          usage inv
        else
          getopt_loop inv os'
            {| ihex_path := ihex_path l; device_path := device_path l;
               type := type l; stage1 := stage1 l; config := config' |}
    | Opts optarg =>
        getopt_loop inv os'
          {| ihex_path := ihex_path l; device_path := device_path l;
             type := type l; stage1 := Some optarg; config := config l |}
    | Optt optarg =>
        if strcmp_ne optarg "an21" && strcmp_ne optarg "fx"
           && strcmp_ne optarg "fx2" && strcmp_ne optarg "fx2lp" then
          logerror (target B) ("illegal microcontroller type: %s" ++ nl)
            [AStr optarg] ;;;
          usage inv
        else
          getopt_loop inv os'
            {| ihex_path := ihex_path l; device_path := device_path l;
               type := Some optarg; stage1 := stage1 l; config := config l |}
    | Optv =>
        v <- get_verbose ;; set_verbose (v + 1) ;;; getopt_loop inv os' l
    | OptQuestion => usage inv
    end
  end.

Definition locals0 (inv : invocation) : locals :=
  {| ihex_path := None; device_path := DEVICE inv; type := None;
     stage1 := None; config := -1 |}.

(** Lines 433-457: the checks on the options; the result is the pair of
    [device_path] and [ihex_path], both known not to be null. *)
Definition check_options (inv : invocation) (l : locals) : M W (string * string) :=
  (if config l >=? 0 then
     if is_null (type l) then
       logerror (target B) "must specify microcontroller type %s"
         [AStr ("to write EEPROM!" ++ nl)] ;;;
       usage inv
     else if is_null (stage1 l) || is_null (ihex_path l) then
       logerror (target B) "need 2nd stage loader and firmware %s"
         [AStr ("to write EEPROM!" ++ nl)] ;;;
       usage inv
     else ret tt
   else ret tt) ;;;
  match device_path l, ihex_path l with
  | Some d, Some i => ret (d, i)
  | None, _ =>
      logerror (target B) ("no %s specified!" ++ nl) [AStr "device"] ;;;
      usage inv
  | Some _, None =>
      logerror (target B) ("no %s specified!" ++ nl) [AStr "firmware"] ;;;
      usage inv
  end.

(** Lines 459-462. *)
Definition parse_device_path (d : string) : M W (Z * Z) :=
  let '(n, (vid, pid)) := sscanf_vid_pid X d in
  if negb (n =? 2) then
    emit (Fputs ("please specify VID & PID as " ++ dq ++ "vid:pid" ++ dq
                 ++ " in hexadecimal format" ++ nl) stderr) ;;;
    return_ (-1)
  else ret (vid, pid).

(** Lines 464-489: open the device and claim its first interface. *)
Definition open_device (vid pid : Z) : M W Z :=
  status <- call LibusbInit (libusb_init X) ;;
  (if status <? 0 then
     logerror (target B) ("libusb_init() failed: %s" ++ nl)
       [AStr (libusb_error_name X status)] ;;;
     return_ (-1)
   else ret tt) ;;;
  v <- get_verbose ;;
  emit (LibusbSetDebug v) ;;;
  device <- call (LibusbOpenDeviceWithVidPid (to_uint16 vid) (to_uint16 pid))
              (libusb_open_device_with_vid_pid X (to_uint16 vid) (to_uint16 pid)) ;;
  (if device =? NULL then
     logerror (target B) ("libusb_open_device() failed" ++ nl) [] ;;;
     emit LibusbExit ;;;
     return_ (-1)
   else ret tt) ;;;
  status <- call (LibusbClaimInterface device 0) (libusb_claim_interface X device 0) ;;
  status <- (if defined_linux (target B) && negb (status =? LIBUSB_SUCCESS) then
               call (LibusbDetachKernelDriver device 0)
                 (libusb_detach_kernel_driver X device 0) ;;;
               call (LibusbClaimInterface device 0)
                 (libusb_claim_interface X device 0)
             else ret status) ;;
  if negb (status =? LIBUSB_SUCCESS) then
    logerror (target B) ("libusb_claim_interface failed: %s" ++ nl)
      [AStr (libusb_error_name X status)] ;;;
    emit LibusbExit ;;;
    return_ (-1)
  else ret device.

(** Lines 491-497: [type] and [fx2] after the defaulting. *)
Definition resolve_type (type : option string) : string * Z :=
  match type with
  | None => ("fx", 0)
  | Some t =>
      if String.eqb t "fx2lp" then (t, 2)
      else (t, if String.eqb t "fx2" then 1 else 0)
  end.

(** Lines 502-520: the one or two download passes; the result is [status]
    at the label [out:]. *)
Definition download (device : Z) (l : locals) (type : string) (fx2 : Z)
    (ihex_path : string) : M W Z :=
  match stage1 l with
  | Some stage1 =>
      v <- get_verbose ;;
      when (negb (v =? 0))
        (logerror (target B) ("1st stage:  load 2nd stage loader" ++ nl) []) ;;;
      status <- call_with (EzusbLoadRam device stage1 fx2 0)
                  (ezusb_load_ram X device stage1 fx2 0) ;;
      if negb (status =? 0) then ret status
      else if config l >=? 0 then
        call_with (EzusbLoadEeprom device ihex_path (AStr type) (config l))
          (ezusb_load_eeprom X device ihex_path (AStr type) (config l))
      else
        call_with (EzusbLoadRam device ihex_path fx2 1)
          (ezusb_load_ram X device ihex_path fx2 1)
  | None =>
      v <- get_verbose ;;
      when (negb (v =? 0))
        (logerror (target B) ("single stage:  load on-chip memory" ++ nl) []) ;;;
      call_with (EzusbLoadRam device ihex_path fx2 0)
        (ezusb_load_ram X device ihex_path fx2 0)
  end.

(** The label [out:]. *)
Definition out (device : Z) (status : Z) : M W unit :=
  emit (LibusbReleaseInterface device 0) ;;;
  emit (LibusbClose device) ;;;
  emit LibusbExit ;;;
  return_ status.

(** Lines 433-500: from the checks on the options to the resolved type;
    the result is the handle [device], [ihex_path], [type] and [fx2]. *)
Definition prepare (inv : invocation) (l : locals)
  : M W (Z * string * (string * Z)) :=
  paths <- check_options inv l ;;
  vp <- parse_device_path (fst paths) ;;
  device <- open_device (fst vp) (snd vp) ;;
  v <- get_verbose ;;
  when (negb (v =? 0))
    (logerror (target B) ("microcontroller type: %s" ++ nl)
       [AStr (fst (resolve_type (type l)))]) ;;;
  ret (device, snd paths, resolve_type (type l)).

Definition main_body (inv : invocation) : M W unit :=
  l <- getopt_loop inv (opts inv) (locals0 inv) ;;
  p <- prepare inv l ;;
  status <- download (fst (fst p)) l (fst (snd p)) (snd (snd p)) (snd (fst p)) ;;
  out (fst (fst p)) status.

Definition main (inv : invocation) (st : state W) : (Z * list event) * state W :=
  match main_body inv st with
  | ((Return z, evs), st') => ((z, evs), st')
  | ((Continue _, evs), st') => ((0, evs), st')
  end.

End Main.

End Variant2.

(** * The download engine (ezusb.c)

    fxload.c only calls [ezusb_load_ram] and [ezusb_load_eeprom]; the
    Intel HEX reader and the download protocol behind them are in ezusb.c,
    and are embedded here from their specification. *)

Module Engine.

(** ** Errors *)

(** Modelled from the spec: the conditions that a MalformedRecord
    identifies (the parser of ezusb.c is missing). *)
Inductive malformed :=
| MissingStartMarker
| OddHexDigitCount
| ChecksumMismatch
| TruncatedLine.

(** Modelled from the spec: the taxonomy of errors (ezusb.c is
    missing). *)
Inductive engine_error :=
| MalformedRecord (what : malformed)
| TruncatedImage
| AmbiguousDevice
| DeviceNotFound
| UnsupportedOperation
| TransportError (cause : Z).

Inductive result (A : Type) :=
| Ok (a : A)
| Err (e : engine_error).

Arguments Ok {A} _.
Arguments Err {A} _.

(** ** HexRecordParser *)

(** Modelled from the spec: the record types of a HexRecord (the parser
    of ezusb.c is missing). *)
Inductive record_type :=
| Data
| EndOfFile
| ExtendedAddress (shift : Z)     (* 4 for tag 02, 16 for tag 04 *)
| Other.

(** Modelled from the spec: the HexRecord of the data model (the parser
    of ezusb.c is missing). *)
Record HexRecord := {
  recordType : record_type;
  address : Z;
  payload : list Z;
  checksumValid : bool
}.

(** Modelled from the spec: the value of one hexadecimal digit of a
    fixed-width field (the parser of ezusb.c is missing). *)
Definition hex_digit (c : ascii) : option Z :=
  let n := Z.of_nat (nat_of_ascii c) in
  if (48 <=? n) && (n <=? 57) then Some (n - 48)
  else if (65 <=? n) && (n <=? 70) then Some (n - 55)
  else if (97 <=? n) && (n <=? 102) then Some (n - 87)
  else None.

(** Modelled from the spec: the hexadecimal digits that follow the start
    marker, up to the first character that is not one (the parser of
    ezusb.c is missing). *)
Fixpoint hex_digits (s : string) : list Z :=
  match s with
  | EmptyString => []
  | String c s' =>
      match hex_digit c with
      | Some d => d :: hex_digits s'
      | None => []
      end
  end.

(** Modelled from the spec: digits taken two by two into bytes; [None] on
    an odd hex-digit count (the parser of ezusb.c is missing). *)
Fixpoint bytes_of_digits (ds : list Z) : option (list Z) :=
  match ds with
  | [] => Some []
  | [_] => None
  | hi :: lo :: ds' =>
      match bytes_of_digits ds' with
      | Some bs => Some (16 * hi + lo :: bs)
      | None => None
      end
  end.

Definition sum_bytes (bs : list Z) : Z := fold_right Z.add 0 bs.

(** Modelled from the spec: the checksum of a record, the two's complement
    of the sum of all preceding bytes, modulo 256 (the parser of ezusb.c
    is missing). *)
Definition checksum_of (preceding : list Z) : Z :=
  (256 - sum_bytes preceding mod 256) mod 256.

(** Modelled from the spec: the record types 00, 01, 02 and 04; any other
    tag is a benign no-op (the parser of ezusb.c is missing). *)
Definition record_type_of (tag : Z) : record_type :=
  if tag =? 0 then Data
  else if tag =? 1 then EndOfFile
  else if tag =? 2 then ExtendedAddress 4
  else if tag =? 4 then ExtendedAddress 16
  else Other.

(** Modelled from the spec: a record from its bytes: byte count, 16-bit
    address, record-type tag, payload, checksum (the parser of ezusb.c is
    missing). *)
Definition parse_bytes (bs : list Z) : result HexRecord :=
  match bs with
  | count :: hi :: lo :: tag :: rest =>
      if Z.of_nat (List.length rest) <? count + 1 then
        Err (MalformedRecord TruncatedLine)
      else
        let data := firstn (Z.to_nat count) rest in
        let stored := nth (Z.to_nat count) rest 0 in
        if stored =? checksum_of (count :: hi :: lo :: tag :: data) then
          Ok {| recordType := record_type_of tag;
                address := 256 * hi + lo;
                payload := data;
                checksumValid := true |}
        else Err (MalformedRecord ChecksumMismatch)
  | _ => Err (MalformedRecord TruncatedLine)
  end.

(** The start marker. *)
Definition start_marker : ascii := ascii_of_nat 58.

(** Modelled from the spec: HexRecordParser, one line of text to a
    HexRecord or a MalformedRecord (the parser of ezusb.c is missing). *)
Definition parse_record (line : string) : result HexRecord :=
  match line with
  | String c rest =>
      if Ascii.eqb c start_marker then
        match bytes_of_digits (hex_digits rest) with
        | Some bs => parse_bytes bs
        | None => Err (MalformedRecord OddHexDigitCount)
        end
      else Err (MalformedRecord MissingStartMarker)
  | EmptyString => Err (MalformedRecord MissingStartMarker)
  end.

(** The bytes that a line carries after its start marker, when it has a
    start marker and an even number of digits. *)
Definition line_bytes (line : string) : option (list Z) :=
  match line with
  | String c rest =>
      if Ascii.eqb c start_marker then bytes_of_digits (hex_digits rest)
      else None
  | EmptyString => None
  end.

(** ** FirmwareImageLoader *)

(** Modelled from the spec: the Segment of the data model (the loader of
    ezusb.c is missing). *)
Record Segment := {
  baseAddress : Z;
  bytes : list Z
}.

(** Modelled from the spec: what FirmwareImageLoader maintains, the
    running offset and the Segments (the loader of ezusb.c is missing). *)
Record loader := {
  addressOffset : Z;
  closed : list Segment;          (* in file order *)
  current : option Segment        (* the open Segment *)
}.

Definition loader0 : loader :=
  {| addressOffset := 0; closed := []; current := None |}.

(** Closing the open Segment. *)
Definition close_current (l : loader) : list Segment :=
  match current l with
  | Some s => closed l ++ [s]
  | None => closed l
  end.

(** Modelled from the spec: a data record at an absolute address is
    appended to the open Segment when contiguous with its end, and opens
    a new Segment otherwise (the loader of ezusb.c is missing). *)
Definition add_data (l : loader) (absolute : Z) (data : list Z) : loader :=
  match current l with
  | Some s =>
      if absolute =? baseAddress s + Z.of_nat (List.length (bytes s)) then
        {| addressOffset := addressOffset l; closed := closed l;
           current := Some {| baseAddress := baseAddress s;
                              bytes := bytes s ++ data |} |}
      else
        {| addressOffset := addressOffset l; closed := closed l ++ [s];
           current := Some {| baseAddress := absolute; bytes := data |} |}
  | None =>
      {| addressOffset := addressOffset l; closed := closed l;
         current := Some {| baseAddress := absolute; bytes := data |} |}
  end.

(** The big-endian value stored in an extended-address record. *)
Definition stored_value (data : list Z) : Z :=
  fold_left (fun acc b => 256 * acc + b) data 0.

(** Modelled from the spec: FirmwareImageLoader over the lines of the
    stream (the loader of ezusb.c is missing). *)
Fixpoint load_lines (lines : list string) (l : loader) : result (list Segment) :=
  match lines with
  | [] => Err TruncatedImage
  | line :: lines' =>
      match parse_record line with
      | Err e => Err e
      | Ok r =>
          match recordType r with
          | Data =>
              load_lines lines' (add_data l (addressOffset l + address r) (payload r))
          | EndOfFile => Ok (close_current l)
          | ExtendedAddress shift =>
              load_lines lines'
                {| addressOffset := Z.shiftl (stored_value (payload r)) shift;
                   closed := closed l; current := current l |}
          | Other => load_lines lines' l
          end
      end
  end.

(** Modelled from the spec: FirmwareImageLoader on a full stream (the
    loader of ezusb.c is missing). *)
Definition load_image (lines : list string) : result (list Segment) :=
  load_lines lines loader0.

(** A line that holds an end-of-file record. *)
Definition is_eof_line (line : string) : bool :=
  match parse_record line with
  | Ok r => match recordType r with EndOfFile => true | _ => false end
  | Err _ => false
  end.

(** A line that the parser accepts. *)
Definition is_record_line (line : string) : bool :=
  match parse_record line with
  | Ok _ => true
  | Err _ => false
  end.

(** ** DeviceProfile and DownloadPlan *)

(** Modelled from the spec: the DeviceProfile of the data model (ezusb.c
    is missing). *)
Record DeviceProfile := {
  chunkSize : nat;                 (* 0 = unlimited *)
  resetRegisterAddress : Z;
  resetAssertValue : Z;
  resetReleaseValue : Z;
  supportsEeprom : bool;
  eepromConfigByteSupported : bool
}.

(** Modelled from the spec: the destination kinds (ezusb.c is missing). *)
Inductive destination := Ram | Eeprom.

(** Modelled from the spec: the DownloadPlan of the data model (ezusb.c
    is missing). *)
Record DownloadPlan := {
  image : list Segment;
  dest : destination;
  configByte : option Z
}.

(** Modelled from the spec: the DownloadTarget, a handle of the transport
    and a profile (ezusb.c is missing). *)
Record DownloadTarget := {
  handle : Z;
  profile : DeviceProfile
}.

(** ** The transport collaborator *)

(** Modelled from the spec: the vendor requests, for memory (reset
    register and RAM) and for the EEPROM (ezusb.c is missing). *)
Inductive request_code := MemoryRequest | EepromRequest.

(** Modelled from the spec: the arguments of one [sendControlWrite]
    (ezusb.c is missing). *)
Record control_write := {
  to : Z;                          (* the handle *)
  requestCode : request_code;
  at_address : Z;
  data : list Z
}.

(** ** Chunking *)

(** Modelled from the spec: the bytes at an address cut into consecutive
    pieces of [size] bytes, the last one as it comes (ezusb.c is missing).
    [fuel] bounds the number of pieces. *)
Fixpoint split_at (fuel : nat) (size : nat) (address : Z) (bs : list Z)
  : list (Z * list Z) :=
  match fuel with
  | O => []
  | S fuel' =>
      match bs with
      | [] => []
      | _ :: _ =>
          (address, firstn size bs)
            :: split_at fuel' size (address + Z.of_nat size) (skipn size bs)
      end
  end.

(** Modelled from the spec: the chunks of a Segment, no larger than
    [chunkSize], or the whole Segment if [chunkSize] is 0 (ezusb.c is
    missing). *)
Definition chunks (chunkSize : nat) (s : Segment) : list (Z * list Z) :=
  match chunkSize with
  | O => [(baseAddress s, bytes s)]
  | S _ => split_at (List.length (bytes s)) chunkSize (baseAddress s) (bytes s)
  end.

Definition request_of (d : destination) : request_code :=
  match d with Ram => MemoryRequest | Eeprom => EepromRequest end.

(** Modelled from the spec: the control writes of the Transferring state,
    one per chunk, Segment after Segment, in the order of issue (ezusb.c is
    missing). *)
Definition chunk_writes (t : DownloadTarget) (p : DownloadPlan) : list control_write :=
  map (fun c => {| to := handle t; requestCode := request_of (dest p);
                   at_address := fst c; data := snd c |})
      (flat_map (chunks (chunkSize (profile t))) (image p)).

(** Modelled from the spec: the control write that sets the reset
    register (ezusb.c is missing). *)
Definition reset_write (t : DownloadTarget) (value : Z) : control_write :=
  {| to := handle t; requestCode := MemoryRequest;
     at_address := resetRegisterAddress (profile t); data := [value] |}.

(** ** The state machine *)

(** Modelled from the spec: the states of the DownloadEngine (ezusb.c is
    missing). *)
Inductive engine_state :=
| Idle | ResetAsserted | Transferring | ResetReleased | Done | Failed.

(** What a control write was issued for. *)
Inductive purpose := ResetAssert | Chunk | ResetRelease.

(** One call to the transport: its purpose, its arguments and its result
    ([None] is success, [Some cause] a TransportError). *)
Record issued := {
  why : purpose;
  what : control_write;
  outcome_of : option Z
}.

(** The entries of a log issued for a given purpose. *)
Definition issued_for (p : purpose) (l : list issued) : list issued :=
  filter (fun i => match why i, p with
                   | ResetAssert, ResetAssert => true
                   | Chunk, Chunk => true
                   | ResetRelease, ResetRelease => true
                   | _, _ => false
                   end) l.

Definition all_ok (l : list issued) : Prop :=
  Forall (fun i => outcome_of i = None) l.

Definition failed_chunk (w : control_write) (cause : Z) : issued :=
  {| why := Chunk; what := w; outcome_of := Some cause |}.

(** The chunks follow one another from [address] on. *)
Fixpoint consecutive (address : Z) (cs : list (Z * list Z)) : Prop :=
  match cs with
  | [] => True
  | c :: cs' =>
      fst c = address /\ consecutive (address + Z.of_nat (List.length (snd c))) cs'
  end.

(** A byte. *)
Definition is_byte (b : Z) : Prop := 0 <= b < 256.

Section Pass.

Context {T : Type}.

(** [sendControlWrite], over the state [T] of the transport. *)
Variable sendControlWrite : control_write -> T -> option Z * T.

Variable target : DownloadTarget.
Variable plan : DownloadPlan.

Record engine := {
  phase : engine_state;
  remaining : list control_write;     (* chunks still to be written *)
  fault : option engine_error;        (* the error surfaced to the caller *)
  reported : list engine_error;       (* failures reported, not surfaced *)
  log : list issued;                  (* the calls to the transport *)
  link : T
}.

Definition engine0 (t0 : T) : engine :=
  {| phase := Idle; remaining := []; fault := None; reported := [];
     log := []; link := t0 |}.

(** Modelled from the spec: the static EEPROM destination constraint
    (ezusb.c is missing). *)
Definition unsupported : bool :=
  match dest plan with
  | Eeprom => negb (supportsEeprom (profile target))
  | Ram => false
  end.

(** Modelled from the spec: one transition of the DownloadEngine (ezusb.c
    is missing). *)
Definition step (m : engine) : engine :=
  match phase m with
  | Idle =>
      if unsupported then
        {| phase := Idle; remaining := remaining m;
           fault := Some UnsupportedOperation; reported := reported m;
           log := log m; link := link m |}
      else
        match dest plan with
        | Eeprom =>
            (* the reset write is skipped for an EEPROM pass *)
            {| phase := ResetAsserted; remaining := remaining m;
               fault := fault m; reported := reported m;
               log := log m; link := link m |}
        | Ram =>
            let w := reset_write target (resetAssertValue (profile target)) in
            let (r, t') := sendControlWrite w (link m) in
            let entry := {| why := ResetAssert; what := w; outcome_of := r |} in
            match r with
            | None =>
                {| phase := ResetAsserted; remaining := remaining m;
                   fault := fault m; reported := reported m;
                   log := log m ++ [entry]; link := t' |}
            | Some cause =>
                {| phase := Failed; remaining := remaining m;
                   fault := Some (TransportError cause); reported := reported m;
                   log := log m ++ [entry]; link := t' |}
            end
        end
  | ResetAsserted =>
      {| phase := Transferring; remaining := chunk_writes target plan;
         fault := fault m; reported := reported m;
         log := log m; link := link m |}
  | Transferring =>
      match fault m, remaining m with
      | None, w :: ws =>
          let (r, t') := sendControlWrite w (link m) in
          let entry := {| why := Chunk; what := w; outcome_of := r |} in
          match r with
          | None =>
              {| phase := Transferring; remaining := ws;
                 fault := None; reported := reported m;
                 log := log m ++ [entry]; link := t' |}
          | Some cause =>
              (* the remaining chunks of the pass are aborted *)
              {| phase := Transferring; remaining := [];
                 fault := Some (TransportError cause); reported := reported m;
                 log := log m ++ [entry]; link := t' |}
          end
      | None, [] =>
          let w := reset_write target (resetReleaseValue (profile target)) in
          let (r, t') := sendControlWrite w (link m) in
          let entry := {| why := ResetRelease; what := w; outcome_of := r |} in
          match r with
          | None =>
              {| phase := ResetReleased; remaining := [];
                 fault := None; reported := reported m;
                 log := log m ++ [entry]; link := t' |}
          | Some cause =>
              {| phase := Failed; remaining := [];
                 fault := Some (TransportError cause); reported := reported m;
                 log := log m ++ [entry]; link := t' |}
          end
      | Some e, _ =>
          (* best-effort release after a failed transfer *)
          let w := reset_write target (resetReleaseValue (profile target)) in
          let (r, t') := sendControlWrite w (link m) in
          let entry := {| why := ResetRelease; what := w; outcome_of := r |} in
          {| phase := Failed; remaining := remaining m;
             fault := Some e;
             reported := match r with
                         | None => reported m
                         | Some cause => reported m ++ [TransportError cause]
                         end;
             log := log m ++ [entry]; link := t' |}
      end
  | ResetReleased =>
      {| phase := Done; remaining := remaining m; fault := fault m;
         reported := reported m; log := log m; link := link m |}
  | Done => m
  | Failed => m
  end.

(** The pass is over. *)
Definition halted (m : engine) : bool :=
  match phase m with
  | Done | Failed => true
  | Idle => match fault m with Some _ => true | None => false end
  | _ => false
  end.

(** Modelled from the spec: the transitions of a pass, until it is over
    (ezusb.c is missing). *)
Fixpoint run (fuel : nat) (m : engine) : engine :=
  match fuel with
  | O => m
  | S fuel' => if halted m then m else run fuel' (step m)
  end.

(** Transitions that a pass can need: four around the chunks, one per
    chunk. *)
Definition pass_fuel : nat := List.length (chunk_writes target plan) + 4.

(** Modelled from the spec: one pass of the DownloadEngine, from Idle
    (ezusb.c is missing). *)
Definition run_pass (t0 : T) : engine := run pass_fuel (engine0 t0).

(** The log tells what was sent and what the transport answered. *)
Definition log_sound (m : engine) : Prop :=
  Forall (fun i =>
            (exists t, fst (sendControlWrite (what i) t) = outcome_of i) /\
            (why i = ResetRelease ->
             what i = reset_write target (resetReleaseValue (profile target))))
         (log m).

(** What holds of the engine in each state of a pass. *)
Definition invariant (m : engine) : Prop :=
  match phase m with
  | Idle =>
      log m = [] /\ reported m = [] /\
      (fault m = None \/ (fault m = Some UnsupportedOperation /\ unsupported = true))
  | ResetAsserted =>
      fault m = None /\ reported m = [] /\
      issued_for Chunk (log m) = [] /\ issued_for ResetRelease (log m) = []
  | Transferring =>
      issued_for ResetRelease (log m) = [] /\ reported m = [] /\
      match fault m with
      | None =>
          all_ok (issued_for Chunk (log m)) /\
          map what (issued_for Chunk (log m)) ++ remaining m = chunk_writes target plan
      | Some e =>
          exists ok w cause rest,
            issued_for Chunk (log m) = ok ++ [failed_chunk w cause] /\
            all_ok ok /\ e = TransportError cause /\
            map what ok ++ w :: rest = chunk_writes target plan
      end
  | ResetReleased | Done =>
      fault m = None /\ reported m = [] /\
      all_ok (issued_for Chunk (log m)) /\
      map what (issued_for Chunk (log m)) = chunk_writes target plan /\
      exists r, issued_for ResetRelease (log m) = [r] /\ outcome_of r = None
  | Failed =>
      (* the reset could not be asserted *)
      (exists cause,
          fault m = Some (TransportError cause) /\ reported m = [] /\
          log m = [{| why := ResetAssert;
                      what := reset_write target (resetAssertValue (profile target));
                      outcome_of := Some cause |}])
      \/
      (* a chunk failed; the reset was released all the same *)
      (exists ok w cause rest r before,
          issued_for Chunk (log m) = ok ++ [failed_chunk w cause] /\
          all_ok ok /\ fault m = Some (TransportError cause) /\
          map what ok ++ w :: rest = chunk_writes target plan /\
          issued_for ResetRelease (log m) = [r] /\ log m = before ++ [r] /\
          reported m = match outcome_of r with
                       | None => []
                       | Some second => [TransportError second]
                       end)
      \/
      (* all chunks were written; the release failed *)
      (exists r cause,
          all_ok (issued_for Chunk (log m)) /\
          map what (issued_for Chunk (log m)) = chunk_writes target plan /\
          issued_for ResetRelease (log m) = [r] /\ outcome_of r = Some cause /\
          fault m = Some (TransportError cause) /\ reported m = [])
  end.

(** The transitions left before the pass is over, at most. *)
Definition distance (m : engine) : nat :=
  match phase m with
  | Idle =>
      match fault m with
      | Some _ => 0
      | None => List.length (chunk_writes target plan) + 4
      end
  | ResetAsserted => List.length (chunk_writes target plan) + 3
  | Transferring =>
      match fault m with
      | Some _ => 1
      | None => List.length (remaining m) + 2
      end
  | ResetReleased => 1
  | Done | Failed => 0
  end%nat.

End Pass.

End Engine.

(** * A bench: concrete collaborators to run the programs on *)

Module Bench.

(** Decimal [strtoul], enough for the arguments used below. *)
Definition digit (c : ascii) : option Z :=
  let n := Z.of_nat (nat_of_ascii c) in
  if (48 <=? n) && (n <=? 57) then Some (n - 48) else None.

Fixpoint strtoul_from (acc : Z) (s : string) : Z :=
  match s with
  | EmptyString => acc
  | String c s' =>
      match digit c with
      | Some d => strtoul_from (10 * acc + d) s'
      | None => acc
      end
  end.

(** Two devices on the bus, both in the table below under the same type. *)
Definition descriptor_of (dev : Z) : libusb_device_descriptor :=
  if dev =? 1 then {| idVendor := 1351; idProduct := 8497 |}      (* 0547:2131 *)
  else {| idVendor := 1351; idProduct := 8757 |}.                 (* 0547:2235 *)

(** The world is the list of the statuses that the next download passes
    return; a pass returns 0 once the list is empty. *)
Definition next_status (w : list Z) : Z * list Z :=
  match w with
  | [] => (0, [])
  | z :: w' => (z, w')
  end.

Definition X : Externals (list Z) :=
  {| strtoul := strtoul_from 0;
     sscanf_vid_pid := fun s =>
       if String.eqb s "0547:2131" then (2, (1351, 8497))
       else if String.eqb s "04b4:8613" then (2, (1204, 34323))
       else (0, (0, 0));
     libusb_error_name := fun _ => "LIBUSB_ERROR";
     libusb_init := fun w => (0, w);
     libusb_get_device_list := fun w => ((2, [1; 2]), w);
     libusb_get_device_descriptor := fun dev w => ((0, descriptor_of dev), w);
     libusb_open := fun dev w => ((0, 100 + dev), w);
     libusb_open_device_with_vid_pid := fun _ _ w => (100, w);
     libusb_claim_interface := fun _ _ w => (0, w);
     libusb_detach_kernel_driver := fun _ _ w => (0, w);
     ezusb_load_ram := fun _ _ _ _ => next_status;
     ezusb_load_eeprom := fun _ _ _ _ => next_status |}.

(** A build with a table of two entries of the type 0. *)
Definition B (p : platform) : Build :=
  {| target := p;
     FXLOAD_VERSION := "(development)";
     known_device :=
       [ {| known_vid := 1351; known_pid := 8497; known_type := 0;
            designation := "EZ-USB (2131)" |};
         {| known_vid := 1351; known_pid := 8757; known_type := 0;
            designation := "EZ-USB (2235)" |} ];
     fx_name := ["an21"; "fx"; "fx2"; "fx2lp"];
     FX_TYPE_UNDEFINED := -1 |}.

Definition start (w : list Z) : state (list Z) := {| world := w; verbose := 0 |}.

Definition invoke (os : list getopt_result) (device : option string) : invocation :=
  {| argv0 := "fxload"; opts := os; DEVICE := device |}.

(** The transport of the engine: its state is the list of the answers to
    the next writes; once the list is empty every write succeeds. *)
Definition scripted (w : Engine.control_write) (answers : list (option Z))
  : option Z * list (option Z) :=
  match answers with
  | [] => (None, [])
  | a :: answers' => (a, answers')
  end.

Definition profile64 : Engine.DeviceProfile :=
  {| Engine.chunkSize := 64%nat;
     Engine.resetRegisterAddress := 58880;
     Engine.resetAssertValue := 1;
     Engine.resetReleaseValue := 0;
     Engine.supportsEeprom := false;
     Engine.eepromConfigByteSupported := false |}.

Definition target64 : Engine.DownloadTarget :=
  {| Engine.handle := 100; Engine.profile := profile64 |}.

Definition segment130 : Engine.Segment :=
  {| Engine.baseAddress := 4096; Engine.bytes := repeat 255 130 |}.

Definition plan130 (d : Engine.destination) : Engine.DownloadPlan :=
  {| Engine.image := [segment130]; Engine.dest := d; Engine.configByte := None |}.

(** A data record of sixteen bytes at 0100, its checksum 40, and the same
    line with the lowest bit of the checksum flipped. *)
Definition data_line : string := ":10010000214601360121470136007EFE09D2190140".

Definition altered_line : string := ":10010000214601360121470136007EFE09D2190141".

Definition data_record : Engine.HexRecord :=
  {| Engine.recordType := Engine.Data;
     Engine.address := 256;
     Engine.payload := [33; 70; 1; 54; 1; 33; 71; 1; 54; 0; 126; 254; 9; 210; 25; 1];
     Engine.checksumValid := true |}.

(** The second chunk of [segment130] on [target64]. *)
Definition second_chunk : Engine.control_write :=
  {| Engine.to := 100; Engine.requestCode := Engine.MemoryRequest;
     Engine.at_address := 4160; Engine.data := repeat 255 64 |}.

(** Answers of the transport: the reset and the first chunk succeed, the
    second chunk fails with cause 7 and the release with cause 9. *)
Definition second_chunk_fails : list (option Z) := [None; None; Some 7; Some 9].

(** Invocations. *)
Definition type_only : invocation := invoke [Optt "an21"; OptI "fw.hex"] None.

Definition two_stage_ram : invocation :=
  invoke [Opts "loader.hex"; OptI "fw.hex"; Optt "fx"] (Some "0547:2131").

Definition bad_config : invocation :=
  invoke [Optt "fx"; Optc "999"; OptI "fw.hex"] None.

Definition version_then_bad_config : invocation :=
  invoke [OptV; Optc "999"; OptI "fw.hex"] None.

Definition version_then_firmware : invocation :=
  invoke [OptV; OptI "fw.hex"] (Some "0547:2131").

Definition no_type : invocation := invoke [OptI "fw.hex"] (Some "0547:2131").

(** The locals and the target variables of [type_only] at the device
    loop. *)
Definition type_only_locals : Variant1.locals :=
  {| Variant1.firmware_path := Some "fw.hex"; Variant1.loader_path := None;
     Variant1.device_id := None; Variant1.type := Some "an21";
     Variant1.config := -1 |}.

Definition type_only_target : Variant1.target_vars :=
  {| Variant1.dev := 0; Variant1.status := 0; Variant1.fx_type := 0;
     Variant1.vid := 0; Variant1.pid := 0 |}.

End Bench.

(** * Reading an invocation and its events *)

(** The status that a download pass returned. *)
Definition returned (e : event) : Z :=
  match e with
  | EzusbLoadRam _ _ _ _ r | EzusbLoadEeprom _ _ _ _ r => r
  | _ => 0
  end.

(** The download passes of a run, in order. *)
Definition passes (evs : list event) : list event := filter is_load evs.

(** An event that is a message on the error stream or in the system log. *)
Definition is_diagnostic (e : event) : bool :=
  is_output e && negb (writes_stdout e).

(** An event other than a download pass or a write to standard output. *)
Definition no_pass_no_stdout (e : event) : bool :=
  negb (is_load e) && negb (writes_stdout e).

(** A piece of [main] whose events all satisfy [Q] and which, when it
    makes [main] return, makes it return -1. *)
Definition quiet {W A : Type} (Q : event -> bool) (m : M W A) : Prop :=
  forall st,
    forallb Q (snd (fst (m st))) = true /\
    (forall z, fst (fst (m st)) = Return z -> z = -1).

(** The argument of the last option selected by [f], [d] if there is
    none. *)
Fixpoint last_arg (f : getopt_result -> option string) (os : list getopt_result)
    (d : option string) : option string :=
  match os with
  | [] => d
  | o :: os' =>
      last_arg f os' (match f o with Some a => Some a | None => d end)
  end.

Definition arg_s (o : getopt_result) : option string :=
  match o with Opts a => Some a | _ => None end.

Definition arg_I (o : getopt_result) : option string :=
  match o with OptI a => Some a | _ => None end.

Definition arg_c (o : getopt_result) : option string :=
  match o with Optc a => Some a | _ => None end.

Definition arg_t (o : getopt_result) : option string :=
  match o with Optt a => Some a | _ => None end.

Definition arg_D (o : getopt_result) : option string :=
  match o with OptD a => Some a | _ => None end.

(** The first-stage loader, the firmware and the config byte that an
    invocation supplies. *)
Definition supplied_loader (inv : invocation) : option string :=
  last_arg arg_s (opts inv) None.

Definition supplied_firmware (inv : invocation) : option string :=
  last_arg arg_I (opts inv) None.

(** The device selector: the last [-D], or else the environment. *)
Definition supplied_device (inv : invocation) : option string :=
  last_arg arg_D (opts inv) (DEVICE inv).

Definition supplied_config {W} (X : Externals W) (inv : invocation) : Z :=
  match last_arg arg_c (opts inv) None with
  | Some a => to_int (strtoul X a)
  | None => -1
  end.

(** The value of a config byte argument is a byte. *)
Definition config_in_range {W} (X : Externals W) (a : string) : bool :=
  negb ((to_int (strtoul X a) <? 0) || (to_int (strtoul X a) >? 255)).

(** The shape of a two-stage download: the passes [ps] of a run that
    returned [z], for a loader, a firmware and a config byte. *)
Inductive two_stage (loader firmware : string) (config : Z) (z : Z)
  : list event -> Prop :=
| first_pass_failed (device fx_type s : Z) :
    s <> 0 -> z = s ->
    two_stage loader firmware config z [EzusbLoadRam device loader fx_type 0 s]
| second_pass_eeprom (device fx_type : Z) (type : arg) (s : Z) :
    0 <= config -> z = s ->
    two_stage loader firmware config z
      [EzusbLoadRam device loader fx_type 0 0;
       EzusbLoadEeprom device firmware type config s]
| second_pass_ram (device fx_type s : Z) :
    config < 0 -> z = s ->
    two_stage loader firmware config z
      [EzusbLoadRam device loader fx_type 0 0;
       EzusbLoadRam device firmware fx_type 1 s].

(** The passes that an invocation requests all took place and
    succeeded. *)
Definition passes_succeeded (inv : invocation) (evs : list event) : Prop :=
  List.length (passes evs)
  = match supplied_loader inv with Some _ => 2%nat | None => 1%nat end /\
  Forall (fun e => returned e = 0) (passes evs).

(** What [logerror] writes, on a platform. *)
Definition logged (p : platform) (format : string) (args : list arg) : list event :=
  if defined_WIN32 p then [Vfprintf stderr format args] else [].

(** The options that let the option loop of the first [main] go on. *)
Definition accepts1 {W} (X : Externals W) (o : getopt_result) : bool :=
  match o with
  | OptV | OptQuestion => false
  | Optc a => config_in_range X a
  | _ => true
  end.

(** A type name that the second [main] knows. *)
Definition known_type_name (t : string) : bool :=
  String.eqb t "an21" || String.eqb t "fx" || String.eqb t "fx2"
  || String.eqb t "fx2lp".

(** The options that let the option loop of the second [main] go on. *)
Definition accepts2 {W} (X : Externals W) (o : getopt_result) : bool :=
  match o with
  | OptV | OptQuestion => false
  | Optc a => config_in_range X a
  | Optt t => known_type_name t
  | _ => true
  end.

(** A download pass was given the type [type] or its number [fx2]. *)
Definition pass_type (type : string) (fx2 : Z) (e : event) : Prop :=
  match e with
  | EzusbLoadRam _ _ fx _ _ => fx = fx2
  | EzusbLoadEeprom _ _ t _ _ => t = AStr type
  | _ => True
  end.

(** An invocation with [-t type] added after its options. *)
Definition with_type (inv : invocation) (type : string) : invocation :=
  {| argv0 := argv0 inv; opts := opts inv ++ [Optt type]; DEVICE := DEVICE inv |}.

(** * Device identification, as a search *)

(** The descriptors that the device loop of the first [main] reads from
    the world [w], were it to visit every device of [devs]: for each
    device the status and the descriptor. *)
Fixpoint descriptors {W} (X : Externals W) (devs : list Z) (w : W)
  : list (Z * (Z * libusb_device_descriptor)) :=
  match devs with
  | [] => []
  | d :: devs' =>
      if d =? NULL then []
      else
        let (r, w') := libusb_get_device_descriptor X d w in
        (d, r) :: descriptors X devs' w'
  end.

(** A table entry is consistent with an enumerated device and with what
    the caller supplied ([fx_type] unless [type_null], [vid:pid] unless
    [device_id_null]). *)
Definition consistent (type_null device_id_null : bool) (fx_type vid pid : Z)
    (desc : libusb_device_descriptor) (k : fx_known_device) : bool :=
  (idVendor desc =? known_vid k) && (idProduct desc =? known_pid k)
  && (if type_null then
        if device_id_null then true
        else (vid =? idVendor desc) && (pid =? idProduct desc)
      else device_id_null && (fx_type =? known_type k)).

(** The type and the vid:pid that a consistent entry gives: what was
    supplied is kept, what is missing is derived. *)
Definition derived (type_null device_id_null : bool) (fx_type vid pid : Z)
    (desc : libusb_device_descriptor) (k : fx_known_device) : Z * (Z * Z) :=
  (if type_null then known_type k else fx_type,
   (if device_id_null then idVendor desc else vid,
    if device_id_null then idProduct desc else pid)).

(** All the consistent matches, in the order of the enumeration and, for
    one device, of the table: the device with the values derived. *)
Definition candidates (known : list fx_known_device)
    (ds : list (Z * (Z * libusb_device_descriptor)))
    (type_null device_id_null : bool) (fx_type vid pid : Z)
  : list (Z * (Z * (Z * Z))) :=
  flat_map
    (fun r =>
       if fst (snd r) >=? 0 then
         map (fun k => (fst r, derived type_null device_id_null fx_type vid pid
                                 (snd (snd r)) k))
             (filter (consistent type_null device_id_null fx_type vid pid
                        (snd (snd r))) known)
       else [])
    ds.

(** Matches that derive different values. *)
Definition ambiguous (cands : list (Z * (Z * (Z * Z)))) : Prop :=
  exists c c', In c cands /\ In c' cands /\ snd c <> snd c'.

(** A run in which the identification is reported to have failed: [main]
    returns a failure and no device is opened. *)
Definition identification_fails (r : Z * list event) : Prop :=
  fst r <> 0 /\ forall d, ~ In (LibusbOpen d) (snd r).

(** A run that rejects an argument: a failure status, the usage text at
    the end of the diagnostics, no call to libusb or ezusb. *)
Definition rejects (usage_text : list event) (r : Z * list event) : Prop :=
  fst r <> 0 /\
  (exists diagnostic, snd r = diagnostic ++ usage_text) /\
  forallb is_diagnostic (snd r) = true.
(** * The runs of [main], event by event *)

(** A line that [logerror] writes: [vfprintf(stderr, ...)]. *)
Definition is_message (e : event) : bool :=
  match e with Vfprintf stderr _ _ => true | _ => false end.

(** What calls of [logerror] can leave on a platform: lines on the error
    stream with [_WIN32], nothing without. *)
Definition messages (p : platform) (evs : list event) : Prop :=
  forallb is_message evs = true /\ (defined_WIN32 p = false -> evs = []).

(** The line written when the device selector is not [vid:pid]. *)
Definition selector_message : event :=
  Fputs ("please specify VID & PID as " ++ dq ++ "vid:pid" ++ dq
         ++ " in hexadecimal format" ++ nl) stderr.

Definition is_v (o : getopt_result) : bool :=
  match o with Optv => true | _ => false end.

(** The number of [-v] options. *)
Definition count_v (os : list getopt_result) : Z :=
  Z.of_nat (List.length (filter is_v os)).

(** The type name that an invocation supplies: the last [-t]. *)
Definition supplied_type (inv : invocation) : option string :=
  last_arg arg_t (opts inv) None.

(** The handle that an event is about. *)
Definition handle_of (e : event) : option Z :=
  match e with
  | LibusbClaimInterface d _ | LibusbDetachKernelDriver d _
  | LibusbReleaseInterface d _ | LibusbClose d
  | EzusbLoadRam d _ _ _ _ | EzusbLoadEeprom d _ _ _ _ => Some d
  | _ => None
  end.

Definition is_claim (e : event) : bool :=
  match e with LibusbClaimInterface _ _ => true | _ => false end.

Definition is_detach (e : event) : bool :=
  match e with LibusbDetachKernelDriver _ _ => true | _ => false end.

Definition is_set_debug (e : event) : bool :=
  match e with LibusbSetDebug _ => true | _ => false end.



Definition is_eeprom (e : event) : bool :=
  match e with EzusbLoadEeprom _ _ _ _ _ => true | _ => false end.

(** The calls that obtain and free the device list. *)
Definition is_listing (e : event) : bool :=
  match e with
  | LibusbGetDeviceList | LibusbFreeDeviceList => true
  | _ => false
  end.

(** The calls that give a handle back. *)
Definition is_cleanup (e : event) : bool :=
  match e with
  | LibusbReleaseInterface _ _ | LibusbClose _ => true
  | _ => false
  end.

(** The calls that enumerate the bus and open a device found there. *)
Definition is_enumeration (e : event) : bool :=
  match e with
  | LibusbGetDeviceList | LibusbGetDeviceDescriptor _ | LibusbFreeDeviceList
  | LibusbOpen _ => true
  | _ => false
  end.

(** The devices whose descriptor a run has read, in order. *)
Definition descriptors_read (evs : list event) : list Z :=
  flat_map (fun e => match e with LibusbGetDeviceDescriptor d => [d] | _ => [] end)
           evs.

(** The calls of a run to libusb and ezusb, the level given to
    [libusb_set_debug] left aside, and what it writes other than through
    [logerror]. *)
Definition apart_from_verbosity (evs : list event) : list event :=
  filter (fun e => negb (is_message e) && negb (is_set_debug e)) evs.

(** An invocation without its [-v] options. *)
Definition without_v (inv : invocation) : invocation :=
  {| argv0 := argv0 inv;
     opts := filter (fun o => negb (is_v o)) (opts inv);
     DEVICE := DEVICE inv |}.

(** Two pieces of [main] that, from the same world, whatever [verbose]
    is, end alike, make the same calls and leave the same world. *)
Definition alike {W A : Type} (m1 m2 : M W A) : Prop :=
  forall st1 st2,
    world st1 = world st2 ->
    fst (fst (m1 st1)) = fst (fst (m2 st2)) /\
    apart_from_verbosity (snd (fst (m1 st1)))
    = apart_from_verbosity (snd (fst (m2 st2))) /\
    world (snd (m1 st1)) = world (snd (m2 st2)).

(** The status with which the claiming of the first interface of [d]
    ends, from the world [w]: that of the call or, with [__linux__] and
    after a failure, that of the second call, made once the kernel driver
    has been detached. *)
Definition claim_status {W : Type} (X : Externals W) (p : platform) (d : Z)
    (w : W) : Z :=
  let (s, w1) := libusb_claim_interface X d 0 w in
  if defined_linux p && negb (s =? LIBUSB_SUCCESS) then
    let (_, w2) := libusb_detach_kernel_driver X d 0 w1 in
    fst (libusb_claim_interface X d 0 w2)
  else s.

(** The events of claiming the first interface of [d]: one call, or, with
    [__linux__] only, a call, the detaching of the kernel driver and a
    second call. *)
Inductive claimed (p : platform) (d : Z) : list event -> Prop :=
| claimed_once : claimed p d [LibusbClaimInterface d 0]
| claimed_again :
    p = Linux ->
    claimed p d [LibusbClaimInterface d 0; LibusbDetachKernelDriver d 0;
                 LibusbClaimInterface d 0].

(** The events of the download on the handle [d], with the status that it
    leaves: the loader (if any), then the firmware. *)
Inductive downloaded (p : platform) (d : Z) (loader : option string)
    (firmware : string) (fx : Z) (type : arg) (config : Z)
  : Z -> list event -> Prop :=
| single_stage (msgs : list event) (s : Z) :
    loader = None -> messages p msgs ->
    downloaded p d loader firmware fx type config s
      (msgs ++ [EzusbLoadRam d firmware fx 0 s])
| loader_failed (l : string) (msgs : list event) (s : Z) :
    loader = Some l -> messages p msgs -> s <> 0 ->
    downloaded p d loader firmware fx type config s
      (msgs ++ [EzusbLoadRam d l fx 0 s])
| eeprom_written (l : string) (msgs : list event) (s : Z) :
    loader = Some l -> messages p msgs -> 0 <= config ->
    downloaded p d loader firmware fx type config s
      (msgs ++ [EzusbLoadRam d l fx 0 0; EzusbLoadEeprom d firmware type config s])
| ram_loaded (l : string) (msgs : list event) (s : Z) :
    loader = Some l -> messages p msgs -> config < 0 ->
    downloaded p d loader firmware fx type config s
      (msgs ++ [EzusbLoadRam d l fx 0 0; EzusbLoadRam d firmware fx 1 s]).

(** The events of the device loop over the devices visited. *)
Inductive scanned (p : platform) : list Z -> list event -> Prop :=
| scanned_nil : scanned p [] []
| scanned_cons (d : Z) (ds : list Z) (msgs evs : list event) :
    messages p msgs -> scanned p ds evs ->
    scanned p (d :: ds) (LibusbGetDeviceDescriptor d :: msgs ++ evs).

(** ** The second [main] *)

Section Runs2.

Context {W : Type}.
Variable X : Externals W.
Variable B : Build.
Variable inv : invocation.

(** What [sscanf] reads from the device selector. *)
Definition selector2 : Z * (Z * Z) :=
  match supplied_device inv with
  | Some d => sscanf_vid_pid X d
  | None => (0, (0, 0))
  end.

(** An invocation on which the second [main] goes as far as libusb: every
    option is accepted, an EEPROM request comes with a type, a loader and
    a firmware, the device and the firmware are named and the device
    selector reads as [vid:pid]. *)
Definition well_formed2 : bool :=
  forallb (accepts2 X) (opts inv)
  && ((supplied_config X inv <? 0)
      || (match supplied_type inv with Some _ => true | None => false end
          && match supplied_loader inv with Some _ => true | None => false end
          && match supplied_firmware inv with Some _ => true | None => false end))
  && match supplied_device inv with Some _ => true | None => false end
  && match supplied_firmware inv with Some _ => true | None => false end
  && (fst selector2 =? 2).

(** The status of [libusb_init] in the world [w0], and the handle that
    [libusb_open_device_with_vid_pid] then returns. *)
Definition init_status (w0 : W) : Z := fst (libusb_init X w0).

Definition opened_handle2 (w0 : W) : Z :=
  fst (libusb_open_device_with_vid_pid X (to_uint16 (fst (snd selector2)))
         (to_uint16 (snd (snd selector2))) (snd (libusb_init X w0))).

(** The world once that device is opened. *)
Definition opened_world2 (w0 : W) : W :=
  snd (libusb_open_device_with_vid_pid X (to_uint16 (fst (snd selector2)))
         (to_uint16 (snd (snd selector2))) (snd (libusb_init X w0))).

(** The second [main] gets as far as the download: the invocation is
    well formed, [libusb_init] succeeds, the device is opened and its
    first interface claimed. *)
Definition reaches_download2 (w0 : W) : bool :=
  well_formed2 && (0 <=? init_status w0) && negb (opened_handle2 w0 =? NULL)
  && (claim_status X (target B) (opened_handle2 w0) (opened_world2 w0)
      =? LIBUSB_SUCCESS).

(** The runs of the second [main] from the world [w0], [v] being the
    value of [verbose] after the option loop: the status returned and
    the events. *)
Inductive run2 (w0 : W) (v : Z) : Z -> list event -> Prop :=
| run2_version :
    well_formed2 = false -> reaches_download2 w0 = false ->
    run2 w0 v 0 [Puts (FXLOAD_VERSION B)]
| run2_usage (msgs : list event) :
    well_formed2 = false -> reaches_download2 w0 = false -> messages (target B) msgs ->
    run2 w0 v (-1) (msgs ++ Variant2.usage_text inv)
| run2_selector :
    well_formed2 = false -> reaches_download2 w0 = false ->
    run2 w0 v (-1) [selector_message]
| run2_init_failed (msgs : list event) :
    well_formed2 = true -> reaches_download2 w0 = false ->
    init_status w0 < 0 -> messages (target B) msgs ->
    run2 w0 v (-1) (LibusbInit :: msgs)
| run2_open_failed (msgs : list event) :
    well_formed2 = true -> reaches_download2 w0 = false ->
    0 <= init_status w0 -> opened_handle2 w0 = NULL ->
    messages (target B) msgs ->
    run2 w0 v (-1)
      (LibusbInit :: LibusbSetDebug v
       :: LibusbOpenDeviceWithVidPid (to_uint16 (fst (snd selector2)))
            (to_uint16 (snd (snd selector2)))
       :: msgs ++ [LibusbExit])
| run2_claim_failed (cs msgs : list event) :
    well_formed2 = true -> reaches_download2 w0 = false ->
    0 <= init_status w0 -> opened_handle2 w0 <> NULL ->
    claimed (target B) (opened_handle2 w0) cs -> messages (target B) msgs ->
    run2 w0 v (-1)
      (LibusbInit :: LibusbSetDebug v
       :: LibusbOpenDeviceWithVidPid (to_uint16 (fst (snd selector2)))
            (to_uint16 (snd (snd selector2)))
       :: cs ++ msgs ++ [LibusbExit])
| run2_download (cs msgs dl : list event) (firmware : string) (z : Z) :
    well_formed2 = true -> reaches_download2 w0 = true ->
    0 <= init_status w0 -> opened_handle2 w0 <> NULL ->
    claimed (target B) (opened_handle2 w0) cs -> messages (target B) msgs ->
    supplied_firmware inv = Some firmware ->
    downloaded (target B) (opened_handle2 w0) (supplied_loader inv) firmware
      (snd (Variant2.resolve_type (supplied_type inv)))
      (AStr (fst (Variant2.resolve_type (supplied_type inv))))
      (supplied_config X inv) z dl ->
    run2 w0 v z
      (LibusbInit :: LibusbSetDebug v
       :: LibusbOpenDeviceWithVidPid (to_uint16 (fst (snd selector2)))
            (to_uint16 (snd (snd selector2)))
       :: cs ++ msgs ++ dl
       ++ [LibusbReleaseInterface (opened_handle2 w0) 0;
           LibusbClose (opened_handle2 w0); LibusbExit]).

End Runs2.

(** ** The first [main] *)

Section Runs1.

Context {W : Type}.
Variable X : Externals W.
Variable B : Build.
Variable inv : invocation.

(** What [sscanf] reads from the device selector, if there is one:
    [vid] and [pid] keep their initial 0 otherwise. *)
Definition selector1 : Z * Z :=
  match supplied_device inv with
  | Some d => snd (sscanf_vid_pid X d)
  | None => (0, 0)
  end.

(** The value of [fx_type] before the devices are looked at: the index of
    the type name in [fx_name]. *)
Definition requested_type1 : Z :=
  match supplied_type inv with
  | Some t =>
      match Variant1.find_type t (fx_name B) 0 with
      | Some i => i
      | None => FX_TYPE_UNDEFINED B
      end
  | None => FX_TYPE_UNDEFINED B
  end.

(** The [fx_type] that a download pass may be given: with a type named,
    the index of that name in [fx_name]; otherwise the type of an entry of
    the table of known devices. *)
Definition determined_type1 (fx : Z) : Prop :=
  match supplied_type inv with
  | Some t =>
      0 <= fx < FX_TYPE_MAX B /\ nth (Z.to_nat fx) (fx_name B) "" = t
  | None => exists k, In k (known_device B) /\ fx = known_type k
  end.

(** An invocation on which the first [main] goes as far as libusb. *)
Definition well_formed1 : bool :=
  forallb (accepts1 X) (opts inv)
  && ((supplied_config X inv <? 0)
      || (match supplied_type inv with Some _ => true | None => false end
          && match supplied_loader inv with Some _ => true | None => false end
          && match supplied_firmware inv with Some _ => true | None => false end))
  && match supplied_firmware inv with Some _ => true | None => false end
  && match supplied_device inv with
     | Some d => fst (sscanf_vid_pid X d) =? 2
     | None => true
     end
  && match supplied_type inv with
     | Some t =>
         match Variant1.find_type t (fx_name B) 0 with
         | Some _ => true
         | None => false
         end
     | None => true
     end.

(** The type and the device are both supplied: nothing is missing. *)
Definition both_supplied : bool :=
  match supplied_type inv, supplied_device inv with
  | Some _, Some _ => true
  | _, _ => false
  end.

(** What [libusb_get_device_list] returns after [libusb_init] in the
    world [w0]. *)
Definition list_status (w0 : W) : Z :=
  fst (fst (libusb_get_device_list X (snd (libusb_init X w0)))).

Definition device_list (w0 : W) : list Z :=
  snd (fst (libusb_get_device_list X (snd (libusb_init X w0)))).

(** The device at which the device loop stops, if it finds one, from the
    world [w], and the world then: the first device of [devs], before a
    null entry, whose descriptor can be read and matches the table. *)
Fixpoint found_device (devs : list Z) (tn dn : bool) (fx vid pid : Z) (w : W)
  : option Z * W :=
  match devs with
  | [] => (None, w)
  | d :: devs' =>
      if d =? NULL then (None, w)
      else
        let (r, w') := libusb_get_device_descriptor X d w in
        if fst r >=? 0 then
          match Variant1.match_known (known_device B) (snd r) tn dn fx vid pid with
          | Some _ => (Some d, w')
          | None => found_device devs' tn dn fx vid pid w'
          end
        else found_device devs' tn dn fx vid pid w'
  end.

(** The handle with which the device is opened, from the world [w1] after
    [libusb_init], and the world then; none when the device cannot be
    listed, found or opened.  [tn] and [dn] tell that the type and the
    device are missing. *)
Definition opened_from (tn dn : bool) (fx vid pid : Z) (w1 : W) : option (Z * W) :=
  if tn || dn then
    let (r, w2) := libusb_get_device_list X w1 in
    if fst r <? 0 then None
    else
      match found_device (snd r) tn dn fx vid pid w2 with
      | (Some dv, w3) =>
          let (r', w4) := libusb_open X dv w3 in
          if fst r' <? 0 then None else Some (snd r', w4)
      | (None, _) => None
      end
  else
    let (d, w2) := libusb_open_device_with_vid_pid X (to_uint16 vid)
                     (to_uint16 pid) w1 in
    if d =? NULL then None else Some (d, w2).

(** The handle that the first [main] opens from the world [w0], if any. *)
Definition opened1 (w0 : W) : option (Z * W) :=
  opened_from (match supplied_type inv with None => true | Some _ => false end)
    (match supplied_device inv with None => true | Some _ => false end)
    requested_type1 (fst selector1) (snd selector1) (snd (libusb_init X w0)).

(** The first [main] gets as far as the download: the invocation is well
    formed, [libusb_init] succeeds, the device is opened and its first
    interface claimed. *)
Definition reaches_download1 (w0 : W) : bool :=
  well_formed1 && (0 <=? init_status X w0)
  && match opened1 w0 with
     | Some (d, w) => claim_status X (target B) d w =? LIBUSB_SUCCESS
     | None => false
     end.

(** The events, after [libusb_set_debug], of opening the device, with
    the handle [d]: directly, or the first known device found on the
    bus. *)
Inductive opening1 (w0 : W) (d : Z) : list event -> Prop :=
| opened_directly :
    both_supplied = true -> d <> NULL ->
    opening1 w0 d
      [LibusbOpenDeviceWithVidPid (to_uint16 (fst selector1))
         (to_uint16 (snd selector1))]
| opened_after_scan (visited : list Z) (dv : Z) (rest : list Z) (scan : list event) :
    both_supplied = false -> 0 <= list_status w0 ->
    device_list w0 = visited ++ dv :: rest ->
    scanned (target B) (visited ++ [dv]) scan ->
    opening1 w0 d
      (LibusbGetDeviceList :: scan ++ [LibusbOpen dv; LibusbFreeDeviceList]).

(** The runs of the first [main] from the world [w0], [v] being the
    value of [verbose] after the option loop. *)
Inductive run1 (w0 : W) (v : Z) : Z -> list event -> Prop :=
| run1_version :
    well_formed1 = false -> reaches_download1 w0 = false ->
    run1 w0 v 0 [Puts (FXLOAD_VERSION B)]
| run1_usage (msgs : list event) :
    well_formed1 = false -> reaches_download1 w0 = false -> messages (target B) msgs ->
    run1 w0 v (-1) (msgs ++ Variant1.usage_text inv)
| run1_selector :
    well_formed1 = false -> reaches_download1 w0 = false ->
    run1 w0 v (-1) [selector_message]
| run1_init_failed (msgs : list event) :
    well_formed1 = true -> reaches_download1 w0 = false ->
    init_status X w0 < 0 -> messages (target B) msgs ->
    run1 w0 v (-1) (LibusbInit :: msgs)
| run1_list_failed :
    well_formed1 = true -> reaches_download1 w0 = false ->
    0 <= init_status X w0 -> both_supplied = false ->
    list_status w0 < 0 ->
    run1 w0 v (-1)
      (LibusbInit :: LibusbSetDebug v :: LibusbGetDeviceList
       :: logged (target B) ("libusb_get_device_list() failed: %s" ++ nl)
            [AStr (libusb_error_name X (init_status X w0))]
       ++ [LibusbExit])
| run1_not_found (visited rest : list Z) (scan msgs : list event) :
    well_formed1 = true -> reaches_download1 w0 = false ->
    0 <= init_status X w0 -> both_supplied = false ->
    0 <= list_status w0 ->
    device_list w0 = visited ++ rest ->
    scanned (target B) visited scan -> messages (target B) msgs ->
    run1 w0 v (-1)
      (LibusbInit :: LibusbSetDebug v :: LibusbGetDeviceList
       :: scan ++ LibusbFreeDeviceList :: msgs ++ Variant1.usage_text inv)
| run1_open_failed (visited : list Z) (dv : Z) (rest : list Z)
    (scan msgs : list event) :
    well_formed1 = true -> reaches_download1 w0 = false ->
    0 <= init_status X w0 -> both_supplied = false ->
    0 <= list_status w0 ->
    device_list w0 = visited ++ dv :: rest ->
    scanned (target B) (visited ++ [dv]) scan -> messages (target B) msgs ->
    run1 w0 v (-1)
      (LibusbInit :: LibusbSetDebug v :: LibusbGetDeviceList
       :: scan ++ LibusbOpen dv :: msgs ++ [LibusbExit])
| run1_direct_open_failed (msgs : list event) :
    well_formed1 = true -> reaches_download1 w0 = false ->
    0 <= init_status X w0 -> both_supplied = true ->
    messages (target B) msgs ->
    run1 w0 v (-1)
      (LibusbInit :: LibusbSetDebug v
       :: LibusbOpenDeviceWithVidPid (to_uint16 (fst selector1))
            (to_uint16 (snd selector1))
       :: msgs ++ [LibusbExit])
| run1_claim_failed (d : Z) (op cs msgs : list event) :
    well_formed1 = true -> reaches_download1 w0 = false ->
    0 <= init_status X w0 ->
    opening1 w0 d op -> claimed (target B) d cs -> messages (target B) msgs ->
    run1 w0 v (-1)
      (LibusbInit :: LibusbSetDebug v :: op ++ cs ++ msgs ++ [LibusbExit])
| run1_download (d fx : Z) (op cs msgs dl : list event) (firmware : string)
    (z : Z) :
    well_formed1 = true -> reaches_download1 w0 = true ->
    0 <= init_status X w0 ->
    opening1 w0 d op -> claimed (target B) d cs -> messages (target B) msgs ->
    supplied_firmware inv = Some firmware ->
    (supplied_type inv <> None -> fx = requested_type1) ->
    (supplied_type inv = None ->
     exists k, In k (known_device B) /\ fx = known_type k) ->
    downloaded (target B) d (supplied_loader inv) firmware fx (AInt fx)
      (supplied_config X inv) z dl ->
    run1 w0 v z
      (LibusbInit :: LibusbSetDebug v
       :: op ++ cs ++ msgs ++ dl
       ++ [LibusbReleaseInterface d 0; LibusbClose d; LibusbExit]).

End Runs1.

(** * A bench with a bus that cannot be listed *)

Module Faults.

(** The collaborators of [Bench], but [libusb_get_device_list] fails. *)
Definition X : Externals (list Z) :=
  {| strtoul := strtoul Bench.X;
     sscanf_vid_pid := sscanf_vid_pid Bench.X;
     libusb_error_name := fun z => if z =? 0 then "LIBUSB_SUCCESS" else "LIBUSB_ERROR";
     libusb_init := libusb_init Bench.X;
     libusb_get_device_list := fun w => ((-1, []), w);
     libusb_get_device_descriptor := libusb_get_device_descriptor Bench.X;
     libusb_open := libusb_open Bench.X;
     libusb_open_device_with_vid_pid := libusb_open_device_with_vid_pid Bench.X;
     libusb_claim_interface := libusb_claim_interface Bench.X;
     libusb_detach_kernel_driver := libusb_detach_kernel_driver Bench.X;
     ezusb_load_ram := ezusb_load_ram Bench.X;
     ezusb_load_eeprom := ezusb_load_eeprom Bench.X |}.

(** Invocations. *)
Definition device_twice : list getopt_result :=
  [OptD "0547:2131"; OptI "fw.hex"; Optt "fx2"].

Definition verbose_twice : invocation :=
  Bench.invoke [Optv; OptI "fw.hex"; Optv; Optt "fx2"] (Some "0547:2131").

End Faults.

(** * The HEX reader *)

Module EngineFacts.

Import Engine.

(** ** Bytes of a line *)

Lemma hex_digit_range (c : ascii) (d : Z) :
  hex_digit c = Some d -> 0 <= d < 16.
Proof.
  unfold hex_digit.
  set (n := Z.of_nat (nat_of_ascii c)).
  destruct (48 <=? n) eqn:A1, (n <=? 57) eqn:A2,
           (65 <=? n) eqn:B1, (n <=? 70) eqn:B2,
           (97 <=? n) eqn:C1, (n <=? 102) eqn:C2;
    cbn [andb]; intros [= <-]; lia.
Qed.

Lemma hex_digits_range (s : string) : Forall (fun d => 0 <= d < 16) (hex_digits s).
Proof.
  induction s as [|c s IH]; cbn [hex_digits].
  - constructor.
  - destruct (hex_digit c) as [d|] eqn:E; constructor; auto.
    eapply hex_digit_range; eauto.
Qed.

Lemma bytes_of_digits_range_aux (ds : list Z) :
  (Forall (fun d => 0 <= d < 16) ds ->
   forall bs, bytes_of_digits ds = Some bs -> Forall is_byte bs) /\
  (forall d, Forall (fun d => 0 <= d < 16) (d :: ds) ->
   forall bs, bytes_of_digits (d :: ds) = Some bs -> Forall is_byte bs).
Proof.
  induction ds as [|lo ds [IH1 IH2]].
  - split.
    + intros _ bs [= <-]. constructor.
    + intros d _ bs. discriminate.
  - split.
    + apply IH2.
    + intros hi HF bs. cbn [bytes_of_digits].
      destruct (bytes_of_digits ds) as [bs'|] eqn:E; [|discriminate].
      remember (16 * hi + lo) as b eqn:Hb.
      intros [= <-].
      inversion HF as [|? ? Hhi HF']; subst. inversion HF' as [|? ? Hlo HF'']; subst.
      constructor.
      * unfold is_byte. cbn beta in Hhi, Hlo. lia.
      * apply IH1; auto.
Qed.

Lemma bytes_of_digits_range (ds : list Z) :
  Forall (fun d => 0 <= d < 16) ds ->
  forall bs, bytes_of_digits ds = Some bs -> Forall is_byte bs.
Proof. apply bytes_of_digits_range_aux. Qed.

Lemma line_bytes_range (line : string) (bs : list Z) :
  line_bytes line = Some bs -> Forall is_byte bs.
Proof.
  destruct line as [|c rest]; cbn [line_bytes]; [discriminate|].
  destruct (Ascii.eqb c start_marker); [|discriminate].
  apply bytes_of_digits_range, hex_digits_range.
Qed.

Lemma parse_record_line_bytes (line : string) (r : HexRecord) :
  parse_record line = Ok r ->
  exists bs, line_bytes line = Some bs /\ parse_bytes bs = Ok r.
Proof.
  destruct line as [|c rest]; cbn [parse_record line_bytes]; [discriminate|].
  destruct (Ascii.eqb c start_marker); [|discriminate].
  destruct (bytes_of_digits (hex_digits rest)) as [bs|]; [|discriminate].
  intros H. exists bs. auto.
Qed.

Lemma line_bytes_parse_record (line : string) (bs : list Z) :
  line_bytes line = Some bs -> parse_record line = parse_bytes bs.
Proof.
  destruct line as [|c rest]; cbn [parse_record line_bytes]; [discriminate|].
  destruct (Ascii.eqb c start_marker); [|discriminate].
  intros ->. reflexivity.
Qed.

(** ** Records from bytes *)

Lemma split_at_nth (n : nat) (l : list Z) :
  (n < List.length l)%nat ->
  l = firstn n l ++ nth n l 0 :: skipn (S n) l.
Proof.
  revert l. induction n as [|n IH]; intros [|x l] H; cbn in *; try lia.
  - reflexivity.
  - f_equal. apply IH. lia.
Qed.

Lemma parse_bytes_accepts (bs : list Z) (r : HexRecord) :
  Forall is_byte bs ->
  parse_bytes bs = Ok r ->
  exists count hi lo tag trailing,
    bs = (count :: hi :: lo :: tag :: payload r)
           ++ checksum_of (count :: hi :: lo :: tag :: payload r) :: trailing
    /\ Z.of_nat (List.length (payload r)) = count
    /\ recordType r = record_type_of tag
    /\ address r = 256 * hi + lo
    /\ checksumValid r = true.
Proof.
  intros HB.
  destruct bs as [|count [|hi [|lo [|tag rest]]]]; cbn [parse_bytes]; try discriminate.
  destruct (Z.of_nat (List.length rest) <? count + 1) eqn:L; [discriminate|].
  apply Z.ltb_ge in L.
  destruct (nth (Z.to_nat count) rest 0
            =? checksum_of (count :: hi :: lo :: tag :: firstn (Z.to_nat count) rest))
    eqn:C; [|discriminate].
  apply Z.eqb_eq in C. intros [= <-]. cbn [payload recordType address checksumValid].
  assert (0 <= count) by (inversion HB; subst; unfold is_byte in *; lia).
  exists count, hi, lo, tag, (skipn (S (Z.to_nat count)) rest).
  repeat split.
  - cbn [app]. do 4 f_equal. rewrite <- C. apply split_at_nth. lia.
  - rewrite length_firstn. lia.
Qed.

Lemma parse_bytes_altered (count hi lo tag : Z) (data trailing : list Z) (stored : Z) :
  Z.of_nat (List.length data) = count ->
  stored <> checksum_of (count :: hi :: lo :: tag :: data) ->
  parse_bytes ((count :: hi :: lo :: tag :: data) ++ stored :: trailing)
  = Err (MalformedRecord ChecksumMismatch).
Proof.
  intros L D. cbn [app parse_bytes].
  rewrite length_app. cbn [List.length].
  destruct (Z.of_nat (List.length data + S (List.length trailing)) <? count + 1) eqn:E.
  - apply Z.ltb_lt in E. lia.
  - assert (Z.to_nat count = List.length data) as -> by lia.
    rewrite firstn_app, Nat.sub_diag, firstn_all. cbn [firstn]. rewrite app_nil_r.
    rewrite app_nth2, Nat.sub_diag by lia. cbn [nth].
    destruct (stored =? checksum_of (count :: hi :: lo :: tag :: data)) eqn:C.
    + apply Z.eqb_eq in C. contradiction.
    + reflexivity.
Qed.

Lemma lxor_bit_changes (a k : Z) : 0 <= k -> Z.lxor a (Z.shiftl 1 k) <> a.
Proof.
  intros Hk E.
  assert (Z.shiftl 1 k = 0) as Z0.
  { assert (Z.lxor a (Z.lxor a (Z.shiftl 1 k)) = Z.lxor a a) as F
      by (rewrite E; reflexivity).
    rewrite <- Z.lxor_assoc, Z.lxor_nilpotent, Z.lxor_0_l in F. exact F. }
  rewrite Z.shiftl_1_l in Z0.
  pose proof (Z.pow_pos_nonneg 2 k ltac:(lia) Hk). lia.
Qed.

(** C6. A line is accepted only if its stored checksum byte is the two's
    complement, modulo 256, of the sum of the bytes before it; and the
    same line with any other checksum byte (in particular with one bit of
    the checksum flipped) is refused as MalformedRecord, checksum
    mismatch: no record comes out of it. *)
Theorem checksum_decides_acceptance (line : string) (r : HexRecord) :
  parse_record line = Ok r ->
  checksumValid r = true /\
  exists preceding stored trailing,
    line_bytes line = Some (preceding ++ stored :: trailing) /\
    List.length preceding = (4 + List.length (payload r))%nat /\
    stored = checksum_of preceding /\
    stored = (256 - sum_bytes preceding mod 256) mod 256 /\
    (forall line' stored' trailing',
        line_bytes line' = Some (preceding ++ stored' :: trailing') ->
        stored' <> stored ->
        parse_record line' = Err (MalformedRecord ChecksumMismatch)) /\
    (forall line' bit trailing',
        0 <= bit < 8 ->
        line_bytes line' = Some (preceding ++ Z.lxor stored (Z.shiftl 1 bit) :: trailing') ->
        parse_record line' = Err (MalformedRecord ChecksumMismatch)).
Proof.
  intros H.
  destruct (parse_record_line_bytes _ _ H) as (bs & LB & PB).
  destruct (parse_bytes_accepts bs r (line_bytes_range _ _ LB) PB)
    as (count & hi & lo & tag & trailing & -> & L & _ & _ & V).
  split; [exact V|].
  exists (count :: hi :: lo :: tag :: payload r),
         (checksum_of (count :: hi :: lo :: tag :: payload r)), trailing.
  assert (forall line' stored' trailing',
    line_bytes line' = Some ((count :: hi :: lo :: tag :: payload r) ++ stored' :: trailing') ->
    stored' <> checksum_of (count :: hi :: lo :: tag :: payload r) ->
    parse_record line' = Err (MalformedRecord ChecksumMismatch)) as Alt.
  { intros line' stored' trailing' LB' D.
    rewrite (line_bytes_parse_record _ _ LB').
    apply parse_bytes_altered; auto. }
  repeat split; auto.
  intros line' bit trailing' Hb LB'.
  eapply Alt; eauto. apply lxor_bit_changes. lia.
Qed.

(** ** The image loader *)

Lemma load_lines_without_eof (lines : list string) :
  (forall line, In line lines -> is_eof_line line = false) ->
  forall l,
    (forall segments, load_lines lines l <> Ok segments) /\
    (forallb is_record_line lines = true -> load_lines lines l = Err TruncatedImage) /\
    (load_lines lines l = Err TruncatedImage \/
     exists what, load_lines lines l = Err (MalformedRecord what)
                  /\ forallb is_record_line lines = false).
Proof.
  induction lines as [|line lines IH]; intros NE l; cbn [load_lines forallb].
  - repeat split; auto. discriminate.
  - assert (is_eof_line line = false) as E by (apply NE; left; reflexivity).
    assert (forall x, In x lines -> is_eof_line x = false) as NE'
      by (intros; apply NE; right; assumption).
    unfold is_eof_line, is_record_line in *.
    destruct (parse_record line) as [r|e] eqn:P.
    + cbn [andb].
      destruct (recordType r); try discriminate; apply IH; auto.
    + cbn [andb]. repeat split; try discriminate.
      right.
      destruct line as [|c rest]; cbn [parse_record] in P.
      * injection P as <-. eauto.
      * destruct (Ascii.eqb c start_marker).
        -- destruct (bytes_of_digits (hex_digits rest)) as [bs|].
           ++ unfold parse_bytes in P.
              destruct bs as [|count [|hi [|lo [|tag rest']]]];
                try (injection P as <-; eauto).
              destruct (Z.of_nat (List.length rest') <? count + 1);
                [injection P as <-; eauto|].
              destruct (_ =? _); [discriminate|injection P as <-; eauto].
           ++ injection P as <-; eauto.
        -- injection P as <-; eauto.
Qed.

(** C7. A stream of lines that ends without an end-of-file record never
    yields a segment sequence: when all its lines are records, however
    many, the loader fails with TruncatedImage; the only other result is
    the MalformedRecord of a line that is not a record. *)
Theorem image_without_eof_is_truncated (lines : list string) :
  (forall line, In line lines -> is_eof_line line = false) ->
  (forall segments, load_image lines <> Ok segments) /\
  (forallb is_record_line lines = true -> load_image lines = Err TruncatedImage) /\
  (load_image lines = Err TruncatedImage \/
   exists what, load_image lines = Err (MalformedRecord what)
                /\ forallb is_record_line lines = false).
Proof.
  intros NE. apply load_lines_without_eof. exact NE.
Qed.

(** * Chunks *)

Lemma split_at_spec (size : nat) :
  (0 < size)%nat ->
  forall fuel address bs,
    (List.length bs <= fuel)%nat ->
    List.concat (map snd (split_at fuel size address bs)) = bs /\
    Forall (fun c => (1 <= List.length (snd c) <= size)%nat)
           (split_at fuel size address bs) /\
    consecutive address (split_at fuel size address bs).
Proof.
  intros Hs. induction fuel as [|fuel IH]; intros address bs L.
  - destruct bs; cbn in *; [repeat split; constructor | lia].
  - destruct bs as [|b bs]; [cbn; repeat split; constructor|].
    cbn [split_at].
    set (l := b :: bs) in *.
    assert (List.length (firstn size l) = Nat.min size (List.length l)) as LF
      by apply length_firstn.
    assert (1 <= List.length l)%nat by (subst l; cbn; lia).
    destruct (IH (address + Z.of_nat size) (skipn size l)) as (C & F & A).
    { rewrite length_skipn. lia. }
    cbn [map List.concat snd fst consecutive]. repeat split.
    + rewrite C. apply firstn_skipn.
    + constructor; [cbn [snd]; lia | exact F].
    + destruct (Nat.le_gt_cases size (List.length l)) as [G|G].
      * replace (List.length (firstn size l)) with size by lia. exact A.
      * rewrite skipn_all2 in * by lia.
        destruct fuel; cbn; exact I.
Qed.

(** The sizes of the pieces depend on the number of bytes only. *)
Lemma split_at_sizes (size : nat) (bs bs' : list Z) :
  List.length bs = List.length bs' ->
  forall fuel address address',
    map (fun c => List.length (snd c)) (split_at fuel size address bs)
    = map (fun c => List.length (snd c)) (split_at fuel size address' bs').
Proof.
  intros L fuel. revert bs bs' L.
  induction fuel as [|fuel IH]; intros bs bs' L address address'; [reflexivity|].
  destruct bs as [|b bs], bs' as [|b' bs']; try discriminate; [reflexivity|].
  cbn [split_at map fst snd].
  f_equal.
  - rewrite !length_firstn. congruence.
  - apply IH. rewrite !length_skipn. congruence.
Qed.

(** * The pass *)

Lemma issued_for_app (p : purpose) (l l' : list issued) :
  issued_for p (l ++ l') = issued_for p l ++ issued_for p l'.
Proof. apply filter_app. Qed.

Lemma all_ok_app (l l' : list issued) : all_ok l -> all_ok l' -> all_ok (l ++ l').
Proof. intros A B. apply Forall_app. split; assumption. Qed.

Section PassFacts.

Context {T : Type}.
Variable send : control_write -> T -> option Z * T.
Variable target : DownloadTarget.
Variable plan : DownloadPlan.

Lemma invariant_engine0 (t0 : T) : invariant target plan (engine0 t0).
Proof. cbn. auto. Qed.

Ltac log_simpl :=
  rewrite ?issued_for_app; cbn [issued_for filter why what outcome_of];
  rewrite ?app_nil_r.

Lemma invariant_step (m : @engine T) :
  invariant target plan m -> invariant target plan (step send target plan m).
Proof.
  destruct m as [ph rem flt rep lg lk].
  unfold invariant, step; cbn [phase remaining fault reported log link].
  destruct ph.
  - (* Idle *)
    intros (-> & -> & F).
    destruct (unsupported target plan) eqn:U.
    + cbn [phase log reported fault]. auto.
    + destruct F as [->|[_ F]]; [|discriminate].
      destruct (dest plan).
      * destruct (send _ lk) as [[cause|] t'];
          cbn [phase log reported fault app]; log_simpl.
        -- left. exists cause. auto.
        -- auto.
      * cbn [phase log reported fault]. auto.
  - (* ResetAsserted *)
    intros (-> & -> & C & R).
    cbn [phase log reported fault remaining]. rewrite C, R.
    repeat split; constructor.
  - (* Transferring *)
    intros (R & -> & I).
    destruct flt as [e|].
    + destruct I as (ok & w & cause & rest & C & A & -> & P).
      destruct (send _ lk) as [r t'].
      cbn [phase log reported fault remaining]. right. left.
      exists ok, w, cause, rest,
        {| why := ResetRelease;
           what := reset_write target (resetReleaseValue (profile target));
           outcome_of := r |}, lg.
      log_simpl. rewrite C, R. cbn [app outcome_of].
      repeat split; auto; try (destruct r; reflexivity).
    + destruct I as (A & P).
      destruct rem as [|w ws].
      * rewrite app_nil_r in P.
        destruct (send _ lk) as [[cause|] t'];
          cbn [phase log reported fault remaining]; log_simpl; rewrite R;
          cbn [app].
        -- right. right. eexists _, cause. cbn [outcome_of]. repeat split; eauto.
        -- repeat split; auto. eexists. split; reflexivity.
      * destruct (send w lk) as [[cause|] t'];
          cbn [phase log reported fault remaining]; log_simpl; rewrite R.
        -- repeat split; auto.
           exists (issued_for Chunk lg), w, cause, ws. repeat split; auto.
        -- repeat split; auto.
           ++ apply all_ok_app; auto. repeat constructor.
           ++ rewrite map_app, <- app_assoc. exact P.
  - (* ResetReleased *)
    cbn [phase log reported fault]. auto.
  - auto.
  - auto.
Qed.

Lemma invariant_run (fuel : nat) (m : @engine T) :
  invariant target plan m -> invariant target plan (run send target plan fuel m).
Proof.
  revert m. induction fuel as [|fuel IH]; intros m I; cbn [run]; auto.
  destruct (halted m); auto. apply IH, invariant_step, I.
Qed.

Lemma distance_step (m : @engine T) :
  halted m = false ->
  (distance target plan (step send target plan m) < distance target plan m)%nat.
Proof.
  destruct m as [ph rem flt rep lg lk].
  unfold halted, distance, step; cbn [phase remaining fault reported log link].
  destruct ph; try discriminate.
  - destruct flt; [discriminate|]. intros _.
    destruct (unsupported target plan); cbn [phase fault]; [lia|].
    destruct (dest plan); [|cbn [phase fault]; lia].
    destruct (send _ lk) as [[cause|] t']; cbn [phase fault]; lia.
  - intros _. cbn [phase fault remaining]. destruct flt; lia.
  - intros _. destruct flt.
    + destruct (send _ lk) as [r t']; cbn [phase]; lia.
    + destruct rem as [|w ws].
      * destruct (send _ lk) as [[cause|] t']; cbn [phase fault]; lia.
      * destruct (send w lk) as [[cause|] t']; cbn [phase fault remaining List.length]; lia.
  - intros _. cbn [phase]. lia.
Qed.

Lemma distance_halted (m : @engine T) :
  distance target plan m = 0%nat -> halted m = true.
Proof.
  destruct m as [ph rem flt rep lg lk].
  unfold halted, distance; cbn [phase remaining fault].
  destruct ph, flt; try reflexivity; lia.
Qed.

Lemma run_halts (fuel : nat) (m : @engine T) :
  (distance target plan m <= fuel)%nat ->
  halted (run send target plan fuel m) = true.
Proof.
  revert m. induction fuel as [|fuel IH]; intros m D; cbn [run].
  - apply distance_halted. lia.
  - destruct (halted m) eqn:H; [exact H|].
    apply IH. pose proof (distance_step m H). lia.
Qed.

(** A pass always comes to an end, within [pass_fuel] transitions. *)
Lemma run_pass_halts (t0 : T) : halted (run_pass send target plan t0) = true.
Proof. apply run_halts. cbn. unfold pass_fuel. lia. Qed.

Lemma run_pass_invariant (t0 : T) : invariant target plan (run_pass send target plan t0).
Proof. apply invariant_run, invariant_engine0. Qed.

Lemma log_sound_step (m : @engine T) :
  log_sound send target m -> log_sound send target (step send target plan m).
Proof.
  destruct m as [ph rem flt rep lg lk].
  unfold log_sound, step; cbn [phase remaining fault reported log link].
  intros S.
  assert (forall y w r t',
             send w lk = (r, t') ->
             (y = ResetRelease ->
              w = reset_write target (resetReleaseValue (profile target))) ->
             Forall (fun i =>
               (exists t, fst (send (what i) t) = outcome_of i) /\
               (why i = ResetRelease ->
                what i = reset_write target (resetReleaseValue (profile target))))
               (lg ++ [{| why := y; what := w; outcome_of := r |}])) as Add.
  { intros y w r t' E Y. apply Forall_app. split; [exact S|].
    constructor; [|constructor]. cbn [what why outcome_of]. split; [|exact Y].
    exists lk. rewrite E. reflexivity. }
  destruct ph; cbn [log]; auto.
  - destruct (unsupported target plan); cbn [log]; auto.
    destruct (dest plan); cbn [log]; auto.
    destruct (send _ lk) as [[cause|] t'] eqn:E; cbn [log];
      eapply Add; eauto; discriminate.
  - destruct flt.
    + destruct (send _ lk) as [r t'] eqn:E; cbn [log]. eapply Add; eauto.
    + destruct rem as [|w ws].
      * destruct (send _ lk) as [[cause|] t'] eqn:E; cbn [log]; eapply Add; eauto.
      * destruct (send w lk) as [[cause|] t'] eqn:E; cbn [log];
          eapply Add; eauto; discriminate.
Qed.

Lemma log_sound_run (fuel : nat) (m : @engine T) :
  log_sound send target m -> log_sound send target (run send target plan fuel m).
Proof.
  revert m. induction fuel as [|fuel IH]; intros m I; cbn [run]; auto.
  destruct (halted m); auto. apply IH, log_sound_step, I.
Qed.

Lemma run_pass_log_sound (t0 : T) : log_sound send target (run_pass send target plan t0).
Proof. apply log_sound_run. constructor. Qed.

Lemma issued_for_In (p : purpose) (i : issued) (l : list issued) :
  In i (issued_for p l) -> In i l.
Proof. unfold issued_for. intros H. apply filter_In in H. tauto. Qed.

Lemma failed_chunk_In (w : control_write) (cause : Z) (l : list issued) :
  In (failed_chunk w cause) l -> In (failed_chunk w cause) (issued_for Chunk l).
Proof. intros H. apply filter_In. split; [exact H|reflexivity]. Qed.

Lemma all_ok_In (l : list issued) (i : issued) :
  all_ok l -> In i l -> outcome_of i = None.
Proof. intros A H. unfold all_ok in A. rewrite Forall_forall in A. auto. Qed.

(** The chunk writes of a log are the first chunk writes of the plan. *)
Lemma run_pass_chunks_prefix (t0 : T) :
  exists rest,
    map what (issued_for Chunk (log (run_pass send target plan t0))) ++ rest
    = chunk_writes target plan.
Proof.
  pose proof (run_pass_invariant t0) as I.
  pose proof (run_pass_halts t0) as H.
  destruct (run_pass send target plan t0) as [ph rem flt rep lg lk].
  unfold invariant, halted in *; cbn [phase remaining fault reported log link] in *.
  destruct ph; try discriminate.
  - destruct I as (-> & _). eexists. reflexivity.
  - destruct I as (_ & _ & _ & -> & _). exists []. apply app_nil_r.
  - destruct I as [(cause & _ & _ & ->)
                  |[(ok & w & cause & rest & r & before & -> & _ & _ & <- & _)
                   |(r & cause & _ & -> & _)]].
    + eexists. reflexivity.
    + exists rest. rewrite map_app, <- app_assoc. reflexivity.
    + exists []. apply app_nil_r.
Qed.

(** On a transport that never fails, a supported pass is Done and has
    written every chunk. *)
Lemma run_pass_done (t0 : T) :
  unsupported target plan = false ->
  (forall w t, fst (send w t) = None) ->
  phase (run_pass send target plan t0) = Done /\
  fault (run_pass send target plan t0) = None /\
  map what (issued_for Chunk (log (run_pass send target plan t0)))
  = chunk_writes target plan.
Proof.
  intros U OK.
  pose proof (run_pass_invariant t0) as I.
  pose proof (run_pass_halts t0) as H.
  pose proof (run_pass_log_sound t0) as S.
  assert (forall i, In i (log (run_pass send target plan t0)) -> outcome_of i = None)
    as AllNone.
  { intros i Hi. unfold log_sound in S. rewrite Forall_forall in S.
    destruct (S i Hi) as [(t & E) _]. rewrite <- E. apply OK. }
  destruct (run_pass send target plan t0) as [ph rem flt rep lg lk].
  unfold invariant, halted in *; cbn [phase remaining fault reported log link] in *.
  destruct ph; try discriminate.
  - destruct I as (_ & _ & [->|[_ U']]); [discriminate|congruence].
  - destruct I as (F & _ & _ & P & _). auto.
  - exfalso.
    destruct I as [(cause & _ & _ & ->)
                  |[(ok & w & cause & rest & r & before & C & _)
                   |(r & cause & _ & _ & R & O & _)]].
    + specialize (AllNone _ (or_introl eq_refl)). discriminate.
    + assert (In (failed_chunk w cause) lg) as Hin.
      { apply (issued_for_In Chunk). rewrite C. apply in_or_app. right. left. reflexivity. }
      specialize (AllNone _ Hin). discriminate.
    + assert (In r lg) as Hin.
      { apply (issued_for_In ResetRelease). rewrite R. left. reflexivity. }
      specialize (AllNone _ Hin). congruence.
Qed.

End PassFacts.

(** C2. A pass that requests the Eeprom destination on a profile without
    EEPROM support fails with UnsupportedOperation and is over at once, in
    the Idle state, without a single call to the transport: the log of
    control writes is empty and the state of the transport, whatever the
    transport is, is the one the pass started with. *)
Theorem eeprom_unsupported_no_transfer {T : Type}
    (send : control_write -> T -> option Z * T)
    (target : DownloadTarget) (plan : DownloadPlan) (t0 : T) :
  dest plan = Eeprom ->
  supportsEeprom (profile target) = false ->
  fault (run_pass send target plan t0) = Some UnsupportedOperation /\
  log (run_pass send target plan t0) = [] /\
  link (run_pass send target plan t0) = t0 /\
  phase (run_pass send target plan t0) = Idle /\
  halted (run_pass send target plan t0) = true.
Proof.
  intros D NoEeprom.
  assert (step send target plan (engine0 t0)
          = {| phase := Idle; remaining := []; fault := Some UnsupportedOperation;
               reported := []; log := []; link := t0 |}) as E.
  { unfold step, engine0; cbn [phase]. unfold unsupported.
    rewrite D, NoEeprom. reflexivity. }
  unfold run_pass, pass_fuel.
  replace (List.length (chunk_writes target plan) + 4)%nat
    with (S (S (List.length (chunk_writes target plan) + 2)%nat)) by lia.
  cbn [run]. change (halted (engine0 t0)) with false. cbv iota.
  rewrite E. cbn. auto.
Qed.

(** C4. When a chunk write of a pass has failed (so Transferring was
    entered), the pass ends in Failed, the error surfaced is that transfer
    failure, and exactly one reset-release write was issued, as the last
    call to the transport; if the release fails too, its failure is
    reported but is not the error surfaced. *)
Theorem failed_transfer_releases_reset {T : Type}
    (send : control_write -> T -> option Z * T)
    (target : DownloadTarget) (plan : DownloadPlan) (t0 : T)
    (w : control_write) (cause : Z) :
  In (failed_chunk w cause) (log (run_pass send target plan t0)) ->
  phase (run_pass send target plan t0) = Failed /\
  fault (run_pass send target plan t0) = Some (TransportError cause) /\
  List.length (issued_for ResetRelease (log (run_pass send target plan t0))) = 1%nat /\
  exists release before,
    log (run_pass send target plan t0) = before ++ [release] /\
    issued_for ResetRelease before = [] /\
    why release = ResetRelease /\
    what release = reset_write target (resetReleaseValue (profile target)) /\
    reported (run_pass send target plan t0)
    = match outcome_of release with
      | None => []
      | Some second => [TransportError second]
      end.
Proof.
  intros Hin.
  pose proof (run_pass_invariant send target plan t0) as I.
  pose proof (run_pass_halts send target plan t0) as H.
  pose proof (run_pass_log_sound send target plan t0) as S.
  apply failed_chunk_In in Hin.
  destruct (run_pass send target plan t0) as [ph rem flt rep lg lk].
  unfold invariant, halted, log_sound in *;
    cbn [phase remaining fault reported log link] in *.
  destruct ph; try discriminate.
  - destruct I as (-> & _). destruct Hin.
  - destruct I as (_ & _ & A & _).
    pose proof (all_ok_In _ _ A Hin). discriminate.
  - destruct I as [(c & _ & _ & ->)
                  |[(ok & w' & c & rest & r & before & C & A & F & _ & R & L & Rep)
                   |(r & c & A & _)]].
    + cbn in Hin. tauto.
    + rewrite C in Hin. apply in_app_or in Hin. destruct Hin as [Hin|[Hin|[]]].
      * pose proof (all_ok_In _ _ A Hin). discriminate.
      * injection Hin as <- <-.
        repeat split; auto.
        -- rewrite R. reflexivity.
        -- exists r, before.
           assert (In r (issued_for ResetRelease lg)) as Hr by (rewrite R; left; reflexivity).
           assert (why r = ResetRelease) as Wr.
           { unfold issued_for in Hr. apply filter_In in Hr. destruct Hr as [_ Hr].
             destruct (why r); congruence. }
           rewrite Forall_forall in S.
           destruct (S r (issued_for_In _ _ _ Hr)) as [_ Wh].
           repeat split; auto.
           rewrite L, issued_for_app in R.
           destruct (issued_for ResetRelease before) as [|i l]; [reflexivity|].
           cbn in R. rewrite Wr in R. cbn in R.
           injection R as _ R. destruct l; discriminate.
    + pose proof (all_ok_In _ _ A Hin). discriminate.
Qed.

(** C5. The chunks of a Segment are consecutive pieces of its bytes, each
    of 1 to chunkSize bytes, at addresses that follow one another from the
    base address on (the whole Segment as one chunk when chunkSize is 0);
    130 bytes with chunkSize 64 give three chunks of 64, 64 and 2 bytes at
    increasing addresses.  The engine issues one control write per chunk
    in that order, Segment after Segment: the chunk writes of a pass are
    always the first chunk writes of its image, and all of them when no
    write fails. *)
Theorem chunks_in_address_order (s : Segment) (p : DeviceProfile) :
  List.concat (map snd (chunks (chunkSize p) s)) = bytes s /\
  consecutive (baseAddress s) (chunks (chunkSize p) s) /\
  (chunkSize p <> 0%nat ->
   Forall (fun c => (1 <= List.length (snd c) <= chunkSize p)%nat)
          (chunks (chunkSize p) s)) /\
  (chunkSize p = 0%nat -> chunks (chunkSize p) s = [(baseAddress s, bytes s)]) /\
  (chunkSize p = 64%nat -> List.length (bytes s) = 130%nat ->
   map (fun c => (fst c, List.length (snd c))) (chunks (chunkSize p) s)
   = [(baseAddress s, 64%nat); (baseAddress s + 64, 64%nat);
      (baseAddress s + 128, 2%nat)]) /\
  (forall (T : Type) (send : control_write -> T -> option Z * T)
          (h : Z) (before after : list Segment) (d : destination) (c : option Z)
          (t0 : T),
      let target := {| handle := h; profile := p |} in
      let plan := {| image := before ++ s :: after; dest := d; configByte := c |} in
      let write := fun c => {| to := h; requestCode := request_of d;
                               at_address := fst c; data := snd c |} in
      let written :=
        map what (issued_for Chunk (log (run_pass send target plan t0))) in
      (exists rest,
          written ++ rest
          = map write (flat_map (chunks (chunkSize p)) before)
            ++ map write (chunks (chunkSize p) s)
            ++ map write (flat_map (chunks (chunkSize p)) after)) /\
      (unsupported target plan = false ->
       (forall w t, fst (send w t) = None) ->
       phase (run_pass send target plan t0) = Done /\
       written
       = map write (flat_map (chunks (chunkSize p)) before)
         ++ map write (chunks (chunkSize p) s)
         ++ map write (flat_map (chunks (chunkSize p)) after))).
Proof.
  assert (forall n, (0 < n)%nat ->
    List.concat (map snd (chunks n s)) = bytes s /\
    Forall (fun c => (1 <= List.length (snd c) <= n)%nat) (chunks n s) /\
    consecutive (baseAddress s) (chunks n s)) as Pos.
  { intros n Hn. unfold chunks. destruct n as [|n]; [lia|].
    apply split_at_spec; lia. }
  assert (chunks 0 s = [(baseAddress s, bytes s)]) as Zero by reflexivity.
  refine (conj _ (conj _ (conj _ (conj _ (conj _ _))))).
  - destruct (chunkSize p) as [|n]; [rewrite Zero; cbn; apply app_nil_r|].
    apply Pos. lia.
  - destruct (chunkSize p) as [|n]; [rewrite Zero; cbn; auto|].
    apply Pos. lia.
  - intros Hn. apply Pos. lia.
  - intros ->. exact Zero.
  - intros -> L.
    destruct (Pos 64%nat ltac:(lia)) as (_ & _ & A).
    pose proof (split_at_sizes 64 (bytes s) (repeat 0 130)
                  ltac:(rewrite repeat_length; exact L)
                  130%nat (baseAddress s) 0) as Sz.
    assert (map (fun c : Z * list Z => List.length (snd c))
              (split_at 130 64 0 (repeat 0 130)) = [64; 64; 2]%nat) as Sizes
      by (vm_compute; reflexivity).
    rewrite Sizes in Sz. clear Sizes.
    unfold chunks in *. rewrite L in *.
    destruct (split_at 130 64 (baseAddress s) (bytes s))
      as [|[a1 d1] [|[a2 d2] [|[a3 d3] [|? ?]]]]; try discriminate.
    cbn [map fst snd consecutive] in *.
    injection Sz as L1 L2 L3.
    destruct A as (-> & -> & -> & _).
    rewrite L1, L2, L3. change (Z.of_nat 64) with 64.
    replace (baseAddress s + 64 + 64) with (baseAddress s + 128) by lia.
    reflexivity.
  - intros T send h before after d c t0 target plan write written.
    assert (chunk_writes target plan
            = map write (flat_map (chunks (chunkSize p)) before)
              ++ map write (chunks (chunkSize p) s)
              ++ map write (flat_map (chunks (chunkSize p)) after)) as CW.
    { unfold chunk_writes, target, plan. cbn [image handle profile dest].
      rewrite flat_map_app. cbn [flat_map]. rewrite !map_app. reflexivity. }
    rewrite <- CW. split.
    + apply run_pass_chunks_prefix.
    + intros U OK. destruct (run_pass_done send target plan t0 U OK) as (D & _ & E).
      split; assumption.
Qed.

End EngineFacts.

(** * The pieces of [main] *)

Section MonadFacts.

Context {W : Type}.

Lemma bind_Continue {A C : Type} (m : M W A) (k : A -> M W C)
    (st st1 : state W) (a : A) (evs : list event) :
  m st = ((Continue a, evs), st1) ->
  bind m k st
  = ((fst (fst (k a st1)), evs ++ snd (fst (k a st1))), snd (k a st1)).
Proof.
  intros E. unfold bind. rewrite E. destruct (k a st1) as [[o evs'] st2].
  reflexivity.
Qed.

Lemma bind_Return {A C : Type} (m : M W A) (k : A -> M W C)
    (st st1 : state W) (z : Z) (evs : list event) :
  m st = ((Return z, evs), st1) ->
  bind m k st = ((Return z, evs), st1).
Proof. intros E. unfold bind. rewrite E. reflexivity. Qed.

(** The two ways in which a sequence ends. *)
Lemma bind_cases {A C : Type} (m : M W A) (k : A -> M W C) (st : state W) :
  (exists z evs st1,
      m st = ((Return z, evs), st1) /\ bind m k st = ((Return z, evs), st1))
  \/
  (exists a evs st1 o evs' st2,
      m st = ((Continue a, evs), st1) /\ k a st1 = ((o, evs'), st2) /\
      bind m k st = ((o, evs ++ evs'), st2)).
Proof.
  unfold bind. destruct (m st) as [[[a|z] evs] st1].
  - right. destruct (k a st1) as [[o evs'] st2] eqn:K.
    exists a, evs, st1, o, evs', st2. auto.
  - left. exists z, evs, st1. auto.
Qed.

Lemma bind_ext {A C : Type} (m m' : M W A) (k k' : A -> M W C) (st : state W) :
  m st = m' st ->
  (forall a evs st1, m st = ((Continue a, evs), st1) -> k a st1 = k' a st1) ->
  bind m k st = bind m' k' st.
Proof.
  intros Em Ek. unfold bind. rewrite <- Em.
  destruct (m st) as [[[a|z] evs] st1]; [|reflexivity].
  rewrite (Ek a evs st1 eq_refl). reflexivity.
Qed.

Lemma bind_assoc {A C D : Type} (m : M W A) (k : A -> M W C) (h : C -> M W D)
    (st : state W) :
  bind (bind m k) h st = bind m (fun a => bind (k a) h) st.
Proof.
  unfold bind.
  destruct (m st) as [[[a|z] e1] st1]; [|reflexivity].
  destruct (k a st1) as [[[c|z] e2] st2]; [|reflexivity].
  destruct (h c st2) as [[o e3] st3]. rewrite app_assoc. reflexivity.
Qed.

Lemma bind_ret_l {A C : Type} (a : A) (k : A -> M W C) (st : state W) :
  bind (ret a) k st = k a st.
Proof.
  unfold bind, ret. destruct (k a st) as [[o evs] st']. reflexivity.
Qed.

Variable Q : event -> bool.

Lemma quiet_ret {A : Type} (a : A) : quiet Q (@ret W A a).
Proof. intros st. cbn. split; [reflexivity|discriminate]. Qed.

Lemma quiet_return {A : Type} : quiet Q (@return_ W A (-1)).
Proof. intros st. cbn. split; [reflexivity|]. intros z [= <-]. reflexivity. Qed.

Lemma quiet_bind {A C : Type} (m : M W A) (k : A -> M W C) :
  quiet Q m -> (forall a, quiet Q (k a)) -> quiet Q (bind m k).
Proof.
  intros Hm Hk st.
  destruct (bind_cases m k st) as [(z & evs & st1 & E & ->)
                                  |(a & evs & st1 & o & evs' & st2 & E & K & ->)].
  - destruct (Hm st) as [F R]. rewrite E in F, R. cbn [fst snd] in *.
    split; [exact F|]. intros z' [= <-]. apply R. reflexivity.
  - destruct (Hm st) as [F _]. destruct (Hk a st1) as [F' R'].
    rewrite E in F. rewrite K in F', R'. cbn [fst snd] in *.
    split; [|exact R']. rewrite forallb_app, F, F'. reflexivity.
Qed.

Lemma quiet_emit (e : event) : Q e = true -> quiet Q (@emit W e).
Proof.
  intros H st. cbn. rewrite H. split; [reflexivity|discriminate].
Qed.

Lemma quiet_get_verbose : quiet Q (@get_verbose W).
Proof. intros st. cbn. split; [reflexivity|discriminate]. Qed.

Lemma quiet_set_verbose (v : Z) : quiet Q (@set_verbose W v).
Proof. intros st. cbn. split; [reflexivity|discriminate]. Qed.

Lemma quiet_call_with {A : Type} (e : A -> event) (f : W -> A * W) :
  (forall a, Q (e a) = true) -> quiet Q (call_with e f).
Proof.
  intros H st. unfold call_with. destruct (f (world st)) as [a w]. cbn.
  rewrite H. split; [reflexivity|discriminate].
Qed.

Lemma quiet_call {A : Type} (e : event) (f : W -> A * W) :
  Q e = true -> quiet Q (call e f).
Proof. intros H. apply quiet_call_with. intros _. exact H. Qed.

Lemma quiet_when (b : bool) (m : M W unit) : quiet Q m -> quiet Q (when b m).
Proof. intros H. destruct b; [exact H|apply quiet_ret]. Qed.

Lemma quiet_logerror (p : platform) (format : string) (args : list arg) :
  Q (Vfprintf stderr format args) = true ->
  quiet Q (@logerror W p format args).
Proof.
  intros H. unfold logerror. destruct (defined_WIN32 p).
  - apply quiet_emit, H.
  - cbn. apply quiet_ret.
Qed.

Lemma quiet_if {A : Type} (b : bool) (m m' : M W A) :
  quiet Q m -> quiet Q m' -> quiet Q (if b then m else m').
Proof. destruct b; auto. Qed.

End MonadFacts.

Create HintDb quiet.

#[export] Hint Resolve quiet_ret quiet_return quiet_bind quiet_emit
  quiet_get_verbose quiet_set_verbose quiet_call quiet_call_with quiet_when
  quiet_logerror quiet_if : quiet.

(** Decomposes a piece of [main] along its sequences and tests. *)
Ltac quiet_steps :=
  repeat match goal with
    | |- quiet _ (ret _) => apply quiet_ret
    | |- quiet _ (return_ _) => apply quiet_return
    | |- quiet _ (bind _ _) => apply quiet_bind; [|intro]
    | |- quiet _ (emit _) => apply quiet_emit; reflexivity
    | |- quiet _ get_verbose => apply quiet_get_verbose
    | |- quiet _ (set_verbose _) => apply quiet_set_verbose
    | |- quiet _ (call _ _) => apply quiet_call; reflexivity
    | |- quiet _ (call_with _ _) => apply quiet_call_with; intro; reflexivity
    | |- quiet _ (logerror _ _ _) => apply quiet_logerror; reflexivity
    | |- quiet _ (when _ _) => apply quiet_when
    | |- quiet _ (if _ then _ else _) => apply quiet_if
    | |- quiet _ (match ?x with _ => _ end) => destruct x
    end.

Lemma quiet_weaken {W A : Type} (Q Q' : event -> bool) (m : M W A) :
  (forall e, Q e = true -> Q' e = true) -> quiet Q m -> quiet Q' m.
Proof.
  intros I H st. destruct (H st) as [F R]. split; [|exact R].
  rewrite forallb_forall in *. auto.
Qed.

Lemma diagnostic_no_pass (e : event) :
  is_diagnostic e = true -> no_pass_no_stdout e = true.
Proof.
  unfold is_diagnostic, no_pass_no_stdout.
  destruct e; cbn; try discriminate; auto.
Qed.

Lemma diagnostic_is_output (e : event) : is_diagnostic e = true -> is_output e = true.
Proof. unfold is_diagnostic. intros H. apply andb_true_iff in H. tauto. Qed.

Lemma logerror_run {W : Type} (p : platform) (format : string) (args : list arg)
    (st : state W) :
  logerror p format args st = ((Continue tt, logged p format args), st).
Proof. unfold logerror, logged. destruct (defined_WIN32 p); reflexivity. Qed.

(** Built without [_WIN32], [logerror] writes nothing. *)
Lemma logerror_without_WIN32 (p : platform) (format : string) (args : list arg) :
  p <> Windows -> logged p format args = [].
Proof. destruct p; [contradiction|reflexivity|reflexivity]. Qed.

Lemma when_logerror_run {W : Type} (b : bool) (p : platform) (format : string)
    (args : list arg) (st : state W) :
  when b (logerror p format args) st
  = ((Continue tt, if b then logged p format args else []), st).
Proof. destruct b; [apply logerror_run|reflexivity]. Qed.

Lemma logged_diagnostic (p : platform) (format : string) (args : list arg) :
  forallb is_diagnostic (logged p format args) = true.
Proof. unfold logged. destruct (defined_WIN32 p); reflexivity. Qed.

Lemma last_arg_none (f : getopt_result -> option string) (os : list getopt_result)
    (d : option string) :
  (forall o, In o os -> f o = None) -> last_arg f os d = d.
Proof.
  revert d. induction os as [|o os IH]; intros d H; cbn [last_arg]; auto.
  rewrite (H o) by (left; reflexivity). apply IH. intros; apply H; right; auto.
Qed.

Lemma last_arg_app (f : getopt_result -> option string) (os os' : list getopt_result)
    (d : option string) :
  last_arg f (os ++ os') d = last_arg f os' (last_arg f os d).
Proof.
  revert d. induction os as [|o os IH]; intros d; cbn [last_arg app]; auto.
Qed.

Lemma last_arg_default (f : getopt_result -> option string)
    (os : list getopt_result) (d : option string) :
  last_arg f os d
  = match last_arg f os None with Some a => Some a | None => d end.
Proof.
  revert d. induction os as [|o os IH]; intros d; cbn [last_arg]; [reflexivity|].
  rewrite IH. rewrite (IH (match f o with Some a => Some a | None => None end)).
  destruct (last_arg f os None), (f o); reflexivity.
Qed.

Lemma passes_app (evs evs' : list event) :
  passes (evs ++ evs') = passes evs ++ passes evs'.
Proof. apply filter_app. Qed.

Lemma passes_quiet (evs : list event) :
  forallb no_pass_no_stdout evs = true -> passes evs = [].
Proof.
  induction evs as [|e evs IH]; cbn [forallb passes filter]; [reflexivity|].
  intros H. apply andb_true_iff in H. destruct H as [He H].
  unfold no_pass_no_stdout in He. apply andb_true_iff in He.
  destruct He as [He _]. apply negb_true_iff in He. rewrite He. apply IH, H.
Qed.

Lemma quiet_no_stdout (evs : list event) :
  forallb no_pass_no_stdout evs = true ->
  forallb (fun e => negb (writes_stdout e)) evs = true.
Proof.
  rewrite !forallb_forall. intros H e He. specialize (H e He).
  unfold no_pass_no_stdout in H. apply andb_true_iff in H. tauto.
Qed.

Lemma diagnostics_quiet (evs : list event) :
  forallb is_diagnostic evs = true -> forallb no_pass_no_stdout evs = true.
Proof.
  rewrite !forallb_forall. intros H e He. apply diagnostic_no_pass, H, He.
Qed.

Lemma quiet_pass_type (type : string) (fx2 : Z) (evs : list event) :
  forallb no_pass_no_stdout evs = true -> Forall (pass_type type fx2) evs.
Proof.
  rewrite forallb_forall, Forall_forall. intros H e He. specialize (H e He).
  destruct e; try exact I; discriminate.
Qed.

Lemma last_arg_In (f : getopt_result -> option string) (os : list getopt_result)
    (a : string) :
  last_arg f os None = Some a -> exists o, In o os /\ f o = Some a.
Proof.
  induction os as [|o os IH]; cbn [last_arg]; [discriminate|].
  rewrite last_arg_default. destruct (last_arg f os None) as [a'|].
  - intros [= ->]. destruct (IH eq_refl) as (o' & Hin & Ho'). exists o'. split; auto.
    right. exact Hin.
  - destruct (f o) as [a'|] eqn:Fo; [|discriminate].
    intros [= ->]. exists o. split; auto. left. reflexivity.
Qed.

Lemma last_arg_some (f : getopt_result -> option string) (os : list getopt_result)
    (o : getopt_result) (a : string) (d : option string) :
  In o os -> f o = Some a -> exists a', last_arg f os d = Some a'.
Proof.
  revert d. induction os as [|o1 os IH]; intros d Hin Fo; [destruct Hin|].
  cbn [last_arg]. destruct Hin as [->|Hin].
  - rewrite Fo, last_arg_default. destruct (last_arg f os None); eauto.
  - eapply IH; eauto.
Qed.

(** The two ways in which a sequence [E : bind m k st = r] ends. *)
Ltac split_bind E :=
  match type of E with
  | bind ?m ?k ?st = _ =>
      let z := fresh "z" in
      let a := fresh "a" in
      let e1 := fresh "evs" in
      let s1 := fresh "st" in
      let o := fresh "o" in
      let e2 := fresh "evs" in
      let s2 := fresh "st" in
      let M1 := fresh "First" in
      let K := fresh "Then" in
      let E' := fresh "E" in
      destruct (bind_cases m k st)
        as [(z & e1 & s1 & M1 & E')|(a & e1 & s1 & o & e2 & s2 & M1 & K & E')];
      rewrite E' in E; clear E'
  end.

Module Variant1Facts.

Import Variant1.

Section Facts.

Context {W : Type}.
Variable X : Externals W.
Variable B : Build.

Lemma usage_run1 {A : Type} (inv : invocation) (st : state W) :
  @usage W A inv st = ((Return (-1), usage_text inv), st).
Proof. reflexivity. Qed.

(** The option loop: it goes on, silently, through the options that it
    accepts, and returns at the first one that it does not accept. *)
Lemma getopt_loop_run1 (inv : invocation) (os : list getopt_result) :
  forall (l : locals) (st : state W) o evs st',
    getopt_loop X B inv os l st = ((o, evs), st') ->
    world st' = world st /\
    match o with
    | Continue l' =>
        forallb (accepts1 X) os = true /\ evs = [] /\
        loader_path l' = last_arg arg_s os (loader_path l) /\
        firmware_path l' = last_arg arg_I os (firmware_path l) /\
        type l' = last_arg arg_t os (type l) /\
        device_id l' = last_arg arg_D os (device_id l) /\
        config l' = match last_arg arg_c os None with
                    | Some a => to_int (strtoul X a)
                    | None => config l
                    end
    | Return z =>
        exists pre o' post,
          os = pre ++ o' :: post /\ forallb (accepts1 X) pre = true /\
          accepts1 X o' = false /\
          match o' with
          | OptV => z = 0 /\ evs = [Puts (FXLOAD_VERSION B)]
          | Optc a =>
              z = -1 /\
              evs = logged (target B) ("illegal config byte: %s" ++ nl) [AStr a]
                    ++ usage_text inv
          | _ => z = -1 /\ evs = usage_text inv
          end
    end.
Proof.
  induction os as [|o1 os IH]; intros l st o evs st' E.
  - cbn in E. injection E as <- <- <-. cbn. auto 10.
  - assert (forall l1 st1,
               getopt_loop X B inv os l1 st1 = ((o, evs), st') ->
               world st1 = world st ->
               accepts1 X o1 = true ->
               loader_path l1 = match arg_s o1 with Some a => Some a | None => loader_path l end ->
               firmware_path l1 = match arg_I o1 with Some a => Some a | None => firmware_path l end ->
               type l1 = match arg_t o1 with Some a => Some a | None => type l end ->
               device_id l1 = match arg_D o1 with Some a => Some a | None => device_id l end ->
               (match arg_c o1 with
                | Some a => config l1 = to_int (strtoul X a)
                | None => config l1 = config l
                end) ->
               world st' = world st /\
               match o with
               | Continue l' =>
                   forallb (accepts1 X) (o1 :: os) = true /\ evs = [] /\
                   loader_path l' = last_arg arg_s (o1 :: os) (loader_path l) /\
                   firmware_path l' = last_arg arg_I (o1 :: os) (firmware_path l) /\
                   type l' = last_arg arg_t (o1 :: os) (type l) /\
                   device_id l' = last_arg arg_D (o1 :: os) (device_id l) /\
                   config l' = match last_arg arg_c (o1 :: os) None with
                               | Some a => to_int (strtoul X a)
                               | None => config l
                               end
               | Return z =>
                   exists pre o' post,
                     o1 :: os = pre ++ o' :: post /\
                     forallb (accepts1 X) pre = true /\
                     accepts1 X o' = false /\
                     match o' with
                     | OptV => z = 0 /\ evs = [Puts (FXLOAD_VERSION B)]
                     | Optc a =>
                         z = -1 /\
                         evs = logged (target B) ("illegal config byte: %s" ++ nl)
                                 [AStr a] ++ usage_text inv
                     | _ => z = -1 /\ evs = usage_text inv
                     end
               end) as Go.
    { intros l1 st1 E1 Wd Acc Ls Lf Lt Ld Lc.
      destruct (IH l1 st1 o evs st' E1) as [Wd' R].
      split; [congruence|].
      destruct o as [l'|z].
      - destruct R as (Fa & -> & Rs & Rf & Rt & Rd & Rc).
        cbn [forallb last_arg]. rewrite Acc, Fa.
        rewrite Rs, Rf, Rt, Rd, Ls, Lf, Lt, Ld.
        repeat split; auto.
        rewrite Rc.
        rewrite (last_arg_default arg_c os
                   (match arg_c o1 with Some a => Some a | None => None end)).
        destruct (last_arg arg_c os None), (arg_c o1); congruence.
      - destruct R as (pre & o' & post & -> & Fp & Ao & R).
        exists (o1 :: pre), o', post. cbn [forallb app]. rewrite Acc, Fp.
        auto. }
    destruct o1 as [a|a| |a|a|a| | ]; cbn [getopt_loop] in E.
    + eapply Go; eauto; reflexivity.
    + eapply Go; eauto; reflexivity.
    + cbn in E. injection E as <- <- <-. split; [reflexivity|].
      exists [], OptV, os. cbn. auto.
    + destruct ((to_int (strtoul X a) <? 0) || (to_int (strtoul X a) >? 255)) eqn:Bad.
      * unfold bind in E. rewrite logerror_run, usage_run1 in E.
        injection E as <- <- <-. split; [reflexivity|].
        exists [], (Optc a), os. cbn [app forallb accepts1].
        unfold config_in_range. rewrite Bad. auto.
      * eapply Go; eauto; try reflexivity.
        cbn [accepts1]. unfold config_in_range. rewrite Bad. reflexivity.
    + eapply Go; eauto; reflexivity.
    + eapply Go; eauto; reflexivity.
    + cbn in E.
      destruct (getopt_loop X B inv os l
                  {| world := world st; verbose := verbose st + 1 |})
        as [[o2 evs2] st2] eqn:E2.
      injection E as <- <- <-. eapply Go; eauto; reflexivity.
    + rewrite usage_run1 in E. injection E as <- <- <-. split; [reflexivity|].
      exists [], OptQuestion, os. cbn. auto.
Qed.

Lemma usage_quiet1 {A : Type} (Q : event -> bool) (inv : invocation) :
  (forall e, is_diagnostic e = true -> Q e = true) -> quiet Q (@usage W A inv).
Proof.
  intros H. apply (quiet_weaken is_diagnostic); [exact H|].
  unfold usage. quiet_steps.
Qed.

Lemma check_options_quiet1 (inv : invocation) (l : locals) :
  quiet no_pass_no_stdout (@check_options W B inv l).
Proof. unfold check_options, usage. quiet_steps. Qed.

Lemma check_options_Continue1 (inv : invocation) (l : locals) (st st' : state W)
    (evs : list event) :
  check_options B inv l st = ((Continue tt, evs), st') ->
  exists f, firmware_path l = Some f.
Proof.
  unfold check_options. intros E.
  destruct (firmware_path l) as [f|]; [eauto|]. exfalso.
  cbn [is_null] in E.
  match type of E with bind ?m ?k st = _ =>
    destruct (bind_cases m k st) as [(z & e1 & s1 & _ & E')
                                    |(a & e1 & s1 & o & e2 & s2 & _ & K & E')]
  end; rewrite E' in E; [discriminate|].
  injection E as -> _ _.
  unfold bind in K. rewrite logerror_run, usage_run1 in K. discriminate.
Qed.

Lemma scan_devices_quiet1 (devs : list Z) (l : locals) :
  forall t, quiet no_pass_no_stdout (scan_devices X B devs l t).
Proof.
  induction devs as [|d devs IH]; intros t; cbn [scan_devices].
  - quiet_steps.
  - quiet_steps; apply IH.
Qed.

Lemma open_device_quiet1 (inv : invocation) (l : locals) (t : target_vars) :
  quiet no_pass_no_stdout (open_device X B inv l t).
Proof.
  unfold open_device, open_found, usage. quiet_steps. apply scan_devices_quiet1.
Qed.

Lemma claim_interface_quiet1 (device : Z) :
  quiet no_pass_no_stdout (claim_interface X B device).
Proof. unfold claim_interface. quiet_steps. Qed.

Lemma prepare_quiet1 (inv : invocation) (l : locals) :
  quiet no_pass_no_stdout (prepare X B inv l).
Proof.
  unfold prepare.
  apply quiet_bind; [apply check_options_quiet1|intros _].
  apply quiet_bind; [unfold parse_device_id; quiet_steps|intros vp].
  apply quiet_bind; [unfold determine_type, usage; quiet_steps|intros fx].
  quiet_steps.
  - apply open_device_quiet1.
  - apply claim_interface_quiet1.
Qed.

Lemma prepare_Continue1 (inv : invocation) (l : locals) (st st' : state W)
    (df : Z * Z) (evs : list event) :
  prepare X B inv l st = ((Continue df, evs), st') ->
  exists f, firmware_path l = Some f.
Proof.
  unfold prepare. intros E.
  match type of E with bind ?m ?k st = _ =>
    destruct (bind_cases m k st) as [(z & e1 & s1 & _ & E')
                                    |(a & e1 & s1 & o & e2 & s2 & C & _ & E')]
  end; rewrite E' in E; [discriminate|].
  destruct a. eapply check_options_Continue1; eauto.
Qed.

(** The download: with a loader, the shape of a two-stage download;
    without, one pass into RAM. *)
Lemma download_run1 (device : Z) (l : locals) (fx : Z) (firmware : string)
    (st : state W) :
  exists s evs st',
    download X B device l fx firmware st = ((Continue s, evs), st') /\
    forallb (fun e => negb (writes_stdout e)) evs = true /\
    match loader_path l with
    | Some loader => two_stage loader firmware (config l) s (passes evs)
    | None => passes evs = [EzusbLoadRam device firmware fx 0 s]
    end.
Proof.
  unfold download, bind, get_verbose, when, call_with, logerror, ret.
  destruct (loader_path l) as [loader|].
  - destruct (ezusb_load_ram X device loader fx 0 (world st)) as [s1 w1] eqn:E1.
    destruct (s1 =? 0) eqn:Z1.
    + apply Z.eqb_eq in Z1. subst s1.
      destruct (config l >=? 0) eqn:C.
      * destruct (ezusb_load_eeprom X device firmware (AInt fx) (config l) w1)
          as [s2 w2] eqn:E2.
        exists s2.
        destruct (negb (verbose st =? 0)), (defined_WIN32 (target B));
          cbn; rewrite ?E1; cbn; rewrite ?C; cbn; rewrite ?E2; cbn;
          eexists _, _; (split; [reflexivity|]); (split; [reflexivity|]);
          apply second_pass_eeprom; auto; apply Z.geb_le in C; lia.
      * destruct (ezusb_load_ram X device firmware fx 1 w1) as [s2 w2] eqn:E2.
        exists s2.
        assert (config l < 0) by (rewrite Z.geb_leb in C; apply Z.leb_gt in C; lia).
        destruct (negb (verbose st =? 0)), (defined_WIN32 (target B));
          cbn; rewrite ?E1; cbn; rewrite ?C; cbn; rewrite ?E2; cbn;
          eexists _, _; (split; [reflexivity|]); (split; [reflexivity|]);
          apply second_pass_ram; auto.
    + exists s1. apply Z.eqb_neq in Z1.
      destruct (negb (verbose st =? 0)), (defined_WIN32 (target B));
        cbn; rewrite ?E1; cbn;
        (destruct (s1 =? 0) eqn:Z1'; [apply Z.eqb_eq in Z1'; contradiction|]);
        cbn; eexists _, _; (split; [reflexivity|]); (split; [reflexivity|]);
        apply first_pass_failed; auto.
  - destruct (ezusb_load_ram X device firmware fx 0 (world st)) as [s1 w1] eqn:E1.
    exists s1.
    destruct (negb (verbose st =? 0)), (defined_WIN32 (target B));
      cbn; rewrite ?E1; cbn; eexists _, _; repeat split; reflexivity.
Qed.

Lemma out_run1 (device status : Z) (st : state W) :
  out device status st
  = ((Return status,
      [LibusbReleaseInterface device 0; LibusbClose device; LibusbExit]), st).
Proof. reflexivity. Qed.

(** [main] always ends in a [return]. *)
Lemma main_body_returns1 (inv : invocation) (st : state W) :
  exists z evs st', main_body X B inv st = ((Return z, evs), st').
Proof.
  unfold main_body, bind.
  destruct (getopt_loop X B inv (opts inv) (locals0 inv) st)
    as [[[l|z] e1] s1]; [|eauto].
  destruct (prepare X B inv l s1) as [[[df|z] e2] s2]; [|eauto].
  destruct (download_run1 (fst df) l (snd df) (firmware_of l) s2)
    as (s & e3 & s3 & D & _).
  rewrite D, out_run1. eauto.
Qed.

(** The type found is the index of its name in [fx_name]. *)
Lemma find_type_bound (t : string) (names : list string) :
  forall i j, find_type t names i = Some j ->
              i <= j < i + Z.of_nat (List.length names).
Proof.
  induction names as [|n names IH]; intros i j; cbn [find_type List.length];
    [discriminate|].
  destruct (String.eqb t n).
  - intros [= <-]. lia.
  - intros H. specialize (IH _ _ H). lia.
Qed.

Lemma determine_type_bound (inv : invocation) (l : locals) (st st' : state W)
    (fx : Z) (evs : list event) :
  determine_type B inv l st = ((Continue fx, evs), st') ->
  type l <> None -> 0 <= fx < FX_TYPE_MAX B.
Proof.
  unfold determine_type, FX_TYPE_MAX. destruct (type l) as [t|]; [|congruence].
  destruct (find_type t (fx_name B) 0) as [i|] eqn:F.
  - intros [= <- _ _] _. apply (find_type_bound _ _ _ _ F).
  - unfold bind. rewrite logerror_run, usage_run1. discriminate.
Qed.

(** The three ways in which [main] ends: in the option loop, between the
    option loop and the download, or after the download. *)
Lemma main_run1 (inv : invocation) (st st' : state W) (z : Z) (evs : list event) :
  main X B inv st = ((z, evs), st') ->
  (exists pre o' post,
      opts inv = pre ++ o' :: post /\ forallb (accepts1 X) pre = true /\
      accepts1 X o' = false /\ world st' = world st /\
      match o' with
      | OptV => z = 0 /\ evs = [Puts (FXLOAD_VERSION B)]
      | Optc a =>
          z = -1 /\
          evs = logged (target B) ("illegal config byte: %s" ++ nl) [AStr a]
                ++ usage_text inv
      | _ => z = -1 /\ evs = usage_text inv
      end)
  \/
  (forallb (accepts1 X) (opts inv) = true /\ z = -1 /\
   forallb no_pass_no_stdout evs = true)
  \/
  (forallb (accepts1 X) (opts inv) = true /\
   forallb (fun e => negb (writes_stdout e)) evs = true /\
   exists firmware,
     supplied_firmware inv = Some firmware /\
     match supplied_loader inv with
     | Some loader => two_stage loader firmware (supplied_config X inv) z (passes evs)
     | None => exists device fx, passes evs = [EzusbLoadRam device firmware fx 0 z]
     end).
Proof.
  unfold main. destruct (main_body X B inv st) as [[o evs0] st0] eqn:E.
  intros R. unfold main_body in E.
  split_bind E.
  - (* the option loop returns *)
    injection E as <- <- <-. injection R as <- <- <-.
    destruct (getopt_loop_run1 inv _ _ _ _ _ _ First) as [Wd (pre & o' & post & R)].
    left. exists pre, o', post. tauto.
  - destruct (getopt_loop_run1 inv _ _ _ _ _ _ First)
      as [Wd (Acc & -> & Ls & Lf & _ & _ & Lc)].
    cbn [locals0 loader_path firmware_path config app] in *.
    right.
    destruct (prepare_quiet1 inv a st1) as [Qp Rp].
    split_bind Then.
    + (* the preparation returns *)
      injection Then as <- <- <-. injection E as <- <- <-. injection R as <- <- <-.
      rewrite First0 in Qp, Rp. cbn [fst snd] in *.
      left. repeat split; auto.
    + rewrite First0 in Qp. cbn [fst snd] in Qp.
      destruct (prepare_Continue1 inv _ _ _ _ _ First0) as [f Hf].
      match type of Then0 with
      | bind _ _ ?s0 = _ =>
          destruct (download_run1 (fst a0) a (snd a0) (firmware_of a) s0)
            as (s & edl & sdl & D & NoOut & Shape)
      end.
      unfold bind in Then0. rewrite D, out_run1 in Then0.
      injection Then0 as <- <- <-. injection Then as <- <- <-.
      injection E as <- <- <-. injection R as <- <- <-.
      right. split; [exact Acc|]. split.
      * cbn [app]. rewrite !forallb_app, (quiet_no_stdout _ Qp), NoOut. reflexivity.
      * exists f. split; [unfold supplied_firmware; congruence|].
        cbn [app]. rewrite !passes_app, (passes_quiet _ Qp).
        cbn [passes filter is_load app]. rewrite app_nil_r.
        unfold supplied_loader, supplied_config.
        rewrite <- Ls. unfold firmware_of in Shape. rewrite Hf in Shape.
        destruct (loader_path a) as [loader|].
        -- replace (match last_arg arg_c (opts inv) None with
                    | Some a1 => to_int (strtoul X a1)
                    | None => -1
                    end) with (config a) by exact Lc.
           exact Shape.
        -- eauto.
Qed.

(** The loop over the table stops at the first consistent entry. *)
Lemma match_known_first (known : list fx_known_device)
    (desc : libusb_device_descriptor) (tn dn : bool) (fx v p : Z) :
  match_known known desc tn dn fx v p
  = hd_error (map (fun k => (k, derived tn dn fx v p desc k))
                  (filter (consistent tn dn fx v p desc) known)).
Proof.
  induction known as [|k known IH]; [reflexivity|].
  cbn [match_known filter]. unfold consistent at 1, derived at 1.
  destruct ((idVendor desc =? known_vid k) && (idProduct desc =? known_pid k));
    cbn [andb]; [|exact IH].
  destruct tn, dn; cbn [andb].
  - reflexivity.
  - destruct ((v =? idVendor desc) && (p =? idProduct desc)) eqn:E;
      [reflexivity|exact IH].
  - destruct (fx =? known_type k); [reflexivity|exact IH].
  - exact IH.
Qed.

(** The loop over the devices stops at the first device that has a
    consistent entry. *)
Lemma scan_devices_first (devs : list Z) (l : locals) :
  forall (t : target_vars) (st st' : state W) o evs,
    scan_devices X B devs l t st = ((o, evs), st') ->
    exists t',
      o = Continue t' /\
      match candidates (known_device B) (descriptors X devs (world st))
              (is_null (type l)) (is_null (device_id l))
              (fx_type t) (vid t) (pid t) with
      | [] =>
          dev t' = NULL /\ fx_type t' = fx_type t /\
          vid t' = vid t /\ pid t' = pid t
      | c :: _ =>
          dev t' = fst c /\ fst c <> NULL /\
          (fx_type t', (vid t', pid t')) = snd c
      end.
Proof.
  induction devs as [|d devs IH]; intros t st st' o evs E.
  - cbn in E. injection E as <- _ _. eexists. split; [reflexivity|]. cbn. auto.
  - cbn [scan_devices descriptors] in *.
    destruct (d =? NULL) eqn:Dn.
    + cbn in E. injection E as <- _ _. eexists. split; [reflexivity|]. cbn. auto.
    + apply Z.eqb_neq in Dn.
      unfold bind, call, call_with, get_verbose in E.
      destruct (libusb_get_device_descriptor X d (world st)) as [[s desc] w1] eqn:G.
      cbn [candidates flat_map fst snd].
      fold (candidates (known_device B) (descriptors X devs w1)
              (is_null (type l)) (is_null (device_id l))
              (fx_type t) (vid t) (pid t)).
      destruct (s >=? 0) eqn:S.
      * cbn [verbose world] in E. rewrite when_logerror_run in E.
        rewrite match_known_first in E.
        destruct (filter (consistent (is_null (type l)) (is_null (device_id l))
                            (fx_type t) (vid t) (pid t) desc) (known_device B))
          as [|k ks] eqn:F.
        -- cbn [map hd_error app] in *.
           match type of E with
           | context [scan_devices X B devs l ?t1 ?s1] =>
               destruct (scan_devices X B devs l t1 s1) as [[o2 e2] s2] eqn:E2;
               destruct (IH t1 s1 s2 o2 e2 E2) as (t' & -> & R)
           end.
           cbn [world fx_type vid pid] in R.
           injection E as <- _ _. exists t'. split; [reflexivity|exact R].
        -- cbn [map hd_error app fst snd] in *.
           unfold derived in E. cbv beta iota in E.
           rewrite when_logerror_run in E. cbn [ret] in E.
           injection E as <- _ _.
           eexists. split; [reflexivity|].
           cbn [dev fx_type vid pid]. unfold derived. cbn [fst snd].
           repeat split; auto.
      * cbn [app].
        match type of E with
        | context [scan_devices X B devs l ?t1 ?s1] =>
            destruct (scan_devices X B devs l t1 s1) as [[o2 e2] s2] eqn:E2;
            destruct (IH t1 s1 s2 o2 e2 E2) as (t' & -> & R)
        end.
        cbn [world fx_type vid pid] in R.
        injection E as <- _ _. exists t'. split; [reflexivity|exact R].
Qed.

End Facts.

End Variant1Facts.

Module Variant2Facts.

Import Variant2.

Section Facts.

Context {W : Type}.
Variable X : Externals W.
Variable B : Build.

Lemma usage_run2 {A : Type} (inv : invocation) (st : state W) :
  @usage W A inv st = ((Return (-1), usage_text inv), st).
Proof. reflexivity. Qed.

Lemma known_type_name_strcmp2 (t : string) :
  strcmp_ne t "an21" && strcmp_ne t "fx" && strcmp_ne t "fx2" && strcmp_ne t "fx2lp"
  = negb (known_type_name t).
Proof.
  unfold strcmp_ne, known_type_name.
  destruct (String.eqb t "an21"), (String.eqb t "fx"), (String.eqb t "fx2"),
    (String.eqb t "fx2lp"); reflexivity.
Qed.

(** The option loop: it goes on, silently, through the options that it
    accepts, and returns at the first one that it does not accept. *)
Lemma getopt_loop_run2 (inv : invocation) (os : list getopt_result) :
  forall (l : locals) (st : state W) o evs st',
    getopt_loop X B inv os l st = ((o, evs), st') ->
    world st' = world st /\
    match o with
    | Continue l' =>
        forallb (accepts2 X) os = true /\ evs = [] /\
        stage1 l' = last_arg arg_s os (stage1 l) /\
        ihex_path l' = last_arg arg_I os (ihex_path l) /\
        type l' = last_arg arg_t os (type l) /\
        device_path l' = last_arg arg_D os (device_path l) /\
        config l' = match last_arg arg_c os None with
                    | Some a => to_int (strtoul X a)
                    | None => config l
                    end
    | Return z =>
        exists pre o' post,
          os = pre ++ o' :: post /\ forallb (accepts2 X) pre = true /\
          accepts2 X o' = false /\
          match o' with
          | OptV => z = 0 /\ evs = [Puts (FXLOAD_VERSION B)]
          | Optc a =>
              z = -1 /\
              evs = logged (target B) ("illegal config byte: %s" ++ nl) [AStr a]
                    ++ usage_text inv
          | Optt t =>
              z = -1 /\
              evs = logged (target B) ("illegal microcontroller type: %s" ++ nl)
                      [AStr t] ++ usage_text inv
          | _ => z = -1 /\ evs = usage_text inv
          end
    end.
Proof.
  induction os as [|o1 os IH]; intros l st o evs st' E.
  - cbn in E. injection E as <- <- <-. cbn. auto 10.
  - assert (forall l1 st1,
               getopt_loop X B inv os l1 st1 = ((o, evs), st') ->
               world st1 = world st ->
               accepts2 X o1 = true ->
               stage1 l1 = match arg_s o1 with Some a => Some a | None => stage1 l end ->
               ihex_path l1 = match arg_I o1 with Some a => Some a | None => ihex_path l end ->
               type l1 = match arg_t o1 with Some a => Some a | None => type l end ->
               device_path l1 = match arg_D o1 with Some a => Some a | None => device_path l end ->
               (match arg_c o1 with
                | Some a => config l1 = to_int (strtoul X a)
                | None => config l1 = config l
                end) ->
               world st' = world st /\
               match o with
               | Continue l' =>
                   forallb (accepts2 X) (o1 :: os) = true /\ evs = [] /\
                   stage1 l' = last_arg arg_s (o1 :: os) (stage1 l) /\
                   ihex_path l' = last_arg arg_I (o1 :: os) (ihex_path l) /\
                   type l' = last_arg arg_t (o1 :: os) (type l) /\
                   device_path l' = last_arg arg_D (o1 :: os) (device_path l) /\
                   config l' = match last_arg arg_c (o1 :: os) None with
                               | Some a => to_int (strtoul X a)
                               | None => config l
                               end
               | Return z =>
                   exists pre o' post,
                     o1 :: os = pre ++ o' :: post /\
                     forallb (accepts2 X) pre = true /\
                     accepts2 X o' = false /\
                     match o' with
                     | OptV => z = 0 /\ evs = [Puts (FXLOAD_VERSION B)]
                     | Optc a =>
                         z = -1 /\
                         evs = logged (target B) ("illegal config byte: %s" ++ nl)
                                 [AStr a] ++ usage_text inv
                     | Optt t =>
                         z = -1 /\
                         evs = logged (target B)
                                 ("illegal microcontroller type: %s" ++ nl)
                                 [AStr t] ++ usage_text inv
                     | _ => z = -1 /\ evs = usage_text inv
                     end
               end) as Go.
    { intros l1 st1 E1 Wd Acc Ls Lf Lt Ld Lc.
      destruct (IH l1 st1 o evs st' E1) as [Wd' R].
      split; [congruence|].
      destruct o as [l'|z].
      - destruct R as (Fa & -> & Rs & Rf & Rt & Rd & Rc).
        cbn [forallb last_arg]. rewrite Acc, Fa.
        rewrite Rs, Rf, Rt, Rd, Ls, Lf, Lt, Ld.
        repeat split; auto.
        rewrite Rc.
        rewrite (last_arg_default arg_c os
                   (match arg_c o1 with Some a => Some a | None => None end)).
        destruct (last_arg arg_c os None), (arg_c o1); congruence.
      - destruct R as (pre & o' & post & -> & Fp & Ao & R).
        exists (o1 :: pre), o', post. cbn [forallb app]. rewrite Acc, Fp.
        auto. }
    destruct o1 as [a|a| |a|a|a| | ]; cbn [getopt_loop] in E.
    + eapply Go; eauto; reflexivity.
    + eapply Go; eauto; reflexivity.
    + cbn in E. injection E as <- <- <-. split; [reflexivity|].
      exists [], OptV, os. cbn. auto.
    + destruct ((to_int (strtoul X a) <? 0) || (to_int (strtoul X a) >? 255)) eqn:Bad.
      * unfold bind in E. rewrite logerror_run, usage_run2 in E.
        injection E as <- <- <-. split; [reflexivity|].
        exists [], (Optc a), os. cbn [app forallb accepts2].
        unfold config_in_range. rewrite Bad. auto.
      * eapply Go; eauto; try reflexivity.
        cbn [accepts2]. unfold config_in_range. rewrite Bad. reflexivity.
    + eapply Go; eauto; reflexivity.
    + rewrite known_type_name_strcmp2 in E.
      destruct (known_type_name a) eqn:Known; cbn [negb] in E.
      * eapply Go; eauto; reflexivity.
      * unfold bind in E. rewrite logerror_run, usage_run2 in E.
        injection E as <- <- <-. split; [reflexivity|].
        exists [], (Optt a), os. cbn [app forallb accepts2]. auto.
    + cbn in E.
      destruct (getopt_loop X B inv os l
                  {| world := world st; verbose := verbose st + 1 |})
        as [[o2 evs2] st2] eqn:E2.
      injection E as <- <- <-. eapply Go; eauto; reflexivity.
    + rewrite usage_run2 in E. injection E as <- <- <-. split; [reflexivity|].
      exists [], OptQuestion, os. cbn. auto.
Qed.

Lemma check_options_quiet2 (inv : invocation) (l : locals) :
  quiet no_pass_no_stdout (@check_options W B inv l).
Proof. unfold check_options, usage. quiet_steps. Qed.

(** Without a config byte, the checks do not look at the type. *)
Lemma check_options_no_config2 (inv : invocation) (l : locals) (st : state W) :
  config l < 0 ->
  check_options B inv l st
  = match device_path l, ihex_path l with
    | Some d, Some i => ((Continue (d, i), []), st)
    | None, _ =>
        ((Return (-1),
          logged (target B) ("no %s specified!" ++ nl) [AStr "device"]
          ++ usage_text inv), st)
    | Some _, None =>
        ((Return (-1),
          logged (target B) ("no %s specified!" ++ nl) [AStr "firmware"]
          ++ usage_text inv), st)
    end.
Proof.
  intros C. unfold check_options.
  assert ((config l >=? 0) = false) as -> by (rewrite Z.geb_leb; apply Z.leb_gt; lia).
  unfold bind at 1. cbn [ret].
  destruct (device_path l) as [d|], (ihex_path l) as [i|]; cbn [app];
    try reflexivity; unfold bind; rewrite logerror_run, usage_run2; reflexivity.
Qed.

(** With a config byte and no type, the checks fail. *)
Lemma check_options_missing_type2 (inv : invocation) (l : locals) (st : state W) :
  0 <= config l -> type l = None ->
  check_options B inv l st
  = ((Return (-1),
      logged (target B) "must specify microcontroller type %s"
        [AStr ("to write EEPROM!" ++ nl)] ++ usage_text inv), st).
Proof.
  intros C T. unfold check_options.
  assert ((config l >=? 0) = true) as -> by (apply Z.geb_le; lia).
  rewrite T. cbn [is_null]. unfold bind.
  rewrite logerror_run, usage_run2. reflexivity.
Qed.

Lemma check_options_Continue2 (inv : invocation) (l : locals) (st st' : state W)
    (paths : string * string) (evs : list event) :
  check_options B inv l st = ((Continue paths, evs), st') ->
  device_path l = Some (fst paths) /\ ihex_path l = Some (snd paths).
Proof.
  unfold check_options. intros E.
  split_bind E; [discriminate|].
  destruct (device_path l) as [d|], (ihex_path l) as [i|];
    try (unfold bind in Then; rewrite logerror_run, usage_run2 in Then;
         injection Then as <- _ _; discriminate).
  cbn in Then. injection Then as <- _ _. injection E as <- _ _. auto.
Qed.

Lemma open_device_quiet2 (vid pid : Z) :
  quiet no_pass_no_stdout (open_device X B vid pid).
Proof. unfold open_device. quiet_steps. Qed.

Lemma prepare_quiet2 (inv : invocation) (l : locals) :
  quiet no_pass_no_stdout (prepare X B inv l).
Proof.
  unfold prepare.
  apply quiet_bind; [apply check_options_quiet2|intros paths].
  apply quiet_bind; [unfold parse_device_path; quiet_steps|intros vp].
  apply quiet_bind; [apply open_device_quiet2|intros device].
  quiet_steps.
Qed.

Lemma prepare_Continue2 (inv : invocation) (l : locals) (st st' : state W)
    (p : Z * string * (string * Z)) (evs : list event) :
  prepare X B inv l st = ((Continue p, evs), st') ->
  ihex_path l = Some (snd (fst p)) /\ snd p = resolve_type (type l).
Proof.
  unfold prepare. intros E.
  split_bind E; [discriminate|].
  destruct (check_options_Continue2 _ _ _ _ _ _ First) as [_ I].
  split_bind Then; [injection Then as <- _ _; discriminate|].
  split_bind Then0; [injection Then0 as <- _ _; injection Then as <- _ _; discriminate|].
  split_bind Then1;
    [injection Then1 as <- _ _; injection Then0 as <- _ _;
     injection Then as <- _ _; discriminate|].
  split_bind Then2;
    [injection Then2 as <- _ _; injection Then1 as <- _ _;
     injection Then0 as <- _ _; injection Then as <- _ _; discriminate|].
  cbn in Then3. injection Then3 as <- _ _. injection Then2 as <- _ _.
  injection Then1 as <- _ _. injection Then0 as <- _ _. injection Then as <- _ _.
  injection E as <- _ _. cbn [fst snd]. auto.
Qed.

(** The download: with a loader, the shape of a two-stage download;
    without, one pass into RAM; every pass with the resolved type. *)
Lemma download_run2 (device : Z) (l : locals) (type : string) (fx2 : Z)
    (ihex : string) (st : state W) :
  exists s evs st',
    download X B device l type fx2 ihex st = ((Continue s, evs), st') /\
    forallb (fun e => negb (writes_stdout e)) evs = true /\
    Forall (pass_type type fx2) evs /\
    match stage1 l with
    | Some loader => two_stage loader ihex (config l) s (passes evs)
    | None => passes evs = [EzusbLoadRam device ihex fx2 0 s]
    end.
Proof.
  unfold download, bind, get_verbose, when, call_with, logerror, ret.
  destruct (stage1 l) as [loader|].
  - destruct (ezusb_load_ram X device loader fx2 0 (world st)) as [s1 w1] eqn:E1.
    destruct (s1 =? 0) eqn:Z1.
    + apply Z.eqb_eq in Z1. subst s1.
      destruct (config l >=? 0) eqn:C.
      * destruct (ezusb_load_eeprom X device ihex (AStr type) (config l) w1)
          as [s2 w2] eqn:E2.
        exists s2.
        destruct (negb (verbose st =? 0)), (defined_WIN32 (target B));
          cbn; rewrite ?E1; cbn; rewrite ?C; cbn; rewrite ?E2; cbn;
          eexists _, _; (split; [reflexivity|]); (split; [reflexivity|]);
          (split; [repeat constructor|]);
          apply second_pass_eeprom; auto; apply Z.geb_le in C; lia.
      * destruct (ezusb_load_ram X device ihex fx2 1 w1) as [s2 w2] eqn:E2.
        exists s2.
        assert (config l < 0) by (rewrite Z.geb_leb in C; apply Z.leb_gt in C; lia).
        destruct (negb (verbose st =? 0)), (defined_WIN32 (target B));
          cbn; rewrite ?E1; cbn; rewrite ?C; cbn; rewrite ?E2; cbn;
          eexists _, _; (split; [reflexivity|]); (split; [reflexivity|]);
          (split; [repeat constructor|]);
          apply second_pass_ram; auto.
    + exists s1. apply Z.eqb_neq in Z1.
      destruct (negb (verbose st =? 0)), (defined_WIN32 (target B));
        cbn; rewrite ?E1; cbn;
        (destruct (s1 =? 0) eqn:Z1'; [apply Z.eqb_eq in Z1'; contradiction|]);
        cbn; eexists _, _; (split; [reflexivity|]); (split; [reflexivity|]);
        (split; [repeat constructor|]);
        apply first_pass_failed; auto.
  - destruct (ezusb_load_ram X device ihex fx2 0 (world st)) as [s1 w1] eqn:E1.
    exists s1.
    destruct (negb (verbose st =? 0)), (defined_WIN32 (target B));
      cbn; rewrite ?E1; cbn; eexists _, _; repeat split; repeat constructor.
Qed.

Lemma out_run2 (device status : Z) (st : state W) :
  out device status st
  = ((Return status,
      [LibusbReleaseInterface device 0; LibusbClose device; LibusbExit]), st).
Proof. reflexivity. Qed.

(** When the paths are there, the vid:pid is read, and libusb opens and
    claims the device, the preparation goes on to the download, whatever
    the type is. *)
Lemma prepare_succeeds2 (inv : invocation) (l : locals) (st : state W)
    (dpath firmware : string) (vid pid s0 device : Z) (w1 w2 w3 : W) :
  config l < 0 ->
  device_path l = Some dpath ->
  ihex_path l = Some firmware ->
  sscanf_vid_pid X dpath = (2, (vid, pid)) ->
  libusb_init X (world st) = (s0, w1) ->
  0 <= s0 ->
  libusb_open_device_with_vid_pid X (to_uint16 vid) (to_uint16 pid) w1 = (device, w2) ->
  device <> NULL ->
  libusb_claim_interface X device 0 w2 = (LIBUSB_SUCCESS, w3) ->
  exists evs,
    prepare X B inv l st
    = ((Continue (device, firmware, resolve_type (type l)), evs),
       {| world := w3; verbose := verbose st |}) /\
    forallb no_pass_no_stdout evs = true.
Proof.
  intros C Dp Ip Sc In0 S0 Op Dn Cl.
  pose proof (prepare_quiet2 inv l st) as [Q _].
  assert (fst (fst (prepare X B inv l st))
          = Continue (device, firmware, resolve_type (type l)) /\
          snd (prepare X B inv l st) = {| world := w3; verbose := verbose st |})
    as [Eo Es].
  { assert ((s0 <? 0) = false) as S0' by (apply Z.ltb_ge; lia).
    assert ((device =? NULL) = false) as Dn' by (apply Z.eqb_neq; exact Dn).
    unfold prepare, open_device, parse_device_path, bind, call, call_with.
    rewrite (check_options_no_config2 inv l st C), Dp, Ip.
    cbn [fst snd]. rewrite Sc. cbn [Z.eqb Pos.eqb negb ret fst snd world verbose].
    rewrite In0, S0'. cbn [ret get_verbose emit world verbose]. rewrite Op, Dn'.
    cbn [ret world verbose]. rewrite Cl.
    repeat first
      [ progress change (LIBUSB_SUCCESS =? LIBUSB_SUCCESS) with true
      | progress cbn [negb andb ret world verbose get_verbose fst snd]
      | rewrite andb_false_r ].
    rewrite when_logerror_run. cbn [ret fst snd]. auto. }
  destruct (prepare X B inv l st) as [[o evs] s1]. cbn [fst snd] in *.
  subst o s1. eauto.
Qed.

(** [main] always ends in a [return]. *)
Lemma main_body_returns2 (inv : invocation) (st : state W) :
  exists z evs st', main_body X B inv st = ((Return z, evs), st').
Proof.
  unfold main_body, bind.
  destruct (getopt_loop X B inv (opts inv) (locals0 inv) st)
    as [[[l|z] e1] s1]; [|eauto].
  destruct (prepare X B inv l s1) as [[[p|z] e2] s2]; [|eauto].
  destruct (download_run2 (fst (fst p)) l (fst (snd p)) (snd (snd p))
              (snd (fst p)) s2)
    as (s & e3 & s3 & D & _).
  rewrite D, out_run2. eauto.
Qed.

(** The three ways in which [main] ends: in the option loop, between the
    option loop and the download, or after the download. *)
Lemma main_run2 (inv : invocation) (st st' : state W) (z : Z) (evs : list event) :
  main X B inv st = ((z, evs), st') ->
  (exists pre o' post,
      opts inv = pre ++ o' :: post /\ forallb (accepts2 X) pre = true /\
      accepts2 X o' = false /\ world st' = world st /\
      match o' with
      | OptV => z = 0 /\ evs = [Puts (FXLOAD_VERSION B)]
      | Optc a =>
          z = -1 /\
          evs = logged (target B) ("illegal config byte: %s" ++ nl) [AStr a]
                ++ usage_text inv
      | Optt t =>
          z = -1 /\
          evs = logged (target B) ("illegal microcontroller type: %s" ++ nl)
                  [AStr t] ++ usage_text inv
      | _ => z = -1 /\ evs = usage_text inv
      end)
  \/
  (forallb (accepts2 X) (opts inv) = true /\ z = -1 /\
   forallb no_pass_no_stdout evs = true)
  \/
  (forallb (accepts2 X) (opts inv) = true /\
   forallb (fun e => negb (writes_stdout e)) evs = true /\
   Forall (pass_type (fst (resolve_type (last_arg arg_t (opts inv) None)))
                     (snd (resolve_type (last_arg arg_t (opts inv) None)))) evs /\
   exists firmware,
     supplied_firmware inv = Some firmware /\
     match supplied_loader inv with
     | Some loader => two_stage loader firmware (supplied_config X inv) z (passes evs)
     | None => exists device fx, passes evs = [EzusbLoadRam device firmware fx 0 z]
     end).
Proof.
  unfold main. destruct (main_body X B inv st) as [[o evs0] st0] eqn:E.
  intros R. unfold main_body in E.
  split_bind E.
  - (* the option loop returns *)
    injection E as <- <- <-. injection R as <- <- <-.
    destruct (getopt_loop_run2 inv _ _ _ _ _ _ First) as [Wd (pre & o' & post & R)].
    left. exists pre, o', post. tauto.
  - destruct (getopt_loop_run2 inv _ _ _ _ _ _ First)
      as [Wd (Acc & -> & Ls & Lf & Lt & _ & Lc)].
    cbn [locals0 stage1 ihex_path type config app] in *.
    right.
    destruct (prepare_quiet2 inv a st1) as [Qp Rp].
    split_bind Then.
    + (* the preparation returns *)
      injection Then as <- <- <-. injection E as <- <- <-. injection R as <- <- <-.
      rewrite First0 in Qp, Rp. cbn [fst snd] in *.
      left. repeat split; auto.
    + rewrite First0 in Qp. cbn [fst snd] in Qp.
      destruct (prepare_Continue2 inv _ _ _ _ _ First0) as [Hf Ht].
      match type of Then0 with
      | bind _ _ ?s0 = _ =>
          destruct (download_run2 (fst (fst a0)) a (fst (snd a0)) (snd (snd a0))
                      (snd (fst a0)) s0)
            as (s & edl & sdl & D & NoOut & Ty & Shape)
      end.
      unfold bind in Then0. rewrite D, out_run2 in Then0.
      injection Then0 as <- <- <-. injection Then as <- <- <-.
      injection E as <- <- <-. injection R as <- <- <-.
      right. split; [exact Acc|]. split; [|split].
      * cbn [app]. rewrite !forallb_app, (quiet_no_stdout _ Qp), NoOut. reflexivity.
      * cbn [app]. rewrite <- Lt, <- Ht.
        apply Forall_app. split; [apply quiet_pass_type, Qp|].
        apply Forall_app. split; [exact Ty|]. repeat constructor.
      * exists (snd (fst a0)). split; [unfold supplied_firmware; congruence|].
        cbn [app]. rewrite !passes_app, (passes_quiet _ Qp).
        cbn [passes filter is_load app]. rewrite app_nil_r.
        unfold supplied_loader, supplied_config.
        rewrite <- Ls.
        destruct (stage1 a) as [loader|].
        -- replace (match last_arg arg_c (opts inv) None with
                    | Some a1 => to_int (strtoul X a1)
                    | None => -1
                    end) with (config a) by exact Lc.
           exact Shape.
        -- eauto.
Qed.

Lemma usage_argv02 {A : Type} (inv inv' : invocation) :
  argv0 inv' = argv0 inv -> @usage W A inv' = usage inv.
Proof. unfold usage. intros ->. reflexivity. Qed.

Lemma getopt_loop_argv02 (inv inv' : invocation) (os : list getopt_result) :
  argv0 inv' = argv0 inv ->
  forall l, getopt_loop X B inv' os l = getopt_loop X B inv os l.
Proof.
  intros H. induction os as [|o os IH]; intros l; [reflexivity|].
  destruct o; cbn [getopt_loop]; rewrite ?IH, ?(usage_argv02 inv inv' H);
    reflexivity.
Qed.

Lemma getopt_loop_app2 (inv : invocation) (os os' : list getopt_result) :
  forall l st,
    getopt_loop X B inv (os ++ os') l st
    = bind (getopt_loop X B inv os l) (fun l' => getopt_loop X B inv os' l') st.
Proof.
  induction os as [|o os IH]; intros l st.
  - cbn [app getopt_loop]. unfold bind, ret.
    destruct (getopt_loop X B inv os' l st) as [[o evs] st']. reflexivity.
  - destruct o; cbn [app getopt_loop]; try apply IH; try reflexivity.
    + destruct ((to_int (strtoul X optarg) <? 0) || (to_int (strtoul X optarg) >? 255));
        [|apply IH].
      unfold bind. rewrite logerror_run, usage_run2. reflexivity.
    + destruct (strcmp_ne optarg "an21" && strcmp_ne optarg "fx"
                && strcmp_ne optarg "fx2" && strcmp_ne optarg "fx2lp"); [|apply IH].
      unfold bind. rewrite logerror_run, usage_run2. reflexivity.
    + unfold bind, get_verbose, set_verbose. rewrite IH. unfold bind.
      destruct (getopt_loop X B inv os l _) as [[[l'|z] evs] st1]; [|reflexivity].
      destruct (getopt_loop X B inv os' l' st1) as [[o2 evs2] st2]. reflexivity.
Qed.

End Facts.

End Variant2Facts.

(** * The claims on the two [main] *)

Lemma first_rejected_unique {A : Type} (ok : A -> bool)
    (pre pre' post post' : list A) (o o' : A) :
  pre ++ o :: post = pre' ++ o' :: post' ->
  forallb ok pre = true -> ok o = false ->
  forallb ok pre' = true -> ok o' = false ->
  pre = pre' /\ o = o' /\ post = post'.
Proof.
  revert pre'. induction pre as [|x pre IH]; intros [|x' pre'] E F R F' R';
    cbn [app forallb] in *.
  - injection E as -> ->. auto.
  - injection E as -> _. apply andb_true_iff in F'. destruct F' as [F' _]. congruence.
  - injection E as -> _. apply andb_true_iff in F. destruct F as [F _]. congruence.
  - injection E as -> E.
    apply andb_true_iff in F, F'. destruct F as [_ F], F' as [_ F'].
    destruct (IH pre' E F R F' R') as (-> & -> & ->). auto.
Qed.

Lemma rejected_not_accepted {A : Type} (ok : A -> bool) (os : list A) (o : A) :
  In o os -> ok o = false -> forallb ok os = false.
Proof.
  intros Hin R. destruct (forallb ok os) eqn:F; [|reflexivity].
  rewrite forallb_forall in F. rewrite (F o Hin) in R. discriminate.
Qed.

Lemma usage_text_diagnostic1 (inv : invocation) :
  forallb is_diagnostic (Variant1.usage_text inv) = true.
Proof. reflexivity. Qed.

Lemma usage_text_diagnostic2 (inv : invocation) :
  forallb is_diagnostic (Variant2.usage_text inv) = true.
Proof. reflexivity. Qed.

Lemma diagnostics_passes (evs : list event) :
  forallb is_diagnostic evs = true -> passes evs = [].
Proof. intros H. apply passes_quiet, diagnostics_quiet, H. Qed.

Lemma diagnostics_output (evs : list event) :
  forallb is_diagnostic evs = true -> forallb is_output evs = true.
Proof.
  rewrite !forallb_forall. intros H e He. apply diagnostic_is_output, H, He.
Qed.

Section Claims.

Context {W : Type}.
Variable X : Externals W.
Variable B : Build.

(** C8 (amended). When an invocation has a [-c] option whose argument,
    converted to the [int] [config], is outside 0..255, [main] returns
    without a single call to libusb or ezusb, the world unchanged: either
    it returns -1 after the usage text, or a [-V] option came first in
    the option loop and it returns 0 after printing its version.  When
    the option loop reaches that [-c] option, it is the first case: -1
    and the usage text, which follows what [logerror] writes for the
    argument in the build at hand. *)
Theorem bad_config_byte_is_rejected (inv : invocation) (st : state W) (a : string) :
  In (Optc a) (opts inv) ->
  config_in_range X a = false ->
  (forall z evs st',
      Variant1.main X B inv st = ((z, evs), st') ->
      world st' = world st /\ forallb is_output evs = true /\
      ((z = -1 /\ rejects (Variant1.usage_text inv) (z, evs)) \/
       (z = 0 /\ evs = [Puts (FXLOAD_VERSION B)] /\
        exists pre post,
          opts inv = pre ++ OptV :: post /\ forallb (accepts1 X) pre = true)) /\
      (forall pre post,
          opts inv = pre ++ Optc a :: post -> forallb (accepts1 X) pre = true ->
          z = -1 /\
          evs = logged (target B) ("illegal config byte: %s" ++ nl) [AStr a]
                ++ Variant1.usage_text inv)) /\
  (forall z evs st',
      Variant2.main X B inv st = ((z, evs), st') ->
      world st' = world st /\ forallb is_output evs = true /\
      ((z = -1 /\ rejects (Variant2.usage_text inv) (z, evs)) \/
       (z = 0 /\ evs = [Puts (FXLOAD_VERSION B)] /\
        exists pre post,
          opts inv = pre ++ OptV :: post /\ forallb (accepts2 X) pre = true)) /\
      (forall pre post,
          opts inv = pre ++ Optc a :: post -> forallb (accepts2 X) pre = true ->
          z = -1 /\
          evs = logged (target B) ("illegal config byte: %s" ++ nl) [AStr a]
                ++ Variant2.usage_text inv)).
Proof.
  intros Hin Bad.
  assert (accepts1 X (Optc a) = false) as R1 by exact Bad.
  assert (accepts2 X (Optc a) = false) as R2 by exact Bad.
  pose proof (rejected_not_accepted (accepts1 X) _ _ Hin R1) as N1.
  pose proof (rejected_not_accepted (accepts2 X) _ _ Hin R2) as N2.
  assert (forall p f args u, forallb is_diagnostic u = true ->
            forallb is_diagnostic (logged p f args ++ u) = true) as LD.
  { intros p f args u Hu. rewrite forallb_app, logged_diagnostic, Hu. reflexivity. }
  split; intros z evs st' E.
  - destruct (Variant1Facts.main_run1 X B inv st st' z evs E)
      as [(pre & o' & post & Eo & Fp & Ro & Wd & R)|[(Acc & _)|(Acc & _)]];
      try congruence.
    split; [exact Wd|].
    assert (forallb is_diagnostic (Variant1.usage_text inv) = true) as U
      by apply usage_text_diagnostic1.
    split; [|split].
    + destruct o'; destruct R as [_ ->]; try reflexivity.
      apply diagnostics_output, LD, U.
    + destruct o'; try discriminate Ro; destruct R as [-> ->].
      * right. repeat split; eauto.
      * left. split; [reflexivity|]. unfold rejects. cbn [fst snd].
        split; [lia|split; [eexists; reflexivity|apply LD, U]].
      * left. split; [reflexivity|]. unfold rejects. cbn [fst snd].
        split; [lia|split; [exists []; reflexivity|exact U]].
    + intros pre2 post2 E2 F2.
      rewrite Eo in E2.
      destruct (first_rejected_unique _ _ _ _ _ _ _ E2 Fp Ro F2 R1) as (_ & -> & _).
      exact R.
  - destruct (Variant2Facts.main_run2 X B inv st st' z evs E)
      as [(pre & o' & post & Eo & Fp & Ro & Wd & R)|[(Acc & _)|(Acc & _)]];
      try congruence.
    split; [exact Wd|].
    assert (forallb is_diagnostic (Variant2.usage_text inv) = true) as U
      by apply usage_text_diagnostic2.
    split; [|split].
    + destruct o'; destruct R as [_ ->]; try reflexivity;
        apply diagnostics_output, LD, U.
    + destruct o'; try discriminate Ro; destruct R as [-> ->].
      * right. repeat split; eauto.
      * left. split; [reflexivity|]. unfold rejects. cbn [fst snd].
        split; [lia|split; [eexists; reflexivity|apply LD, U]].
      * left. split; [reflexivity|]. unfold rejects. cbn [fst snd].
        split; [lia|split; [eexists; reflexivity|apply LD, U]].
      * left. split; [reflexivity|]. unfold rejects. cbn [fst snd].
        split; [lia|split; [exists []; reflexivity|exact U]].
    + intros pre2 post2 E2 F2.
      rewrite Eo in E2.
      destruct (first_rejected_unique _ _ _ _ _ _ _ E2 Fp Ro F2 R2) as (_ & -> & _).
      exact R.
Qed.

Lemma two_stage_succeeded (loader firmware : string) (config z : Z)
    (ps : list event) :
  two_stage loader firmware config z ps ->
  (z = 0 <-> List.length ps = 2%nat /\ Forall (fun e => returned e = 0) ps).
Proof.
  intros [device fx s Hs ->|device fx ty s Hc ->|device fx s Hc ->]; cbn [List.length].
  - split; [contradiction|]. intros [L _]. discriminate.
  - split.
    + intros ->. split; [reflexivity|]. repeat constructor.
    + intros [_ F]. inversion F as [|? ? _ F']. inversion F' as [|? ? R _]. exact R.
  - split.
    + intros ->. split; [reflexivity|]. repeat constructor.
    + intros [_ F]. inversion F as [|? ? _ F']. inversion F' as [|? ? R _]. exact R.
Qed.

Lemma no_stdout_not_version (evs : list event) (v : string) :
  forallb (fun e => negb (writes_stdout e)) evs = true -> evs <> [Puts v].
Proof. intros H ->. discriminate. Qed.

Lemma no_stdout_In (evs : list event) (e : event) :
  forallb (fun e => negb (writes_stdout e)) evs = true ->
  In e evs -> writes_stdout e = true -> False.
Proof.
  rewrite forallb_forall. intros H Hin Wr. specialize (H e Hin).
  rewrite Wr in H. discriminate.
Qed.

(** C9 (amended). [main] returns 0 exactly when it has printed its
    version (a [-V] option reached in the option loop) or the download
    passes that the invocation requests (two with a loader, one without)
    have all taken place and returned 0; it returns non-zero in every
    other case.  A run that returns non-zero writes nothing to standard
    output, and the only thing that a run ever writes there is the
    version. *)
Theorem exit_status_reports_outcome (inv : invocation) (st : state W) :
  (let '((z, evs), _) := Variant1.main X B inv st in
   (z = 0 <-> evs = [Puts (FXLOAD_VERSION B)] \/ passes_succeeded inv evs) /\
   (z <> 0 -> forallb (fun e => negb (writes_stdout e)) evs = true) /\
   (forall e, In e evs -> writes_stdout e = true ->
              e = Puts (FXLOAD_VERSION B) /\ z = 0)) /\
  (let '((z, evs), _) := Variant2.main X B inv st in
   (z = 0 <-> evs = [Puts (FXLOAD_VERSION B)] \/ passes_succeeded inv evs) /\
   (z <> 0 -> forallb (fun e => negb (writes_stdout e)) evs = true) /\
   (forall e, In e evs -> writes_stdout e = true ->
              e = Puts (FXLOAD_VERSION B) /\ z = 0)).
Proof.
  assert (forall z evs,
    (* what the three ways of ending have in common *)
    ((z = 0 /\ evs = [Puts (FXLOAD_VERSION B)]) \/
     (z = -1 /\ forallb no_pass_no_stdout evs = true) \/
     (forallb (fun e => negb (writes_stdout e)) evs = true /\
      exists firmware,
        match supplied_loader inv with
        | Some loader =>
            two_stage loader firmware (supplied_config X inv) z (passes evs)
        | None => exists device fx, passes evs = [EzusbLoadRam device firmware fx 0 z]
        end)) ->
    (z = 0 <-> evs = [Puts (FXLOAD_VERSION B)] \/ passes_succeeded inv evs) /\
    (z <> 0 -> forallb (fun e => negb (writes_stdout e)) evs = true) /\
    (forall e, In e evs -> writes_stdout e = true ->
               e = Puts (FXLOAD_VERSION B) /\ z = 0)) as Common.
  { intros z evs [(-> & ->)|[(-> & Q)|(N & f & S)]].
    - split; [|split].
      + split; auto.
      + intros H. contradiction.
      + intros e [<-|[]] _. auto.
    - pose proof (quiet_no_stdout _ Q) as N.
      split; [|split].
      + split; [discriminate|].
        intros [->|[L _]]; [discriminate|].
        rewrite (passes_quiet _ Q) in L. destruct (supplied_loader inv); discriminate.
      + intros _. exact N.
      + intros e Hin Wr. exfalso. eapply no_stdout_In; eauto.
    - unfold passes_succeeded.
      split; [|split].
      + split.
        * intros ->. right. destruct (supplied_loader inv) as [loader|].
          -- apply (two_stage_succeeded _ _ _ _ _ S). reflexivity.
          -- destruct S as (d & fx & ->). split; [reflexivity|]. repeat constructor.
        * intros [E|[L F]]; [exfalso; eapply no_stdout_not_version; eauto|].
          destruct (supplied_loader inv) as [loader|].
          -- apply (two_stage_succeeded _ _ _ _ _ S). auto.
          -- destruct S as (d & fx & P). rewrite P in F.
             inversion F as [|? ? R _]. exact R.
      + intros _. exact N.
      + intros e Hin Wr. exfalso. eapply no_stdout_In; eauto. }
  split.
  - destruct (Variant1.main X B inv st) as [[z evs] st'] eqn:E.
    apply Common.
    destruct (Variant1Facts.main_run1 X B inv st st' z evs E)
      as [(pre & o' & post & _ & _ & _ & _ & R)|[(_ & Z & Q)|(_ & N & f & _ & S)]].
    + destruct o'; destruct R as [-> ->]; auto; right; left; split; auto.
      apply diagnostics_quiet. rewrite forallb_app, logged_diagnostic. reflexivity.
    + auto.
    + right. right. eauto.
  - destruct (Variant2.main X B inv st) as [[z evs] st'] eqn:E.
    apply Common.
    destruct (Variant2Facts.main_run2 X B inv st st' z evs E)
      as [(pre & o' & post & _ & _ & _ & _ & R)|[(_ & Z & Q)|(_ & N & _ & f & _ & S)]].
    + destruct o'; destruct R as [-> ->]; auto; right; left; split; auto;
        apply diagnostics_quiet; rewrite forallb_app, logged_diagnostic; reflexivity.
    + auto.
    + right. right. eauto.
Qed.

Lemma accepted_loop_continues2 (inv : invocation) (st : state W) :
  forallb (accepts2 X) (opts inv) = true ->
  exists l st1,
    Variant2.getopt_loop X B inv (opts inv) (Variant2.locals0 inv) st
    = ((Continue l, []), st1).
Proof.
  intros Acc.
  destruct (Variant2.getopt_loop X B inv (opts inv) (Variant2.locals0 inv) st)
    as [[[l|z] evs] st1] eqn:G.
  - destruct (Variant2Facts.getopt_loop_run2 X B inv _ _ _ _ _ _ G)
      as [_ (_ & -> & _)]. eauto.
  - destruct (Variant2Facts.getopt_loop_run2 X B inv _ _ _ _ _ _ G)
      as [_ (pre & o' & post & Eo & _ & Ro & _)].
    rewrite Eo, forallb_app in Acc. cbn [forallb] in Acc. rewrite Ro in Acc.
    rewrite andb_false_r in Acc. discriminate.
Qed.

(** Without [-t] and without [-c], the second [main] does what it does
    with [-t fx] added. *)
Lemma main_defaults_to_fx2 (inv : invocation) (st : state W) :
  (forall t, ~ In (Optt t) (opts inv)) ->
  (forall a, ~ In (Optc a) (opts inv)) ->
  Variant2.main X B inv st = Variant2.main X B (with_type inv "fx") st.
Proof.
  intros NoT NoC.
  unfold Variant2.main.
  assert (Variant2.main_body X B inv st
          = Variant2.main_body X B (with_type inv "fx") st) as ->; [|reflexivity].
  unfold Variant2.main_body.
  change (opts (with_type inv "fx")) with (opts inv ++ [Optt "fx"]).
  change (Variant2.locals0 (with_type inv "fx")) with (Variant2.locals0 inv).
  symmetry. etransitivity.
  { apply bind_ext
      with (m' := bind (Variant2.getopt_loop X B inv (opts inv) (Variant2.locals0 inv))
                       (fun l' => Variant2.getopt_loop X B inv [Optt "fx"] l')).
    - rewrite (Variant2Facts.getopt_loop_argv02 X B inv (with_type inv "fx"))
        by reflexivity.
      apply Variant2Facts.getopt_loop_app2.
    - intros l evs st1 _. reflexivity. }
  rewrite bind_assoc.
  apply bind_ext; [reflexivity|].
  intros l evs st1 G.
  destruct (Variant2Facts.getopt_loop_run2 X B inv _ _ _ _ _ _ G)
    as [_ (_ & -> & Ls & Li & Lt & Ld & Lc)].
  rewrite (last_arg_none arg_t) in Lt
    by (intros o Ho; destruct o; try reflexivity; exfalso; eapply NoT; eauto).
  rewrite (last_arg_none arg_c) in Lc
    by (intros o Ho; destruct o; try reflexivity; exfalso; eapply NoC; eauto).
  cbn [Variant2.locals0 Variant2.type Variant2.config] in Lt, Lc.
  change (Variant2.getopt_loop X B inv [Optt "fx"] l)
    with (@ret W _ {| Variant2.ihex_path := Variant2.ihex_path l;
                      Variant2.device_path := Variant2.device_path l;
                      Variant2.type := Some "fx";
                      Variant2.stage1 := Variant2.stage1 l;
                      Variant2.config := Variant2.config l |}).
  rewrite bind_ret_l.
  apply bind_ext.
  - unfold Variant2.prepare. apply bind_ext.
    + rewrite !Variant2Facts.check_options_no_config2 by (cbn; lia). reflexivity.
    + intros paths e s _. cbn [Variant2.type]. rewrite Lt. reflexivity.
  - intros p e s _. reflexivity.
Qed.

(** C10. In the second [main], an invocation without [-t] has the type
    fx, with [fx2] = 0: every download pass of the run is given it; when
    no config byte is supplied, the run is the run of the same invocation
    with [-t fx] added, so the missing type stops nothing, and the
    download takes place as soon as the options are accepted, the
    firmware is named, the vid:pid is read and libusb opens and claims
    the device; when a config byte is supplied (the option loop accepting
    every option), the missing type is an error: -1 after the diagnostic
    and the usage text, before any call to libusb. *)
Theorem missing_type_defaults_to_fx (inv : invocation) (st : state W) :
  (forall t, ~ In (Optt t) (opts inv)) ->
  Variant2.resolve_type None = ("fx", 0) /\
  Forall (pass_type "fx" 0) (snd (fst (Variant2.main X B inv st))) /\
  ((forall a, ~ In (Optc a) (opts inv)) ->
   Variant2.main X B inv st = Variant2.main X B (with_type inv "fx") st) /\
  (forall dpath firmware vid pid s0 device w1 w2 w3,
      forallb (accepts2 X) (opts inv) = true ->
      (forall a, ~ In (Optc a) (opts inv)) ->
      supplied_device inv = Some dpath ->
      supplied_firmware inv = Some firmware ->
      sscanf_vid_pid X dpath = (2, (vid, pid)) ->
      libusb_init X (world st) = (s0, w1) ->
      0 <= s0 ->
      libusb_open_device_with_vid_pid X (to_uint16 vid) (to_uint16 pid) w1
      = (device, w2) ->
      device <> NULL ->
      libusb_claim_interface X device 0 w2 = (LIBUSB_SUCCESS, w3) ->
      passes (snd (fst (Variant2.main X B inv st))) <> []) /\
  (forallb (accepts2 X) (opts inv) = true ->
   (exists a, In (Optc a) (opts inv)) ->
   Variant2.main X B inv st
   = ((-1,
       logged (target B) "must specify microcontroller type %s"
         [AStr ("to write EEPROM!" ++ nl)] ++ Variant2.usage_text inv),
      {| world := world st;
         verbose := verbose (snd (Variant2.main X B inv st)) |})).
Proof.
  intros NoT.
  assert (last_arg arg_t (opts inv) None = None) as Lt0.
  { apply last_arg_none. intros o Ho. destruct o; try reflexivity.
    exfalso. eapply NoT; eauto. }
  split; [reflexivity|]. split; [|split; [|split]].
  - destruct (Variant2.main X B inv st) as [[z evs] st'] eqn:E. cbn [fst snd].
    destruct (Variant2Facts.main_run2 X B inv st st' z evs E)
      as [(pre & o' & post & _ & _ & _ & _ & R)|[(_ & _ & Q)|(_ & _ & T & _)]].
    + destruct o'; destruct R as [_ ->]; try (repeat constructor; fail);
        apply Forall_app; (split; [|repeat constructor]);
        unfold logged; destruct (defined_WIN32 (target B)); repeat constructor.
    + apply quiet_pass_type, Q.
    + rewrite Lt0 in T. exact T.
  - apply main_defaults_to_fx2, NoT.
  - intros dpath firmware vid pid s0 device w1 w2 w3 Acc NoC Dp Fp Sc In0 S0 Op Dn Cl.
    destruct (accepted_loop_continues2 inv st Acc) as (l & st1 & G).
    destruct (Variant2Facts.getopt_loop_run2 X B inv _ _ _ _ _ _ G)
      as [Wd (_ & _ & _ & Li & _ & Ld & Lc)].
    cbn [Variant2.locals0 Variant2.ihex_path Variant2.device_path
           Variant2.config] in Li, Ld, Lc.
    rewrite (last_arg_none arg_c) in Lc
      by (intros o Ho; destruct o; try reflexivity; exfalso; eapply NoC; eauto).
    fold (supplied_device inv) in Ld. fold (supplied_firmware inv) in Li.
    rewrite <- Wd in In0.
    destruct (Variant2Facts.prepare_succeeds2 X B inv l st1 dpath firmware
                vid pid s0 device w1 w2 w3 ltac:(lia) ltac:(congruence)
                ltac:(congruence) Sc In0 S0 Op Dn Cl)
      as (ep & P & Qp).
    destruct (Variant2Facts.download_run2 X B device l
                (fst (Variant2.resolve_type (Variant2.type l)))
                (snd (Variant2.resolve_type (Variant2.type l))) firmware
                {| world := w3; verbose := verbose st1 |})
      as (s & edl & sdl & D & _ & _ & Shape).
    assert (passes edl <> []) as NE.
    { destruct (Variant2.stage1 l).
      - destruct Shape; discriminate.
      - rewrite Shape. discriminate. }
    unfold Variant2.main, Variant2.main_body.
    rewrite (bind_Continue _ _ _ _ _ _ G), (bind_Continue _ _ _ _ _ _ P).
    cbn [fst snd]. rewrite (bind_Continue _ _ _ _ _ _ D).
    rewrite Variant2Facts.out_run2. cbn [fst snd app].
    rewrite !passes_app, (passes_quiet _ Qp). cbn [app].
    intros E. apply app_eq_nil in E. destruct E as [E _]. contradiction.
  - intros Acc [a Ha].
    destruct (accepted_loop_continues2 inv st Acc) as (l & st1 & G).
    destruct (Variant2Facts.getopt_loop_run2 X B inv _ _ _ _ _ _ G)
      as [Wd (_ & _ & _ & _ & Lt & _ & Lc)].
    cbn [Variant2.locals0 Variant2.type Variant2.config] in Lt, Lc.
    rewrite Lt0 in Lt.
    destruct (last_arg_some arg_c (opts inv) (Optc a) a None Ha eq_refl) as [a' La].
    rewrite La in Lc.
    destruct (last_arg_In _ _ _ La) as (o & Ho & Fo).
    destruct o; try discriminate. injection Fo as ->.
    rewrite forallb_forall in Acc. specialize (Acc _ Ho). cbn [accepts2] in Acc.
    unfold config_in_range in Acc. apply negb_true_iff in Acc.
    apply orb_false_iff in Acc. destruct Acc as [A1 A2].
    apply Z.ltb_ge in A1.
    assert (Variant2.main X B inv st
            = ((-1,
                logged (target B) "must specify microcontroller type %s"
                  [AStr ("to write EEPROM!" ++ nl)] ++ Variant2.usage_text inv),
               st1)) as R.
    { unfold Variant2.main, Variant2.main_body.
      rewrite (bind_Continue _ _ _ _ _ _ G).
      unfold Variant2.prepare.
      rewrite (bind_Return _ _ _ _ _ _
                 (bind_Return _ _ _ _ _ _
                    (Variant2Facts.check_options_missing_type2 B inv l st1
                       ltac:(lia) Lt))).
      reflexivity. }
    rewrite R. cbn [snd]. f_equal. destruct st1 as [w1 v1]. cbn in *.
    congruence.
Qed.

(** C1 (amended). The device loop of the first [main] takes the first
    consistent match, in the order of the enumeration and then of the
    table, whether or not other matches exist: [dev] is its device and the
    missing values are derived from it; with no consistent match, [dev]
    is null.  In particular, when all the consistent matches derive the
    same values, these are the values derived.  Opening the device then
    opens the device of the first match; when there is none, it frees the
    list and ends in the usage text and -1, nothing opened. *)
Theorem first_consistent_match_is_taken (inv : invocation) (devs : list Z)
    (l : Variant1.locals) (t : Variant1.target_vars) (st st' : state W)
    (o : outcome Variant1.target_vars) (evs : list event) :
  Variant1.scan_devices X B devs l t st = ((o, evs), st') ->
  exists t',
    o = Continue t' /\
    match candidates (known_device B) (descriptors X devs (world st))
            (Variant1.is_null (Variant1.type l))
            (Variant1.is_null (Variant1.device_id l))
            (Variant1.fx_type t) (Variant1.vid t) (Variant1.pid t) with
    | [] => Variant1.dev t' = NULL
    | c :: _ =>
        Variant1.dev t' = fst c /\ fst c <> NULL /\
        (Variant1.fx_type t', (Variant1.vid t', Variant1.pid t')) = snd c
    end /\
    (forall v,
        candidates (known_device B) (descriptors X devs (world st))
          (Variant1.is_null (Variant1.type l))
          (Variant1.is_null (Variant1.device_id l))
          (Variant1.fx_type t) (Variant1.vid t) (Variant1.pid t) <> [] ->
        (forall c,
            In c (candidates (known_device B) (descriptors X devs (world st))
                    (Variant1.is_null (Variant1.type l))
                    (Variant1.is_null (Variant1.device_id l))
                    (Variant1.fx_type t) (Variant1.vid t) (Variant1.pid t)) ->
            snd c = v) ->
        (Variant1.fx_type t', (Variant1.vid t', Variant1.pid t')) = v) /\
    (forall st2,
        if Variant1.dev t' =? NULL then
          fst (Variant1.open_found X B inv t' st2)
          = (Return (-1),
             LibusbFreeDeviceList
             :: logged (target B)
                  ("could not find a known device - please specify type and/or vid:pid"
                   ++ nl) []
             ++ Variant1.usage_text inv)
        else
          exists rest,
            snd (fst (Variant1.open_found X B inv t' st2))
            = LibusbOpen (Variant1.dev t') :: rest).
Proof.
  intros E.
  destruct (Variant1Facts.scan_devices_first X B devs l t st st' o evs E)
    as (t' & -> & R).
  exists t'. split; [reflexivity|]. split; [|split].
  - destruct (candidates _ _ _ _ _ _ _) as [|c cs]; tauto.
  - intros v NE All.
    destruct (candidates _ _ _ _ _ _ _) as [|c cs]; [contradiction|].
    destruct R as (_ & _ & ->). apply All. left. reflexivity.
  - intros st2. unfold Variant1.open_found.
    destruct (Variant1.dev t' =? NULL).
    + unfold bind, emit. rewrite logerror_run, Variant1Facts.usage_run1. reflexivity.
    + unfold bind, call, call_with.
      destruct (libusb_open X (Variant1.dev t') (world st2)) as [[s d] w].
      destruct (s <? 0).
      * rewrite logerror_run. cbn. eauto.
      * cbn. eauto.
Qed.

End Claims.

(** * The theorems at work on the bench *)

Section OnTheBench.

Import Bench.

(** C1: with the type alone supplied and two devices of that type on the
    bus, under different vid:pid, the matches are ambiguous, and yet the
    first [main] opens the first device, loads the firmware and returns
    0: no failure is reported. *)
Lemma ambiguous_match_is_resolved_by_first :
  ambiguous (candidates (known_device (B Linux)) (descriptors X [1; 2] [])
               false true 0 0 0) /\
  fst (Variant1.main X (B Linux) type_only (start []))
  = (0, [LibusbInit; LibusbSetDebug 0; LibusbGetDeviceList;
         LibusbGetDeviceDescriptor 1; LibusbOpen 1; LibusbFreeDeviceList;
         LibusbClaimInterface 101 0; EzusbLoadRam 101 "fw.hex" 0 0 0;
         LibusbReleaseInterface 101 0; LibusbClose 101; LibusbExit]) /\
  ~ identification_fails (fst (Variant1.main X (B Linux) type_only (start []))).
Proof.
  split; [|split].
  - exists (1, (0, (1351, 8497))), (2, (0, (1351, 8757))).
    split; [left; reflexivity|]. split; [right; left; reflexivity|].
    cbn. discriminate.
  - reflexivity.
  - intros [H _]. apply H. reflexivity.
Qed.

Lemma first_consistent_match_witness :
  Variant1.scan_devices X (B Linux) [1; 2] type_only_locals type_only_target (start [])
  = ((Continue {| Variant1.dev := 1; Variant1.status := 0; Variant1.fx_type := 0;
                  Variant1.vid := 1351; Variant1.pid := 8497 |},
      [LibusbGetDeviceDescriptor 1]), start []) /\
  exists t',
    Continue {| Variant1.dev := 1; Variant1.status := 0; Variant1.fx_type := 0;
                Variant1.vid := 1351; Variant1.pid := 8497 |} = Continue t' /\
    Variant1.dev t' = 1.
Proof.
  split; [reflexivity|].
  destruct (first_consistent_match_is_taken X (B Linux) type_only [1; 2]
              type_only_locals type_only_target (start []) (start []) _ _ eq_refl)
    as (t' & E & M & _).
  exists t'. split; [exact E|]. exact (proj1 M).
Defined.

Lemma eeprom_unsupported_witness :
  Engine.dest (plan130 Engine.Eeprom) = Engine.Eeprom /\
  Engine.supportsEeprom (Engine.profile target64) = false /\
  Engine.fault (Engine.run_pass scripted target64 (plan130 Engine.Eeprom) [Some 7])
  = Some Engine.UnsupportedOperation /\
  Engine.log (Engine.run_pass scripted target64 (plan130 Engine.Eeprom) [Some 7]) = [] /\
  Engine.link (Engine.run_pass scripted target64 (plan130 Engine.Eeprom) [Some 7])
  = [Some 7].
Proof.
  split; [reflexivity|]. split; [reflexivity|].
  destruct (EngineFacts.eeprom_unsupported_no_transfer scripted target64
              (plan130 Engine.Eeprom) [Some 7] eq_refl eq_refl)
    as (F & L & K & _).
  auto.
Defined.

Lemma failed_transfer_witness :
  In (Engine.failed_chunk second_chunk 7)
     (Engine.log (Engine.run_pass scripted target64 (plan130 Engine.Ram)
                    second_chunk_fails)) /\
  Engine.phase (Engine.run_pass scripted target64 (plan130 Engine.Ram)
                  second_chunk_fails) = Engine.Failed /\
  Engine.fault (Engine.run_pass scripted target64 (plan130 Engine.Ram)
                  second_chunk_fails) = Some (Engine.TransportError 7) /\
  List.length (Engine.issued_for Engine.ResetRelease
                 (Engine.log (Engine.run_pass scripted target64 (plan130 Engine.Ram)
                                second_chunk_fails))) = 1%nat.
Proof.
  assert (In (Engine.failed_chunk second_chunk 7)
            (Engine.log (Engine.run_pass scripted target64 (plan130 Engine.Ram)
                           second_chunk_fails))) as H
    by (right; right; left; reflexivity).
  split; [exact H|].
  destruct (EngineFacts.failed_transfer_releases_reset scripted target64
              (plan130 Engine.Ram) second_chunk_fails second_chunk 7 H)
    as (P & F & L & _).
  auto.
Defined.

Lemma chunks_witness :
  Engine.chunkSize profile64 = 64%nat /\
  List.length (Engine.bytes segment130) = 130%nat /\
  map (fun c => (fst c, List.length (snd c)))
      (Engine.chunks (Engine.chunkSize profile64) segment130)
  = [(4096, 64%nat); (4160, 64%nat); (4224, 2%nat)].
Proof.
  split; [reflexivity|]. split; [reflexivity|].
  exact (proj1 (proj2 (proj2 (proj2 (proj2
           (EngineFacts.chunks_in_address_order segment130 profile64)))))
         eq_refl eq_refl).
Defined.

Lemma checksum_witness :
  Engine.parse_record data_line = Engine.Ok data_record /\
  Engine.checksumValid data_record = true /\
  exists preceding stored trailing,
    Engine.line_bytes data_line = Some (preceding ++ stored :: trailing) /\
    stored = Engine.checksum_of preceding.
Proof.
  split; [reflexivity|].
  destruct (EngineFacts.checksum_decides_acceptance data_line data_record eq_refl)
    as (V & preceding & stored & trailing & L & _ & S & _).
  split; [exact V|]. exists preceding, stored, trailing. auto.
Defined.

Lemma image_without_eof_witness :
  (forall line, In line [data_line; data_line] -> Engine.is_eof_line line = false) /\
  Engine.load_image [data_line; data_line] = Engine.Err Engine.TruncatedImage.
Proof.
  assert (forall line, In line [data_line; data_line] ->
                       Engine.is_eof_line line = false) as H
    by (intros line [<-|[<-|[]]]; reflexivity).
  split; [exact H|].
  exact (proj1 (proj2 (EngineFacts.image_without_eof_is_truncated
                         [data_line; data_line] H)) eq_refl).
Defined.

(** C8: a [-V] before a config byte of 999: the version, and 0. *)
Lemma version_before_bad_config_byte :
  In (Optc "999") (opts version_then_bad_config) /\
  config_in_range X "999" = false /\
  fst (Variant1.main X (B Linux) version_then_bad_config (start []))
  = (0, [Puts "(development)"]) /\
  ~ rejects (Variant1.usage_text version_then_bad_config)
      (fst (Variant1.main X (B Linux) version_then_bad_config (start []))) /\
  ~ rejects (Variant2.usage_text version_then_bad_config)
      (fst (Variant2.main X (B Linux) version_then_bad_config (start []))).
Proof.
  split; [right; left; reflexivity|]. split; [reflexivity|]. split; [reflexivity|].
  split; intros [H _]; apply H; reflexivity.
Qed.

(** A config byte argument beyond the range of [int]: where [unsigned
    long] has 64 bits, [strtoul] returns 4294967296, [config] is 0, and the
    firmware is written to the EEPROM with the config byte 0. *)
Example config_byte_beyond_int :
  config_in_range X "4294967296" = true /\
  passes (snd (fst (Variant1.main X (B Linux)
                      (invoke [Optc "4294967296"; Optt "fx"; Opts "loader.hex";
                               OptI "fw.hex"] (Some "0547:2131"))
                      (start []))))
  = [EzusbLoadRam 100 "loader.hex" 1 0 0;
     EzusbLoadEeprom 100 "fw.hex" (AInt 1) 0 0].
Proof. split; reflexivity. Qed.

(** C8: a config byte of 999 on Linux and on Windows: -1 and the usage
    text, on Windows after the line of [logerror]. *)
Lemma bad_config_byte_witness :
  In (Optc "999") (opts bad_config) /\
  config_in_range X "999" = false /\
  (fst (fst (Variant1.main X (B Linux) bad_config (start []))) = -1 /\
   snd (fst (Variant1.main X (B Linux) bad_config (start [])))
   = logged Linux ("illegal config byte: %s" ++ nl) [AStr "999"]
     ++ Variant1.usage_text bad_config) /\
  (fst (fst (Variant2.main X (B Windows) bad_config (start []))) = -1 /\
   snd (fst (Variant2.main X (B Windows) bad_config (start [])))
   = logged Windows ("illegal config byte: %s" ++ nl) [AStr "999"]
     ++ Variant2.usage_text bad_config).
Proof.
  assert (In (Optc "999") (opts bad_config)) as H by (right; left; reflexivity).
  split; [exact H|]. split; [reflexivity|]. split.
  - destruct (proj1 (bad_config_byte_is_rejected X (B Linux) bad_config (start [])
                       "999" H eq_refl) _ _ _ eq_refl)
      as (_ & _ & _ & R).
    exact (R [Optt "fx"] [OptI "fw.hex"] eq_refl eq_refl).
  - destruct (proj2 (bad_config_byte_is_rejected X (B Windows) bad_config (start [])
                       "999" H eq_refl) _ _ _ eq_refl)
      as (_ & _ & _ & R).
    exact (R [Optt "fx"] [OptI "fw.hex"] eq_refl eq_refl).
Defined.

(** On Linux the run above writes the usage text and nothing else. *)
Example bad_config_byte_on_linux :
  Variant1.main X (B Linux) bad_config (start [])
  = ((-1, Variant1.usage_text bad_config), start []).
Proof. reflexivity. Qed.

(** C9: a [-V] before the firmware: 0 is returned and no pass has taken
    place. *)
Lemma version_exit_without_download :
  fst (Variant1.main X (B Linux) version_then_firmware (start []))
  = (0, [Puts "(development)"]) /\
  ~ (fst (fst (Variant1.main X (B Linux) version_then_firmware (start []))) = 0 <->
     passes_succeeded version_then_firmware
       (snd (fst (Variant1.main X (B Linux) version_then_firmware (start []))))).
Proof.
  split; [reflexivity|].
  intros [H _]. destruct (H eq_refl) as [L _]. discriminate L.
Qed.

Lemma exit_status_witness :
  fst (fst (Variant2.main X (B Linux) two_stage_ram (start [5]))) <> 0 /\
  forallb (fun e => negb (writes_stdout e))
    (snd (fst (Variant2.main X (B Linux) two_stage_ram (start [5])))) = true.
Proof.
  assert (fst (fst (Variant2.main X (B Linux) two_stage_ram (start [5]))) <> 0) as H
    by (cbn; discriminate).
  split; [exact H|].
  exact (proj1 (proj2 (proj2 (exit_status_reports_outcome X (B Linux) two_stage_ram
                                (start [5])))) H).
Defined.

Lemma missing_type_witness :
  (forall t, ~ In (Optt t) (opts no_type)) /\
  fst (Variant2.main X (B Linux) no_type (start []))
  = (0, [LibusbInit; LibusbSetDebug 0; LibusbOpenDeviceWithVidPid 1351 8497;
         LibusbClaimInterface 100 0; EzusbLoadRam 100 "fw.hex" 0 0 0;
         LibusbReleaseInterface 100 0; LibusbClose 100; LibusbExit]) /\
  Forall (pass_type "fx" 0) (snd (fst (Variant2.main X (B Linux) no_type (start [])))) /\
  Variant2.main X (B Linux) no_type (start [])
  = Variant2.main X (B Linux) (with_type no_type "fx") (start []).
Proof.
  assert (forall t, ~ In (Optt t) (opts no_type)) as H
    by (intros t [E|[]]; discriminate E).
  split; [exact H|]. split; [reflexivity|].
  destruct (missing_type_defaults_to_fx X (B Linux) no_type (start []) H)
    as (_ & F & E & _ & _).
  split; [exact F|]. apply E. intros a [D|[]]. discriminate D.
Defined.

End OnTheBench.
(** * The runs of [main], event by event *)

Lemma messages_nil (p : platform) : messages p [].
Proof. split; reflexivity. Qed.

Lemma messages_logged (p : platform) (format : string) (args : list arg) :
  messages p (logged p format args).
Proof.
  unfold messages, logged. destruct (defined_WIN32 p); split; auto; discriminate.
Qed.

Lemma messages_when (p : platform) (b : bool) (format : string) (args : list arg) :
  messages p (if b then logged p format args else []).
Proof. destruct b; [apply messages_logged|apply messages_nil]. Qed.

Lemma messages_app (p : platform) (evs evs' : list event) :
  messages p evs -> messages p evs' -> messages p (evs ++ evs').
Proof.
  intros [F N] [F' N']. split.
  - rewrite forallb_app, F, F'. reflexivity.
  - intros H. rewrite (N H), (N' H). reflexivity.
Qed.


Lemma count_v_cons (o : getopt_result) (os : list getopt_result) :
  count_v (o :: os) = (if is_v o then 1 else 0) + count_v os.
Proof.
  unfold count_v. cbn [filter]. destruct (is_v o); cbn [List.length]; lia.
Qed.

Lemma logerror_messages {W : Type} (p : platform) (format : string)
    (args : list arg) (st : state W) :
  exists msgs,
    messages p msgs /\ logerror p format args st = ((Continue tt, msgs), st).
Proof. exists (logged p format args). split; [apply messages_logged|apply logerror_run]. Qed.

Lemma when_logerror_messages {W : Type} (b : bool) (p : platform) (format : string)
    (args : list arg) (st : state W) :
  exists msgs,
    messages p msgs /\ when b (logerror p format args) st = ((Continue tt, msgs), st).
Proof.
  exists (if b then logged p format args else []).
  split; [apply messages_when|apply when_logerror_run].
Qed.

(** Splits the tests and the calls of a piece of [main] that has been
    unfolded; what [logerror] writes is kept as a list of messages. *)
Ltac crunch :=
  repeat match goal with
    | |- context [when ?b (logerror ?p ?f ?a) ?s] =>
        let m := fresh "msgs" in
        let H := fresh "Hmsgs" in
        destruct (when_logerror_messages b p f a s) as (m & H & ->)
    | |- context [logerror ?p ?f ?a ?s] =>
        let m := fresh "msgs" in
        let H := fresh "Hmsgs" in
        destruct (logerror_messages p f a s) as (m & H & ->)
    | |- context [match ?x with _ => _ end] =>
        lazymatch x with
        | context [match _ with _ => _ end] => fail
        | _ => destruct x eqn:?
        end
    end;
  cbn [fst snd world verbose app].

(** Tests of the program, as propositions. *)
Ltac tests :=
  repeat match goal with
    | H : (_ <? _) = true |- _ => apply Z.ltb_lt in H
    | H : (_ <? _) = false |- _ => apply Z.ltb_ge in H
    | H : (_ =? _) = true |- _ => apply Z.eqb_eq in H
    | H : (_ =? _) = false |- _ => apply Z.eqb_neq in H
    | H : (_ >=? _) = true |- _ => apply Z.geb_le in H
    | H : (_ >=? _) = false |- _ => rewrite Z.geb_leb in H; apply Z.leb_gt in H
    | H : negb _ = true |- _ => apply negb_true_iff in H
    | H : negb _ = false |- _ => apply negb_false_iff in H
    | H : _ && _ = true |- _ => apply andb_true_iff in H; destruct H
    end.

(** The results of the calls that have been split, put back. *)
Ltac results :=
  cbn [fst snd world verbose] in *;
  repeat match goal with
    | H : ?f = (_, _) |- context [?f] => rewrite H
    end;
  cbn [fst snd].

Lemma defined_linux_true (p : platform) : defined_linux p = true -> p = Linux.
Proof. destruct p; [discriminate|reflexivity|discriminate]. Qed.

(** Lists of events, up to the grouping of their concatenation. *)
Ltac same_events :=
  cbn [app]; rewrite ?app_nil_r; rewrite <- ?app_assoc; cbn [app];
  rewrite ?app_nil_r; reflexivity.

(** A sequence that ends in a [return]: by its first piece, or by what
    follows it. *)
Lemma bind_ends_Return {W A C : Type} (m : M W A) (k : A -> M W C)
    (st st1 : state W) (z : Z) (evs : list event) (P : Z -> list event -> Prop) :
  m st = ((Return z, evs), st1) -> P z evs ->
  exists z' evs' st', bind m k st = ((Return z', evs'), st') /\ P z' evs'.
Proof. intros E H. exists z, evs, st1. split; [apply bind_Return, E|exact H]. Qed.

Lemma bind_ends_Continue {W A C : Type} (m : M W A) (k : A -> M W C)
    (st st1 : state W) (a : A) (evs : list event) (P : Z -> list event -> Prop) :
  m st = ((Continue a, evs), st1) ->
  (exists z' evs' st', k a st1 = ((Return z', evs'), st') /\ P z' (evs ++ evs')) ->
  exists z' evs' st', bind m k st = ((Return z', evs'), st') /\ P z' evs'.
Proof.
  intros E (z' & evs' & st' & K & H). exists z', (evs ++ evs'), st'.
  split; [|exact H]. rewrite (bind_Continue _ _ _ _ _ _ E), K. reflexivity.
Qed.

Lemma bind_goes_Continue {W A C : Type} (m : M W A) (k : A -> M W C)
    (st st1 : state W) (a : A) (evs : list event) (P : C -> list event -> Prop) :
  m st = ((Continue a, evs), st1) ->
  (exists c evs' st', k a st1 = ((Continue c, evs'), st') /\ P c (evs ++ evs')) ->
  exists c evs' st', bind m k st = ((Continue c, evs'), st') /\ P c evs'.
Proof.
  intros E (c & evs' & st' & K & H). exists c, (evs ++ evs'), st'.
  split; [|exact H]. rewrite (bind_Continue _ _ _ _ _ _ E), K. reflexivity.
Qed.

Lemma bind_then {W A C : Type} (m : M W A) (k : A -> M W C)
    (st st1 : state W) (a : A) (evs : list event)
    (P : outcome C -> list event -> Prop) :
  m st = ((Continue a, evs), st1) ->
  (exists o evs' st', k a st1 = ((o, evs'), st') /\ P o (evs ++ evs')) ->
  exists o evs' st', bind m k st = ((o, evs'), st') /\ P o evs'.
Proof.
  intros E (o & evs' & st' & K & H). exists o, (evs ++ evs'), st'.
  split; [|exact H]. rewrite (bind_Continue _ _ _ _ _ _ E), K. reflexivity.
Qed.

Lemma call_run {W A : Type} (e : event) (f : W -> A * W) (st : state W) :
  call e f st
  = ((Continue (fst (f (world st))), [e]),
     {| world := snd (f (world st)); verbose := verbose st |}).
Proof. unfold call, call_with. destruct (f (world st)). reflexivity. Qed.

(** One step along a sequence, [E] being the run of its first piece. *)
Ltac goes_on E :=
  cbv beta; rewrite ?bind_assoc;
  first [eapply bind_ends_Continue|eapply bind_goes_Continue|eapply bind_then];
  [exact E|]; cbv beta.

(** A step over [ret], [emit] or [get_verbose]. *)
Ltac simply_goes_on :=
  cbv beta; rewrite ?bind_assoc;
  first [eapply bind_ends_Continue|eapply bind_goes_Continue|eapply bind_then];
  [reflexivity|]; cbv beta.

(** A step over a call of [logerror]: it leaves messages. *)
Ltac says msgs Hm :=
  cbv beta; rewrite ?bind_assoc;
  match goal with
  | |- context [bind (when ?b (logerror ?p ?f ?a)) _ ?s] =>
      let Em := fresh "Em" in
      destruct (when_logerror_messages b p f a s) as (msgs & Hm & Em);
      goes_on Em
  | |- context [bind (logerror ?p ?f ?a) _ ?s] =>
      let Em := fresh "Em" in
      destruct (logerror_messages p f a s) as (msgs & Hm & Em);
      goes_on Em
  end.

Ltac returns E :=
  cbv beta; rewrite ?bind_assoc; eapply bind_ends_Return; [exact E|]; cbv beta.

Module Run2Facts.

Import Variant2 Variant2Facts.

Section Facts.

Context {W : Type}.
Variable X : Externals W.
Variable B : Build.

Lemma getopt_loop_verbose2 (inv : invocation) (os : list getopt_result) :
  forall (l l' : locals) (st st' : state W) evs,
    getopt_loop X B inv os l st = ((Continue l', evs), st') ->
    verbose st' = verbose st + count_v os.
Proof.
  induction os as [|o os IH]; intros l l' st st' evs E.
  - cbn in E. injection E as <- <- <-. cbn. lia.
  - rewrite count_v_cons.
    destruct o as [a|a| |a|a|a| | ]; cbn [getopt_loop is_v] in *;
      try (rewrite (IH _ _ _ _ _ E); lia).
    + discriminate E.
    + destruct ((to_int (strtoul X a) <? 0) || (to_int (strtoul X a) >? 255)).
      * unfold bind in E. rewrite logerror_run, usage_run2 in E. discriminate E.
      * rewrite (IH _ _ _ _ _ E). lia.
    + destruct (strcmp_ne a "an21" && strcmp_ne a "fx" && strcmp_ne a "fx2"
                && strcmp_ne a "fx2lp").
      * unfold bind in E. rewrite logerror_run, usage_run2 in E. discriminate E.
      * rewrite (IH _ _ _ _ _ E). lia.
    + cbn in E.
      destruct (getopt_loop X B inv os l
                  {| world := world st; verbose := verbose st + 1 |})
        as [[o2 evs2] st2] eqn:E2.
      injection E as -> <- <-. rewrite (IH _ _ _ _ _ E2). cbn [verbose]. lia.
    + rewrite usage_run2 in E. discriminate E.
Qed.

(** The download: its events and the status that it leaves. *)
Lemma download_cases2 (d : Z) (l : locals) (ty : string) (fx : Z) (ihex : string)
    (st : state W) :
  exists s evs st',
    download X B d l ty fx ihex st = ((Continue s, evs), st') /\
    downloaded (target B) d (stage1 l) ihex fx (AStr ty) (config l) s evs.
Proof.
  unfold download. destruct (stage1 l) as [loader|].
  - unfold bind, call_with, get_verbose, ret. crunch.
    + eexists _, _, _. split; [reflexivity|].
      eapply (loader_failed _ _ _ _ _ _ _ loader); [reflexivity|eassumption|].
      tests. assumption.
    + tests. subst.
      eexists _, _, _. split; [reflexivity|].
      eapply (eeprom_written _ _ _ _ _ _ _ loader); [reflexivity|eassumption|].
      assumption.
    + tests. subst.
      eexists _, _, _. split; [reflexivity|].
      eapply (ram_loaded _ _ _ _ _ _ _ loader); [reflexivity|eassumption|].
      assumption.
  - unfold bind, call_with, get_verbose, ret. crunch.
    eexists _, _, _. split; [reflexivity|].
    eapply single_stage; [reflexivity|eassumption].
Qed.

(** Opening the device and claiming its interface: the four ways in which
    it ends. *)
Lemma open_device_cases2 (vid pid : Z) (st : state W) :
  exists o evs st',
    open_device X B vid pid st = ((o, evs), st') /\
    verbose st' = verbose st /\
    let d := fst (libusb_open_device_with_vid_pid X (to_uint16 vid) (to_uint16 pid)
                    (snd (libusb_init X (world st)))) in
    ((init_status X (world st) < 0 /\ o = Return (-1) /\
      exists msgs, messages (target B) msgs /\ evs = LibusbInit :: msgs)
     \/
     (0 <= init_status X (world st) /\ d = NULL /\ o = Return (-1) /\
      exists msgs,
        messages (target B) msgs /\
        evs = LibusbInit :: LibusbSetDebug (verbose st)
              :: LibusbOpenDeviceWithVidPid (to_uint16 vid) (to_uint16 pid)
              :: msgs ++ [LibusbExit])
     \/
     (0 <= init_status X (world st) /\ d <> NULL /\ o = Return (-1) /\
      exists cs msgs,
        claimed (target B) d cs /\ messages (target B) msgs /\
        evs = LibusbInit :: LibusbSetDebug (verbose st)
              :: LibusbOpenDeviceWithVidPid (to_uint16 vid) (to_uint16 pid)
              :: cs ++ msgs ++ [LibusbExit])
     \/
     (0 <= init_status X (world st) /\ d <> NULL /\ o = Continue d /\
      exists cs,
        claimed (target B) d cs /\
        evs = LibusbInit :: LibusbSetDebug (verbose st)
              :: LibusbOpenDeviceWithVidPid (to_uint16 vid) (to_uint16 pid)
              :: cs)).
Proof.
  unfold open_device, init_status.
  unfold bind, call, call_with, emit, ret, return_, get_verbose. crunch.
  all: eexists _, _, _; split; [reflexivity|]; split; [reflexivity|].
  all: results; tests.
  - left. split; [assumption|]. split; [reflexivity|].
    exists msgs. split; [assumption|same_events].
  - right; left. split; [assumption|]. split; [assumption|]. split; [reflexivity|].
    exists msgs. split; [assumption|reflexivity].
  - right; right; left. split; [assumption|]. split; [assumption|].
    split; [reflexivity|].
    eexists _, msgs. split; [apply claimed_again, defined_linux_true; assumption|].
    split; [assumption|reflexivity].
  - right; right; right. subst. split; [assumption|]. split; [assumption|].
    split; [reflexivity|].
    eexists. split; [apply claimed_again, defined_linux_true; assumption|].
    reflexivity.
  - right; right; left. split; [assumption|]. split; [assumption|].
    split; [reflexivity|].
    eexists _, msgs. split; [apply claimed_once|].
    split; [assumption|reflexivity].
  - right; right; right. split; [assumption|]. split; [assumption|].
    split; [reflexivity|].
    eexists. split; [apply claimed_once|]. reflexivity.
Qed.

(** Whether the device is opened and claimed. *)
Lemma open_device_reaches2 (vid pid : Z) (st : state W) :
  (0 <=? init_status X (world st))
  && negb (fst (libusb_open_device_with_vid_pid X (to_uint16 vid) (to_uint16 pid)
                  (snd (libusb_init X (world st)))) =? NULL)
  && (claim_status X (target B)
        (fst (libusb_open_device_with_vid_pid X (to_uint16 vid) (to_uint16 pid)
                (snd (libusb_init X (world st)))))
        (snd (libusb_open_device_with_vid_pid X (to_uint16 vid) (to_uint16 pid)
                (snd (libusb_init X (world st)))))
      =? LIBUSB_SUCCESS)
  = match fst (fst (open_device X B vid pid st)) with
    | Continue _ => true
    | Return _ => false
    end.
Proof.
  unfold open_device, init_status, claim_status.
  unfold bind, call, call_with, emit, ret, return_, get_verbose.
  destruct (libusb_init X (world st)) as [s0 w1]. cbn [fst snd world verbose].
  destruct (s0 <? 0) eqn:S0.
  { rewrite logerror_run. cbn [fst snd]. tests.
    replace (0 <=? s0) with false by (symmetry; apply Z.leb_gt; assumption).
    reflexivity. }
  tests. replace (0 <=? s0) with true by (symmetry; apply Z.leb_le; assumption).
  cbn [fst snd world verbose andb].
  destruct (libusb_open_device_with_vid_pid X (to_uint16 vid) (to_uint16 pid) w1)
    as [d w2].
  cbn [fst snd world verbose].
  destruct (d =? NULL) eqn:Dn.
  { rewrite logerror_run. reflexivity. }
  cbn [fst snd world verbose negb andb].
  destruct (libusb_claim_interface X d 0 w2) as [s1 w3].
  cbn [fst snd world verbose].
  destruct (defined_linux (target B) && negb (s1 =? LIBUSB_SUCCESS)).
  - cbn [fst snd world verbose].
    destruct (libusb_detach_kernel_driver X d 0 w3) as [s2 w4].
    cbn [fst snd world verbose].
    destruct (libusb_claim_interface X d 0 w4) as [s3 w5].
    cbn [fst snd world verbose].
    destruct (s3 =? LIBUSB_SUCCESS); cbn [negb]; [reflexivity|].
    rewrite logerror_run. reflexivity.
  - cbn [fst snd world verbose].
    destruct (s1 =? LIBUSB_SUCCESS); cbn [negb]; [reflexivity|].
    rewrite logerror_run. reflexivity.
Qed.

(** The checks on the options: they pass silently or end in the usage
    text. *)
Lemma check_options_cases2 (inv : invocation) (l : locals) (st : state W) :
  (exists d i,
      check_options B inv l st = ((Continue (d, i), []), st) /\
      device_path l = Some d /\ ihex_path l = Some i /\
      (config l < 0 \/ (type l <> None /\ stage1 l <> None)))
  \/
  (exists msgs,
      messages (target B) msgs /\
      check_options B inv l st = ((Return (-1), msgs ++ usage_text inv), st) /\
      ((0 <= config l /\ (type l = None \/ stage1 l = None \/ ihex_path l = None))
       \/ device_path l = None \/ ihex_path l = None)).
Proof.
  unfold check_options, usage, is_null.
  unfold bind, emit, ret, return_. crunch; tests.
  all: try (left; eexists _, _; split; [reflexivity|]; split; [reflexivity|];
            split; [reflexivity|]; first [left; assumption|right; split; congruence]).
  all: try solve [simpl in *; congruence].
  all: right; eexists; (split; [eassumption|]); (split; [same_events|]); auto 6.
Qed.

Lemma parse_device_path_cases2 (d : string) (st : state W) :
  (fst (sscanf_vid_pid X d) = 2 /\
   parse_device_path X d st = ((Continue (snd (sscanf_vid_pid X d)), []), st))
  \/
  (fst (sscanf_vid_pid X d) <> 2 /\
   parse_device_path X d st = ((Return (-1), [selector_message]), st)).
Proof.
  unfold parse_device_path, bind, emit, ret, return_. crunch; tests; subst.
  - right. split; [assumption|reflexivity].
  - left. split; reflexivity.
Qed.

Lemma refused_not_well_formed2 (inv : invocation)
    (pre post : list getopt_result) (o : getopt_result) :
  opts inv = pre ++ o :: post -> accepts2 X o = false ->
  well_formed2 X inv = false.
Proof.
  intros E A. unfold well_formed2. rewrite E, forallb_app. cbn [forallb].
  rewrite A, andb_false_r. reflexivity.
Qed.

Lemma not_well_formed_reaches2 (inv : invocation) (w0 : W) :
  well_formed2 X inv = false -> reaches_download2 X B inv w0 = false.
Proof. intros Wf. unfold reaches_download2. rewrite Wf. reflexivity. Qed.

Lemma run2_events (inv : invocation) (w0 : W) (v z : Z) (evs evs' : list event) :
  run2 X B inv w0 v z evs' -> evs' = evs -> run2 X B inv w0 v z evs.
Proof. intros H <-. exact H. Qed.

(** The run of the second [main] is one of the runs of [run2]. *)
Lemma main_body_shape2 (inv : invocation) (st : state W) :
  exists z evs st',
    main_body X B inv st = ((Return z, evs), st') /\
    run2 X B inv (world st) (verbose st + count_v (opts inv)) z evs.
Proof.
  unfold main_body.
  destruct (getopt_loop X B inv (opts inv) (locals0 inv) st) as [[[l|z] evs] st1] eqn:L.
  - destruct (getopt_loop_run2 X B inv _ _ _ _ _ _ L)
      as (Wd & Acc & -> & Ls & Lf & Lt & Ld & Lc).
    pose proof (getopt_loop_verbose2 inv _ _ _ _ _ _ L) as Vb.
    cbn [locals0 stage1 ihex_path type device_path config] in *.
    assert (Wf : well_formed2 X inv
                 = ((config l <? 0)
                    || (match type l with Some _ => true | None => false end
                        && match stage1 l with Some _ => true | None => false end
                        && match ihex_path l with Some _ => true | None => false end))
                   && match device_path l with Some _ => true | None => false end
                   && match ihex_path l with Some _ => true | None => false end
                   && (fst (selector2 X inv) =? 2)).
    { unfold well_formed2, supplied_config, supplied_type, supplied_loader,
        supplied_firmware, supplied_device.
      rewrite Acc, <- Ls, <- Lf, <- Lt, <- Ld, <- Lc. reflexivity. }
    goes_on L. unfold prepare.
    destruct (check_options_cases2 inv l st1)
      as [(d & i & C & Hd & Hi & Hc)|(msgs & Hm & C & Bad)].
    + assert (Sel : selector2 X inv = sscanf_vid_pid X d).
      { unfold selector2, supplied_device. rewrite <- Ld, Hd. reflexivity. }
      assert (Wf' : well_formed2 X inv = (fst (sscanf_vid_pid X d) =? 2)).
      { rewrite Wf, Hd, Hi, Sel.
        destruct Hc as [Hc|[Ht Hs]].
        - apply Z.ltb_lt in Hc. rewrite Hc. reflexivity.
        - destruct (type l), (stage1 l); try congruence.
          rewrite orb_true_r. reflexivity. }
      goes_on C. cbn [fst snd].
      destruct (parse_device_path_cases2 d st1) as [[Two Pd]|[NotTwo Pd]].
      * rewrite Two in Wf'. cbn in Wf'.
        goes_on Pd. rewrite <- Sel.
        destruct (open_device_cases2 (fst (snd (selector2 X inv)))
                    (snd (snd (selector2 X inv))) st1)
          as (o & evs & st2 & Op & Vb2 & Cases).
        rewrite Wd, Vb in Cases.
        change (fst (libusb_open_device_with_vid_pid X
                       (to_uint16 (fst (snd (selector2 X inv))))
                       (to_uint16 (snd (snd (selector2 X inv))))
                       (snd (libusb_init X (world st)))))
          with (opened_handle2 X inv (world st)) in Cases.
        cbv zeta in Cases.
        assert (Rd : reaches_download2 X B inv (world st)
                     = match o with Continue _ => true | Return _ => false end).
        { pose proof (open_device_reaches2 (fst (snd (selector2 X inv)))
                        (snd (snd (selector2 X inv))) st1) as Rd.
          rewrite Op, Wd in Rd. cbn [fst] in Rd. rewrite <- Rd.
          unfold reaches_download2, opened_handle2, opened_world2.
          rewrite Wf'. reflexivity. }
        destruct Cases as [(Si & -> & msgs & Hm & ->)
                          |[(Si & Hn & -> & msgs & Hm & ->)
                           |[(Si & Hn & -> & cs & msgs & Hc' & Hm & ->)
                            |(Si & Hn & -> & cs & Hc' & ->)]]].
        -- returns Op. eapply run2_events; [eapply run2_init_failed; eassumption|].
           same_events.
        -- returns Op. eapply run2_events; [eapply run2_open_failed; eassumption|].
           same_events.
        -- returns Op. eapply run2_events; [eapply run2_claim_failed; eassumption|].
           same_events.
        -- goes_on Op.
           goes_on (eq_refl : get_verbose st2 = ((Continue (verbose st2), []), st2)).
           says msgs Hm.
           goes_on (eq_refl : ret (opened_handle2 X inv (world st), i,
                                   resolve_type (type l)) st2
                              = ((Continue (opened_handle2 X inv (world st), i,
                                            resolve_type (type l)), []), st2)).
           cbn [fst snd].
           destruct (download_cases2 (opened_handle2 X inv (world st)) l
                       (fst (resolve_type (type l))) (snd (resolve_type (type l)))
                       i st2)
             as (s & dl & st3 & Dl & Shape).
           goes_on Dl.
           eexists _, _, _. split; [apply out_run2|].
           rewrite Ls, Lt, Lc in Shape.
           eapply run2_events;
             [eapply run2_download with (firmware := i); try eassumption;
              unfold supplied_firmware; congruence|].
           same_events.
      * apply Z.eqb_neq in NotTwo. rewrite NotTwo in Wf'.
        returns Pd.
        eapply run2_events;
          [apply run2_selector;
           [assumption|apply not_well_formed_reaches2; assumption]|].
        reflexivity.
    + assert (Wf' : well_formed2 X inv = false);
        [|returns C;
          eapply run2_events;
            [apply run2_usage;
             [exact Wf'|apply not_well_formed_reaches2; exact Wf'|eassumption]
            |reflexivity]].
      rewrite Wf.
      destruct Bad as [[Hc [Ht|[Hs|Hi]]]|[Hd|Hi]];
        rewrite ?Ht, ?Hs, ?Hi, ?Hd, ?andb_false_r; cbn [andb orb];
        rewrite ?andb_false_r, ?orb_false_r; try reflexivity.
      all: apply Z.ltb_ge in Hc; rewrite Hc; reflexivity.
  - destruct (getopt_loop_run2 X B inv _ _ _ _ _ _ L)
      as (Wd & pre & o' & post & Eo & Fp & Ao & R).
    pose proof (refused_not_well_formed2 inv pre post o' Eo Ao) as Wf.
    pose proof (not_well_formed_reaches2 inv (world st) Wf) as Rd.
    returns L.
    destruct o'; destruct R as [-> ->];
      first [ apply run2_version; [exact Wf|exact Rd]
            | eapply run2_events;
              [apply run2_usage; [exact Wf|exact Rd|apply messages_logged]
              |reflexivity]
            | eapply run2_events;
              [apply run2_usage; [exact Wf|exact Rd|apply messages_nil]
              |reflexivity] ].
Qed.

Lemma main_shape2 (inv : invocation) (st : state W) :
  run2 X B inv (world st) (verbose st + count_v (opts inv))
    (fst (fst (main X B inv st))) (snd (fst (main X B inv st))).
Proof.
  destruct (main_body_shape2 inv st) as (z & evs & st' & E & R).
  unfold main. rewrite E. exact R.
Qed.

End Facts.

End Run2Facts.

Module Run1Facts.

Import Variant1 Variant1Facts.

Section Facts.

Context {W : Type}.
Variable X : Externals W.
Variable B : Build.

Lemma getopt_loop_verbose1 (inv : invocation) (os : list getopt_result) :
  forall (l l' : locals) (st st' : state W) evs,
    getopt_loop X B inv os l st = ((Continue l', evs), st') ->
    verbose st' = verbose st + count_v os.
Proof.
  induction os as [|o os IH]; intros l l' st st' evs E.
  - cbn in E. injection E as <- <- <-. cbn. lia.
  - rewrite count_v_cons.
    destruct o as [a|a| |a|a|a| | ]; cbn [getopt_loop is_v] in *;
      try (rewrite (IH _ _ _ _ _ E); lia).
    + discriminate E.
    + destruct ((to_int (strtoul X a) <? 0) || (to_int (strtoul X a) >? 255)).
      * unfold bind in E. rewrite logerror_run, usage_run1 in E. discriminate E.
      * rewrite (IH _ _ _ _ _ E). lia.
    + cbn in E.
      destruct (getopt_loop X B inv os l
                  {| world := world st; verbose := verbose st + 1 |})
        as [[o2 evs2] st2] eqn:E2.
      injection E as -> <- <-. rewrite (IH _ _ _ _ _ E2). cbn [verbose]. lia.
    + rewrite usage_run1 in E. discriminate E.
Qed.

Lemma check_options_cases1 (inv : invocation) (l : locals) (st : state W) :
  (exists f,
      check_options B inv l st = ((Continue tt, []), st) /\
      firmware_path l = Some f /\
      (config l < 0 \/ (type l <> None /\ loader_path l <> None)))
  \/
  (exists msgs,
      messages (target B) msgs /\
      check_options B inv l st = ((Return (-1), msgs ++ usage_text inv), st) /\
      ((0 <= config l /\
        (type l = None \/ loader_path l = None \/ firmware_path l = None))
       \/ firmware_path l = None)).
Proof.
  unfold check_options, usage, is_null.
  unfold bind, emit, ret, return_. crunch; tests.
  all: try (left; eexists; split; [reflexivity|]; split; [reflexivity|];
            first [left; assumption|right; split; congruence]).
  all: try solve [simpl in *; congruence].
  all: right; eexists; (split; [eassumption|]); (split; [same_events|]); auto 6.
Qed.

Lemma parse_device_id_cases1 (l : locals) (st : state W) :
  (match device_id l with
   | Some id => fst (sscanf_vid_pid X id) =? 2
   | None => true
   end = true /\
   parse_device_id X l st
   = ((Continue match device_id l with
                | Some id => snd (sscanf_vid_pid X id)
                | None => (0, 0)
                end, []), st))
  \/
  (match device_id l with
   | Some id => fst (sscanf_vid_pid X id) =? 2
   | None => true
   end = false /\
   parse_device_id X l st = ((Return (-1), [selector_message]), st)).
Proof.
  unfold parse_device_id. destruct (device_id l) as [id|]; [|left; split; reflexivity].
  unfold bind, emit, ret, return_. crunch; tests; subst.
  - right. split; [apply Z.eqb_neq; assumption|reflexivity].
  - left. split; reflexivity.
Qed.

Lemma determine_type_cases1 (inv : invocation) (l : locals) (st : state W) :
  (match type l with
   | Some t => match find_type t (fx_name B) 0 with Some _ => true | None => false end
   | None => true
   end = true /\
   determine_type B inv l st
   = ((Continue match type l with
                | Some t =>
                    match find_type t (fx_name B) 0 with
                    | Some i => i
                    | None => FX_TYPE_UNDEFINED B
                    end
                | None => FX_TYPE_UNDEFINED B
                end, []), st))
  \/
  (match type l with
   | Some t => match find_type t (fx_name B) 0 with Some _ => true | None => false end
   | None => true
   end = false /\
   exists msgs,
     messages (target B) msgs /\
     determine_type B inv l st = ((Return (-1), msgs ++ usage_text inv), st)).
Proof.
  unfold determine_type. destruct (type l) as [t|]; [|left; split; reflexivity].
  destruct (find_type t (fx_name B) 0); [left; split; reflexivity|].
  right. split; [reflexivity|].
  unfold usage, bind, emit, return_. crunch.
  eexists. split; [eassumption|same_events].
Qed.

(** With a type supplied, a match leaves [fx_type] as it is. *)
Lemma match_known_keeps_type (known : list fx_known_device)
    (desc : libusb_device_descriptor) (dn : bool) (fx v p : Z)
    (k : fx_known_device) (fx' v' p' : Z) :
  match_known known desc false dn fx v p = Some (k, (fx', (v', p'))) -> fx' = fx.
Proof.
  induction known as [|k1 known IH]; cbn [match_known andb]; [discriminate|].
  destruct ((idVendor desc =? known_vid k1) && (idProduct desc =? known_pid k1));
    [|exact IH].
  destruct (dn && (fx =? known_type k1)); [|exact IH].
  intros [= _ <- _ _]. reflexivity.
Qed.

(** A match is an entry of the table, and it leaves in [fx_type] the type
    of that entry. *)
Lemma match_known_type (known : list fx_known_device)
    (desc : libusb_device_descriptor) (tn dn : bool) (fx v p : Z)
    (k : fx_known_device) (fx' v' p' : Z) :
  match_known known desc tn dn fx v p = Some (k, (fx', (v', p'))) ->
  In k known /\ fx' = known_type k.
Proof.
  induction known as [|k1 known IH]; cbn [match_known]; [discriminate|].
  assert (Next : match_known known desc tn dn fx v p = Some (k, (fx', (v', p'))) ->
                 In k (k1 :: known) /\ fx' = known_type k).
  { intros H. destruct (IH H). split; [right; assumption|assumption]. }
  destruct ((idVendor desc =? known_vid k1) && (idProduct desc =? known_pid k1));
    [|exact Next].
  destruct (tn && dn).
  { intros [= <- <- _ _]. split; [left; reflexivity|reflexivity]. }
  destruct (tn && (v =? idVendor desc) && (p =? idProduct desc)).
  { intros [= <- <- _ _]. split; [left; reflexivity|reflexivity]. }
  destruct (dn && (fx =? known_type k1)) eqn:E; [|exact Next].
  intros [= <- <- _ _]. split; [left; reflexivity|].
  apply andb_true_iff in E. destruct E as [_ E]. apply Z.eqb_eq in E. exact E.
Qed.

(** The device loop: the devices visited are the first of the list, and
    the device found, if any, is the last one visited. *)
Lemma scan_devices_shape1 (devs : list Z) (l : locals) :
  forall (t : target_vars) (st : state W),
    exists t' evs st',
      scan_devices X B devs l t st = ((Continue t', evs), st') /\
      (exists visited rest,
          scanned (target B) visited evs /\
          ((dev t' = NULL /\ devs = visited ++ rest) \/
           (dev t' <> NULL /\
            (exists k, In k (known_device B) /\ fx_type t' = known_type k) /\
            exists before, visited = before ++ [dev t'] /\
                           devs = before ++ dev t' :: rest)) /\
          (type l <> None -> fx_type t' = fx_type t)).
Proof.
  induction devs as [|d devs IH]; intros t st.
  - eexists _, _, _. split; [reflexivity|]. exists [], []. cbn.
    split; [constructor|]. auto.
  - cbn [scan_devices]. destruct (d =? NULL) eqn:Dn.
    + eexists _, _, _. split; [reflexivity|]. exists [], (d :: devs). cbn.
      split; [constructor|]. auto.
    + apply Z.eqb_neq in Dn.
      goes_on (call_run (LibusbGetDeviceDescriptor d)
                 (libusb_get_device_descriptor X d) st).
      destruct (fst (libusb_get_device_descriptor X d (world st)))
        as [status' desc].
      set (st1 := {| world := snd (libusb_get_device_descriptor X d (world st));
                     verbose := verbose st |}).
      assert (Rec : forall t1 st2 msgs,
                 fx_type t1 = fx_type t -> messages (target B) msgs ->
                 exists (c : target_vars) (evs' : list event) (st' : state W),
                   scan_devices X B devs l t1 st2 = (Continue c, evs', st') /\
                   (exists visited rest : list Z,
                      scanned (target B) visited
                        ([LibusbGetDeviceDescriptor d] ++ msgs ++ evs') /\
                      (dev c = NULL /\ d :: devs = visited ++ rest \/
                       dev c <> NULL /\
                       (exists k, In k (known_device B) /\
                                  fx_type c = known_type k) /\
                       (exists before : list Z,
                          visited = before ++ [dev c] /\
                          d :: devs = before ++ dev c :: rest)) /\
                      (type l <> None -> fx_type c = fx_type t))).
      { intros t1 st2 msgs Ft Hm.
        destruct (IH t1 st2) as (t' & evs & st' & E & visited & rest & Sc & Where & Ty).
        exists t', evs, st'. split; [exact E|].
        exists (d :: visited), rest. split; [exact (scanned_cons _ d visited msgs evs Hm Sc)|].
        split; [|rewrite <- Ft; exact Ty].
        destruct Where as [[N ->]|[N [Kn (before & -> & ->)]]]; [left; auto|].
        right. split; [exact N|]. split; [exact Kn|]. exists (d :: before). auto. }
      destruct (status' >=? 0).
      * goes_on (eq_refl : get_verbose st1 = ((Continue (verbose st1), []), st1)).
        says msgs Hm.
        destruct (match_known (known_device B) desc (is_null (type l))
                    (is_null (device_id l)) (fx_type t) (vid t) (pid t))
          as [[k [fx' [vid' pid']]]|] eqn:Mk.
        -- goes_on (eq_refl : get_verbose st1 = ((Continue (verbose st1), []), st1)).
           says msgs' Hm'.
           eexists _, _, _. split; [reflexivity|].
           exists [d], devs. cbn [dev fx_type].
           split; [|split].
           ++ replace ([LibusbGetDeviceDescriptor d] ++ [] ++ msgs ++ [] ++ msgs' ++ [])
                with (LibusbGetDeviceDescriptor d :: (msgs ++ msgs') ++ [])
                by same_events.
              exact (scanned_cons _ d [] (msgs ++ msgs') []
                       (messages_app _ _ _ Hm Hm') (scanned_nil _)).
           ++ right. split; [exact Dn|].
              destruct (match_known_type _ _ _ _ _ _ _ _ _ _ _ Mk) as [Kin Kty].
              split; [exists k; auto|]. exists []. auto.
           ++ intros Ty. destruct (type l); [|congruence].
              eapply match_known_keeps_type. exact Mk.
        -- destruct (Rec {| dev := d; status := status'; fx_type := fx_type t;
                            vid := vid t; pid := pid t |} st1 msgs eq_refl Hm)
             as (c & evs' & st' & E & H).
           exists c, evs', st'. split; [exact E|].
           replace ([LibusbGetDeviceDescriptor d] ++ [] ++ msgs ++ evs')
             with ([LibusbGetDeviceDescriptor d] ++ msgs ++ evs') by reflexivity.
           exact H.
      * destruct (Rec {| dev := d; status := status'; fx_type := fx_type t;
                         vid := vid t; pid := pid t |} st1 [] eq_refl
                    (messages_nil _))
          as (c & evs' & st' & E & H).
        exists c, evs', st'. split; [exact E|]. exact H.
Qed.

(** Opening the device: by enumeration when the type or the device is
    missing, directly otherwise. *)
Lemma open_device_cases1 (inv : invocation) (l : locals) (t : target_vars)
    (st : state W) :
  exists o evs st',
    open_device X B inv l t st = ((o, evs), st') /\
    if is_null (type l) || is_null (device_id l) then
      (fst (fst (libusb_get_device_list X (world st))) < 0 /\
       o = Return (-1) /\
       evs = LibusbGetDeviceList
             :: logged (target B) ("libusb_get_device_list() failed: %s" ++ nl)
                  [AStr (libusb_error_name X (status t))]
             ++ [LibusbExit])
      \/
      (0 <= fst (fst (libusb_get_device_list X (world st))) /\
       exists visited rest scan,
         snd (fst (libusb_get_device_list X (world st))) = visited ++ rest /\
         scanned (target B) visited scan /\
         o = Return (-1) /\
         exists msgs,
           messages (target B) msgs /\
           evs = LibusbGetDeviceList
                 :: scan ++ LibusbFreeDeviceList :: msgs ++ usage_text inv)
      \/
      (0 <= fst (fst (libusb_get_device_list X (world st))) /\
       exists visited dv rest scan,
         snd (fst (libusb_get_device_list X (world st))) = visited ++ dv :: rest /\
         scanned (target B) (visited ++ [dv]) scan /\
         ((o = Return (-1) /\
           exists msgs,
             messages (target B) msgs /\
             evs = LibusbGetDeviceList :: scan ++ LibusbOpen dv :: msgs ++ [LibusbExit])
          \/
          (exists d fx,
             o = Continue (d, fx) /\
             (type l <> None -> fx = fx_type t) /\
             (exists k, In k (known_device B) /\ fx = known_type k) /\
             evs = LibusbGetDeviceList
                   :: scan ++ [LibusbOpen dv; LibusbFreeDeviceList])))
    else
      (o = Return (-1) /\
       exists msgs,
         messages (target B) msgs /\
         evs = LibusbOpenDeviceWithVidPid (to_uint16 (vid t)) (to_uint16 (pid t))
               :: msgs ++ [LibusbExit])
      \/
      (exists d,
         d <> NULL /\ o = Continue (d, fx_type t) /\
         evs = [LibusbOpenDeviceWithVidPid (to_uint16 (vid t)) (to_uint16 (pid t))]).
Proof.
  unfold open_device. destruct (is_null (type l) || is_null (device_id l)).
  - goes_on (call_run LibusbGetDeviceList (libusb_get_device_list X) st).
    destruct (fst (libusb_get_device_list X (world st))) as [n devs].
    cbn [fst snd].
    set (st1 := {| world := snd (libusb_get_device_list X (world st));
                   verbose := verbose st |}).
    destruct (n <? 0) eqn:Neg; tests.
    + unfold bind, emit, return_. rewrite logerror_run. cbn [fst snd app].
      eexists _, _, _. split; [reflexivity|]. left.
      split; [assumption|]. split; [reflexivity|same_events].
    + destruct (scan_devices_shape1 devs l t st1)
        as (t' & scan & st2 & Sc & visited & rest & Hs & Where & Ty).
      goes_on Sc. unfold open_found.
      destruct Where as [[N Ed]|[N [Kn (before & -> & Ed)]]].
      * rewrite N. cbn [Z.eqb NULL].
        unfold usage, bind, emit, return_. crunch.
        eexists _, _, _. split; [reflexivity|]. right; left.
        split; [assumption|]. exists visited, rest, scan.
        split; [assumption|]. split; [assumption|]. split; [reflexivity|].
        eexists. split; [eassumption|same_events].
      * apply Z.eqb_neq in N. rewrite N.
        unfold bind, call, call_with, emit, ret, return_. crunch; tests.
        all: eexists _, _, _; split; [reflexivity|]; right; right.
        all: (split; [assumption|]); exists before, (dev t'), rest, scan.
        all: (split; [assumption|]); (split; [assumption|]).
        -- left. split; [reflexivity|]. eexists. split; [eassumption|same_events].
        -- right. eexists _, _. split; [reflexivity|]. split; [exact Ty|].
           split; [exact Kn|same_events].
  - unfold bind, call, call_with, emit, ret, return_. crunch; tests.
    all: eexists _, _, _; split; [reflexivity|].
    + left. split; [reflexivity|]. eexists. split; [eassumption|same_events].
    + right. eexists. split; [eassumption|]. split; reflexivity.
Qed.

Lemma claim_interface_cases1 (d : Z) (st : state W) :
  exists o evs st',
    claim_interface X B d st = ((o, evs), st') /\
    exists cs,
      claimed (target B) d cs /\
      ((o = Return (-1) /\
        exists msgs, messages (target B) msgs /\ evs = cs ++ msgs ++ [LibusbExit])
       \/ (o = Continue tt /\ evs = cs)).
Proof.
  unfold claim_interface.
  unfold bind, call, call_with, emit, ret, return_. crunch; tests.
  all: eexists _, _, _; split; [reflexivity|].
  - eexists. split; [apply claimed_again, defined_linux_true; assumption|].
    left. split; [reflexivity|]. eexists. split; [eassumption|reflexivity].
  - eexists. split; [apply claimed_again, defined_linux_true; assumption|].
    right. split; reflexivity.
  - eexists. split; [apply claimed_once|].
    left. split; [reflexivity|]. eexists. split; [eassumption|reflexivity].
  - eexists. split; [apply claimed_once|]. right. split; reflexivity.
Qed.

Lemma download_cases1 (d : Z) (l : locals) (fx : Z) (firmware : string)
    (st : state W) :
  exists s evs st',
    download X B d l fx firmware st = ((Continue s, evs), st') /\
    downloaded (target B) d (loader_path l) firmware fx (AInt fx) (config l) s evs.
Proof.
  unfold download. destruct (loader_path l) as [loader|].
  - unfold bind, call_with, get_verbose, ret. crunch.
    + eexists _, _, _. split; [reflexivity|].
      eapply (loader_failed _ _ _ _ _ _ _ loader); [reflexivity|eassumption|].
      tests. assumption.
    + tests. subst.
      eexists _, _, _. split; [reflexivity|].
      eapply (eeprom_written _ _ _ _ _ _ _ loader); [reflexivity|eassumption|].
      assumption.
    + tests. subst.
      eexists _, _, _. split; [reflexivity|].
      eapply (ram_loaded _ _ _ _ _ _ _ loader); [reflexivity|eassumption|].
      assumption.
  - unfold bind, call_with, get_verbose, ret. crunch.
    eexists _, _, _. split; [reflexivity|].
    eapply single_stage; [reflexivity|eassumption].
Qed.

(** The device loop leaves in [dev] the device of [found_device]. *)
Lemma scan_devices_found1 (devs : list Z) (l : locals) :
  forall (t : target_vars) (st st' : state W) o evs,
    scan_devices X B devs l t st = ((o, evs), st') ->
    exists t',
      o = Continue t' /\
      found_device X B devs (is_null (type l)) (is_null (device_id l))
        (fx_type t) (vid t) (pid t) (world st)
      = ((if dev t' =? NULL then None else Some (dev t')), world st').
Proof.
  induction devs as [|d devs IH]; intros t st st' o evs E.
  - cbn in E. injection E as <- _ <-. eexists. split; reflexivity.
  - cbn [scan_devices found_device] in *.
    destruct (d =? NULL) eqn:Dn.
    + cbn in E. injection E as <- _ <-. eexists. split; reflexivity.
    + unfold bind, call, call_with, get_verbose in E.
      destruct (libusb_get_device_descriptor X d (world st)) as [[s desc] w1] eqn:G.
      cbn [fst snd].
      destruct (s >=? 0) eqn:S.
      * cbn [verbose world] in E. rewrite when_logerror_run in E.
        destruct (match_known (known_device B) desc (is_null (type l))
                    (is_null (device_id l)) (fx_type t) (vid t) (pid t))
          as [[k [fx' [vid' pid']]]|] eqn:Mk.
        -- rewrite when_logerror_run in E. cbn [ret] in E.
           injection E as <- _ <-.
           eexists. split; [reflexivity|]. cbn [dev world]. rewrite Dn.
           reflexivity.
        -- match type of E with
           | context [scan_devices X B devs l ?t1 ?s1] =>
               destruct (scan_devices X B devs l t1 s1) as [[o2 e2] s2] eqn:E2;
               destruct (IH t1 s1 s2 o2 e2 E2) as (t' & -> & R)
           end.
           cbn [world fx_type vid pid] in R.
           injection E as <- _ <-. exists t'. split; [reflexivity|exact R].
      * match type of E with
        | context [scan_devices X B devs l ?t1 ?s1] =>
            destruct (scan_devices X B devs l t1 s1) as [[o2 e2] s2] eqn:E2;
            destruct (IH t1 s1 s2 o2 e2 E2) as (t' & -> & R)
        end.
        cbn [world fx_type vid pid] in R.
        injection E as <- _ <-. exists t'. split; [reflexivity|exact R].
Qed.

(** The handle that [open_device] gives is the one of [opened_from]. *)
Lemma open_device_opened1 (inv : invocation) (l : locals) (t : target_vars)
    (st st' : state W) o evs :
  open_device X B inv l t st = ((o, evs), st') ->
  opened_from X B (is_null (type l)) (is_null (device_id l))
    (fx_type t) (vid t) (pid t) (world st)
  = match o with
    | Continue (d, _) => Some (d, world st')
    | Return _ => None
    end.
Proof.
  unfold open_device, opened_from.
  destruct (is_null (type l) || is_null (device_id l)).
  - unfold bind at 1, call, call_with.
    destruct (libusb_get_device_list X (world st)) as [[n devs] w2].
    cbn [fst snd].
    destruct (n <? 0).
    + unfold bind, emit, return_. rewrite logerror_run. cbn [fst snd].
      intros [= <- _ _]. reflexivity.
    + unfold bind at 1.
      match goal with
      | |- context [scan_devices X B devs l t ?s1] =>
          destruct (scan_devices X B devs l t s1) as [[o2 e2] s2] eqn:E2;
          destruct (scan_devices_found1 devs l t s1 s2 o2 e2 E2) as (t' & -> & R)
      end.
      cbn [world] in R. rewrite R. unfold open_found.
      destruct (dev t' =? NULL).
      * unfold bind, emit. rewrite logerror_run, usage_run1. cbn [fst snd].
        intros [= <- _ _]. reflexivity.
      * unfold bind at 1, call, call_with.
        destruct (libusb_open X (dev t') (world s2)) as [[s' d] w4].
        cbn [fst snd].
        destruct (s' <? 0).
        -- unfold bind, emit, return_. rewrite logerror_run. cbn [fst snd].
           intros [= <- _ _]. reflexivity.
        -- unfold bind, emit, ret. cbn [fst snd].
           intros [= <- _ <-]. reflexivity.
  - unfold bind at 1, call, call_with.
    destruct (libusb_open_device_with_vid_pid X (to_uint16 (vid t))
                (to_uint16 (pid t)) (world st)) as [d w2].
    destruct (d =? NULL).
    + unfold bind, emit, return_. rewrite logerror_run. cbn [fst snd].
      intros [= <- _ _]. reflexivity.
    + unfold ret. intros [= <- _ <-]. reflexivity.
Qed.

(** The interface is claimed when [claim_status] is a success. *)
Lemma claim_interface_status1 (d : Z) (st st' : state W) o evs :
  claim_interface X B d st = ((o, evs), st') ->
  (claim_status X (target B) d (world st) =? LIBUSB_SUCCESS)
  = match o with
    | Continue _ => true
    | Return _ => false
    end.
Proof.
  unfold claim_interface, claim_status.
  unfold bind, call, call_with, emit, ret, return_.
  destruct (libusb_claim_interface X d 0 (world st)) as [s1 w3].
  cbn [fst snd world verbose].
  destruct (defined_linux (target B) && negb (s1 =? LIBUSB_SUCCESS)).
  - cbn [fst snd world verbose].
    destruct (libusb_detach_kernel_driver X d 0 w3) as [s2 w4].
    cbn [fst snd world verbose].
    destruct (libusb_claim_interface X d 0 w4) as [s3 w5].
    cbn [fst snd world verbose].
    destruct (s3 =? LIBUSB_SUCCESS); cbn [negb].
    + intros [= <- _ _]. reflexivity.
    + rewrite logerror_run. cbn [fst snd]. intros [= <- _ _]. reflexivity.
  - cbn [fst snd world verbose].
    destruct (s1 =? LIBUSB_SUCCESS); cbn [negb].
    + intros [= <- _ _]. reflexivity.
    + rewrite logerror_run. cbn [fst snd]. intros [= <- _ _]. reflexivity.
Qed.

Lemma not_well_formed_reaches1 (inv : invocation) (w0 : W) :
  well_formed1 X B inv = false -> reaches_download1 X B inv w0 = false.
Proof. intros Wf. unfold reaches_download1. rewrite Wf. reflexivity. Qed.

Lemma refused_not_well_formed1 (inv : invocation)
    (pre post : list getopt_result) (o : getopt_result) :
  opts inv = pre ++ o :: post -> accepts1 X o = false ->
  well_formed1 X B inv = false.
Proof.
  intros E A. unfold well_formed1. rewrite E, forallb_app. cbn [forallb].
  rewrite A, andb_false_r. reflexivity.
Qed.

Lemma run1_events (inv : invocation) (w0 : W) (v z : Z) (evs evs' : list event) :
  run1 X B inv w0 v z evs' -> evs' = evs -> run1 X B inv w0 v z evs.
Proof. intros H <-. exact H. Qed.

(** The run of the first [main] is one of the runs of [run1]. *)
Lemma main_body_shape1 (inv : invocation) (st : state W) :
  exists z evs st',
    main_body X B inv st = ((Return z, evs), st') /\
    run1 X B inv (world st) (verbose st + count_v (opts inv)) z evs.
Proof.
  unfold main_body.
  destruct (getopt_loop X B inv (opts inv) (locals0 inv) st) as [[[l|z] evs] st1] eqn:L.
  - destruct (getopt_loop_run1 X B inv _ _ _ _ _ _ L)
      as (Wd & Acc & -> & Ls & Lf & Lt & Ld & Lc).
    pose proof (getopt_loop_verbose1 inv _ _ _ _ _ _ L) as Vb.
    cbn [locals0 loader_path firmware_path type device_id config] in *.
    assert (Wf : well_formed1 X B inv
                 = ((config l <? 0)
                    || (match type l with Some _ => true | None => false end
                        && match loader_path l with Some _ => true | None => false end
                        && match firmware_path l with Some _ => true | None => false end))
                   && match firmware_path l with Some _ => true | None => false end
                   && match device_id l with
                      | Some id => fst (sscanf_vid_pid X id) =? 2
                      | None => true
                      end
                   && match type l with
                      | Some t =>
                          match find_type t (fx_name B) 0 with
                          | Some _ => true
                          | None => false
                          end
                      | None => true
                      end).
    { unfold well_formed1, supplied_config, supplied_type, supplied_loader,
        supplied_firmware, supplied_device.
      rewrite Acc, <- Ls, <- Lf, <- Lt, <- Ld, <- Lc. reflexivity. }
    assert (Sel : selector1 X inv
                  = match device_id l with
                    | Some id => snd (sscanf_vid_pid X id)
                    | None => (0, 0)
                    end).
    { unfold selector1, supplied_device. rewrite <- Ld. reflexivity. }
    assert (Rq : requested_type1 B inv
                 = match type l with
                   | Some t =>
                       match find_type t (fx_name B) 0 with
                       | Some i => i
                       | None => FX_TYPE_UNDEFINED B
                       end
                   | None => FX_TYPE_UNDEFINED B
                   end).
    { unfold requested_type1, supplied_type. rewrite <- Lt. reflexivity. }
    assert (Both : both_supplied inv = negb (is_null (type l) || is_null (device_id l))).
    { unfold both_supplied, supplied_type, supplied_device. rewrite <- Lt, <- Ld.
      destruct (type l), (device_id l); reflexivity. }
    goes_on L. unfold prepare.
    destruct (check_options_cases1 inv l st1)
      as [(f & C & Hf & Hc)|(msgs & Hm & C & Bad)].
    + assert (Wf1 : well_formed1 X B inv
                    = match device_id l with
                      | Some id => fst (sscanf_vid_pid X id) =? 2
                      | None => true
                      end
                      && match type l with
                         | Some t =>
                             match find_type t (fx_name B) 0 with
                             | Some _ => true
                             | None => false
                             end
                         | None => true
                         end).
      { rewrite Wf, Hf.
        destruct Hc as [Hc|[Ht Hs]].
        - apply Z.ltb_lt in Hc. rewrite Hc. reflexivity.
        - destruct (type l), (loader_path l); try congruence.
          rewrite orb_true_r. reflexivity. }
      goes_on C.
      destruct (parse_device_id_cases1 l st1) as [[Two Pd]|[NotTwo Pd]].
      * rewrite Two in Wf1. goes_on Pd. rewrite <- Sel.
        destruct (determine_type_cases1 inv l st1)
          as [[Known Dt]|[Unknown (msgs & Hm & Dt)]].
        -- rewrite Known in Wf1. cbn [andb] in Wf1.
           goes_on Dt. rewrite <- Rq.
           goes_on (call_run LibusbInit (libusb_init X) st1).
           rewrite Wd.
           set (st2 := {| world := snd (libusb_init X (world st));
                          verbose := verbose st1 |}).
           fold (init_status X (world st)).
           destruct (init_status X (world st) <? 0) eqn:Si; tests.
           ++ assert (Rd : reaches_download1 X B inv (world st) = false).
              { unfold reaches_download1. rewrite Wf1.
                replace (0 <=? init_status X (world st)) with false
                  by (symmetry; apply Z.leb_gt; assumption).
                reflexivity. }
              says msgs Hm.
              cbv beta; eapply bind_ends_Return; [reflexivity|].
              eapply run1_events; [eapply run1_init_failed; eassumption|].
              same_events.
           ++ simply_goes_on. simply_goes_on. simply_goes_on.
              cbn [verbose st2]. rewrite Vb.
              destruct (open_device_cases1 inv l
                          {| dev := NULL; status := init_status X (world st);
                             fx_type := requested_type1 B inv;
                             vid := fst (selector1 X inv);
                             pid := snd (selector1 X inv) |} st2)
                as (o & evs & st3 & Op & Cases).
              cbn [world st2 vid pid fx_type] in Cases.
              fold (list_status X (world st)) in Cases.
              fold (device_list X (world st)) in Cases.
              assert (Rd : reaches_download1 X B inv (world st)
                           = match o with
                             | Continue (d, _) =>
                                 claim_status X (target B) d (world st3)
                                 =? LIBUSB_SUCCESS
                             | Return _ => false
                             end).
              { pose proof (open_device_opened1 _ _ _ _ _ _ _ Op) as Ro.
                cbn [world st2 vid pid fx_type] in Ro.
                unfold reaches_download1, opened1, supplied_type, supplied_device.
                rewrite Wf1, <- Lt, <- Ld.
                replace (0 <=? init_status X (world st)) with true
                  by (symmetry; apply Z.leb_le; assumption).
                replace (match type l with None => true | Some _ => false end)
                  with (is_null (type l)) by (destruct (type l); reflexivity).
                replace (match device_id l with None => true | Some _ => false end)
                  with (is_null (device_id l))
                  by (destruct (device_id l); reflexivity).
                rewrite Ro. destruct o as [[d fx]|z]; reflexivity. }
              assert (Opened :
                        (o = Return (-1) /\
                         run1 X B inv (world st) (verbose st + count_v (opts inv))
                           (-1)
                           (LibusbInit
                            :: LibusbSetDebug (verbose st + count_v (opts inv))
                            :: evs))
                        \/
                        (exists d fx,
                            o = Continue (d, fx) /\
                            opening1 X B inv (world st) d evs /\
                            (supplied_type inv <> None ->
                             fx = requested_type1 B inv) /\
                            (supplied_type inv = None ->
                             exists k, In k (known_device B) /\
                                       fx = known_type k))).
              { destruct (is_null (type l) || is_null (device_id l));
                  cbn [negb] in Both.
                - destruct Cases
                    as [(Ln & -> & ->)
                       |[(Ln & visited & rest & scan & Dl & Sc & -> & msgs & Hm & ->)
                        |(Ln & visited & dv & rest & scan & Dl & Sc
                          & [(-> & msgs & Hm & ->)|(d & fx & -> & Ty & Kn & ->)])]].
                  + left. split; [reflexivity|].
                    eapply run1_list_failed; eassumption.
                  + left. split; [reflexivity|].
                    eapply run1_not_found; eassumption.
                  + left. split; [reflexivity|].
                    eapply run1_open_failed; eassumption.
                  + right. exists d, fx. split; [reflexivity|].
                    split; [eapply opened_after_scan; eassumption|].
                    split; [unfold supplied_type; rewrite <- Lt; exact Ty|].
                    intros _. exact Kn.
                - destruct Cases as [(-> & msgs & Hm & ->)|(d & Dn & -> & ->)].
                  + left. split; [reflexivity|].
                    eapply run1_direct_open_failed; eassumption.
                  + right. exists d, (requested_type1 B inv).
                    split; [reflexivity|].
                    split; [apply opened_directly; assumption|].
                    split; [reflexivity|].
                    intros Tn. exfalso. unfold both_supplied in Both.
                    rewrite Tn in Both. discriminate Both. }
              destruct Opened as [[-> R]|(d & fx & -> & Opening & Ty & Kn)].
              ** returns Op. eapply run1_events; [exact R|]. same_events.
              ** goes_on Op. cbn [fst snd].
                 cbv beta iota in Rd.
                 destruct (claim_interface_cases1 d st3)
                   as (oc & ec & st4 & Cl & cs & Hcs & Claim).
                 rewrite (claim_interface_status1 _ _ _ _ _ Cl) in Rd.
                 destruct Claim as [(-> & msgs & Hm & ->)|(-> & ->)].
                 --- returns Cl.
                     eapply run1_events; [eapply run1_claim_failed; eassumption|].
                     same_events.
                 --- goes_on Cl. simply_goes_on. says msgs Hm. simply_goes_on.
                     cbn [fst snd].
                     destruct (download_cases1 d l fx (firmware_of l) st4)
                       as (s & dl & st5 & Dl & Shape).
                     goes_on Dl.
                     eexists _, _, _. split; [apply out_run1|].
                     unfold firmware_of in Shape. rewrite Hf in Shape.
                     rewrite Ls, Lc in Shape.
                     eapply run1_events;
                       [eapply run1_download with (firmware := f) (fx := fx);
                        try eassumption; unfold supplied_firmware; congruence|].
                     same_events.
        -- rewrite Unknown, andb_false_r in Wf1.
           pose proof (not_well_formed_reaches1 inv (world st) Wf1) as Rd.
           returns Dt.
           eapply run1_events; [apply run1_usage; eassumption|reflexivity].
      * rewrite NotTwo in Wf1. cbn [andb] in Wf1.
        pose proof (not_well_formed_reaches1 inv (world st) Wf1) as Rd.
        returns Pd. eapply run1_events; [apply run1_selector; assumption|].
        reflexivity.
    + assert (Wf' : well_formed1 X B inv = false);
        [|returns C;
          eapply run1_events;
            [apply run1_usage;
             [exact Wf'|apply not_well_formed_reaches1; exact Wf'|eassumption]
            |reflexivity]].
      rewrite Wf.
      destruct Bad as [[Hc [Ht|[Hs|Hi]]]|Hi];
        rewrite ?Ht, ?Hs, ?Hi, ?andb_false_r; cbn [andb orb];
        rewrite ?andb_false_r, ?orb_false_r; try reflexivity.
      all: apply Z.ltb_ge in Hc; rewrite Hc; reflexivity.
  - destruct (getopt_loop_run1 X B inv _ _ _ _ _ _ L)
      as (Wd & pre & o' & post & Eo & Fp & Ao & R).
    pose proof (refused_not_well_formed1 inv pre post o' Eo Ao) as Wf.
    pose proof (not_well_formed_reaches1 inv (world st) Wf) as Rd.
    returns L.
    destruct o'; destruct R as [-> ->];
      first [ apply run1_version; [exact Wf|exact Rd]
            | eapply run1_events;
              [apply run1_usage; [exact Wf|exact Rd|apply messages_logged]
              |reflexivity]
            | eapply run1_events;
              [apply run1_usage; [exact Wf|exact Rd|apply messages_nil]
              |reflexivity] ].
Qed.

Lemma main_shape1 (inv : invocation) (st : state W) :
  run1 X B inv (world st) (verbose st + count_v (opts inv))
    (fst (fst (main X B inv st))) (snd (fst (main X B inv st))).
Proof.
  destruct (main_body_shape1 inv st) as (z & evs & st' & E & R).
  unfold main. rewrite E. exact R.
Qed.

End Facts.

End Run1Facts.
(** * What the runs of [main] show *)

Lemma filter_nil_when {A : Type} (f : A -> bool) (l : list A) :
  (forall x, In x l -> f x = false) -> filter f l = [].
Proof.
  induction l as [|a l IH]; intros H; [reflexivity|].
  cbn [filter]. rewrite (H a (or_introl eq_refl)). apply IH.
  intros x Hx. apply H. right. exact Hx.
Qed.

Lemma flat_map_nil_when {A C : Type} (f : A -> list C) (l : list A) :
  (forall x, In x l -> f x = []) -> flat_map f l = [].
Proof.
  induction l as [|a l IH]; intros H; [reflexivity|].
  cbn [flat_map]. rewrite (H a (or_introl eq_refl)). apply IH.
  intros x Hx. apply H. right. exact Hx.
Qed.

Lemma is_message_inv (e : event) :
  is_message e = true -> exists f a, e = Vfprintf stderr f a.
Proof.
  destruct e as [| | |s f a| | | | | | | | | | | | | | |]; try discriminate.
  destruct s; [discriminate|]. eauto.
Qed.

Lemma messages_In (p : platform) (msgs : list event) (e : event) :
  messages p msgs -> In e msgs ->
  (exists f a, e = Vfprintf stderr f a) /\ defined_WIN32 p = true.
Proof.
  intros [F N] He. split.
  - rewrite forallb_forall in F. exact (is_message_inv _ (F e He)).
  - destruct (defined_WIN32 p); [reflexivity|]. rewrite (N eq_refl) in He.
    destruct He.
Qed.

Lemma claimed_In (p : platform) (d : Z) (cs : list event) (e : event) :
  claimed p d cs -> In e cs ->
  e = LibusbClaimInterface d 0 \/ (e = LibusbDetachKernelDriver d 0 /\ p = Linux).
Proof.
  intros [|L] He; cbn in He; intuition (subst; auto).
Qed.

Lemma downloaded_In (p : platform) (d : Z) (loader : option string)
    (firmware : string) (fx : Z) (ty : arg) (config z : Z) (dl : list event)
    (e : event) :
  downloaded p d loader firmware fx ty config z dl -> In e dl ->
  ((exists f a, e = Vfprintf stderr f a) /\ defined_WIN32 p = true)
  \/ (exists path stage s, e = EzusbLoadRam d path fx stage s)
  \/ (exists s, e = EzusbLoadEeprom d firmware ty config s /\ 0 <= config).
Proof.
  intros [msgs s Hl Hm|l msgs s Hl Hm Hs|l msgs s Hl Hm Hc|l msgs s Hl Hm Hc] He;
    apply in_app_or in He; destruct He as [He|He];
    try (left; exact (messages_In _ _ _ Hm He));
    cbn in He; right; intuition (subst; eauto).
Qed.

Lemma scanned_In (p : platform) (visited : list Z) (scan : list event) (e : event) :
  scanned p visited scan -> In e scan ->
  ((exists f a, e = Vfprintf stderr f a) /\ defined_WIN32 p = true)
  \/ (exists dv, e = LibusbGetDeviceDescriptor dv /\ In dv visited).
Proof.
  induction 1 as [|d ds msgs evs Hm Hs IH]; intros He; [destruct He|].
  destruct He as [<-|He]; [right; exists d; split; [reflexivity|left; reflexivity]|].
  apply in_app_or in He. destruct He as [He|He].
  - left. exact (messages_In _ _ _ Hm He).
  - destruct (IH He) as [M|(dv & -> & Hin)]; [left; exact M|].
    right. exists dv. split; [reflexivity|right; exact Hin].
Qed.

Lemma messages_descriptors (p : platform) (msgs : list event) :
  messages p msgs -> descriptors_read msgs = [].
Proof.
  intros Hm. apply flat_map_nil_when. intros e He.
  destruct (messages_In _ _ _ Hm He) as [(f & a & ->) _]. reflexivity.
Qed.

Lemma descriptors_read_app (evs evs' : list event) :
  descriptors_read (evs ++ evs') = descriptors_read evs ++ descriptors_read evs'.
Proof. apply flat_map_app. Qed.

Lemma scanned_descriptors (p : platform) (visited : list Z) (scan : list event) :
  scanned p visited scan -> descriptors_read scan = visited.
Proof.
  induction 1 as [|d ds msgs evs Hm Hs IH]; [reflexivity|].
  change (descriptors_read (LibusbGetDeviceDescriptor d :: msgs ++ evs))
    with (d :: descriptors_read (msgs ++ evs)).
  rewrite descriptors_read_app, IH, (messages_descriptors _ _ Hm). reflexivity.
Qed.

(** The last event of a download is a pass, on the handle of the download,
    and its status is the status of the download. *)
Lemma downloaded_ends (p : platform) (d : Z) (loader : option string)
    (firmware : string) (fx : Z) (ty : arg) (config z : Z) (dl : list event) :
  downloaded p d loader firmware fx ty config z dl ->
  exists front e,
    dl = front ++ [e] /\ is_load e = true /\ handle_of e = Some d /\ returned e = z.
Proof.
  intros [msgs s Hl Hm|l msgs s Hl Hm Hs|l msgs s Hl Hm Hc|l msgs s Hl Hm Hc].
  - exists msgs. eexists. split; [reflexivity|]. cbn. auto.
  - exists msgs. eexists. split; [reflexivity|]. cbn. auto.
  - exists (msgs ++ [EzusbLoadRam d l fx 0 0]). eexists.
    split; [rewrite <- app_assoc; reflexivity|]. cbn. auto.
  - exists (msgs ++ [EzusbLoadRam d l fx 0 0]). eexists.
    split; [rewrite <- app_assoc; reflexivity|]. cbn. auto.
Qed.

(** The cases of an event [He : In e evs] of a run, along the pieces of
    the run. *)
Ltac event_cases He :=
  unfold Variant1.usage_text, Variant2.usage_text, selector_message in He;
  repeat match type of He with
    | In _ (_ :: _) => destruct He as [He|He]
    | In _ (_ ++ _) => apply in_app_or in He; destruct He as [He|He]
    | In _ [] => destruct He
    end;
  try match type of He with
    | In _ (logged _ _ _) =>
        let f := fresh "f" in
        let a := fresh "a" in
        let Win := fresh "Win" in
        destruct (messages_In _ _ _ (messages_logged _ _ _) He) as [(f & a & ->) Win]
    | In ?e ?l =>
        match goal with
        | Hm : messages _ l |- _ =>
            let f := fresh "f" in
            let a := fresh "a" in
            let Win := fresh "Win" in
            destruct (messages_In _ _ _ Hm He) as [(f & a & ->) Win]
        | Hc : claimed _ _ l |- _ =>
            let Lin := fresh "Lin" in
            destruct (claimed_In _ _ _ _ Hc He) as [->|[-> Lin]]
        | Hd : downloaded _ _ _ _ _ _ _ _ l |- _ =>
            let f := fresh "f" in
            let a := fresh "a" in
            let Win := fresh "Win" in
            let path := fresh "path" in
            let stage := fresh "stage" in
            let s := fresh "s" in
            destruct (downloaded_In _ _ _ _ _ _ _ _ _ _ Hd He)
              as [[(f & a & ->) Win]|[(path & stage & s & ->)|(s & -> & ?)]]
        | Hs : scanned _ _ l |- _ =>
            let f := fresh "f" in
            let a := fresh "a" in
            let Win := fresh "Win" in
            let dv := fresh "dv" in
            let Hv := fresh "Hv" in
            destruct (scanned_In _ _ _ _ Hs He) as [[(f & a & ->) Win]|(dv & -> & Hv)]
        end
    | _ = _ => subst
    end.

Lemma download_before_cleanup (p : platform) (d : Z) (loader : option string)
    (firmware : string) (fx : Z) (ty : arg) (config z : Z) (dl : list event) :
  downloaded p d loader firmware fx ty config z dl ->
  exists front e,
    dl = front ++ [e] /\ filter is_cleanup front = [] /\ is_cleanup e = false /\
    is_load e = true /\ handle_of e = Some d /\ returned e = z.
Proof.
  intros Hd.
  assert (No : filter is_cleanup dl = []).
  { apply filter_nil_when. intros e He.
    destruct (downloaded_In _ _ _ _ _ _ _ _ _ e Hd He)
      as [[(f & a & ->) _]|[(path & g & s & ->)|(s & -> & _)]]; reflexivity. }
  destruct (downloaded_ends _ _ _ _ _ _ _ _ _ Hd) as (front & e & -> & Il & Hh & Hr).
  exists front, e. rewrite filter_app in No. apply app_eq_nil in No.
  destruct No as [Hf _]. split; [reflexivity|]. split; [exact Hf|].
  split; [|auto]. destruct e; try discriminate Il; reflexivity.
Qed.

(** The events of [evs] selected by [f], piece by piece: the pieces that
    have none of them are dropped. *)
Ltac select_events :=
  unfold Variant1.usage_text, Variant2.usage_text, selector_message;
  repeat first [rewrite filter_app | progress cbn [filter app]];
  repeat match goal with
    | |- context [filter ?f ?l] =>
        first [is_var l | match l with logged _ _ _ => idtac end];
        rewrite (filter_nil_when f l)
          by (let e := fresh "e" in
              let He := fresh "He" in
              intros e He; event_cases He; reflexivity)
    end;
  cbn [app].

Lemma claimed_selected (p : platform) (d : Z) (cs : list event) :
  claimed p d cs -> filter (fun e => is_claim e || is_detach e) cs = cs.
Proof. intros [|L]; reflexivity. Qed.

Lemma find_type_from (t : string) (names : list string) :
  forall i,
    match Variant1.find_type t names i with
    | Some j =>
        i <= j < i + Z.of_nat (List.length names) /\
        nth (Z.to_nat (j - i)) names "" = t /\
        forall k, (k < Z.to_nat (j - i))%nat -> nth k names "" <> t
    | None => ~ In t names
    end.
Proof.
  induction names as [|n names IH]; intros i; cbn [Variant1.find_type].
  - intros [].
  - destruct (String.eqb t n) eqn:E.
    + apply String.eqb_eq in E. subst n. rewrite Z.sub_diag.
      cbn [List.length Z.to_nat nth]. split; [lia|]. split; [reflexivity|].
      intros k Hk. lia.
    + apply String.eqb_neq in E. specialize (IH (i + 1)).
      destruct (Variant1.find_type t names (i + 1)) as [j|].
      * destruct IH as (Range & Here & Before).
        replace (Z.to_nat (j - i)) with (S (Z.to_nat (j - (i + 1)))) by lia.
        cbn [List.length nth]. split; [lia|]. split; [exact Here|].
        intros [|k] Hk; [congruence|]. apply Before. lia.
      * intros [->|Hin]; [congruence|]. exact (IH Hin).
Qed.

Lemma accepted_config_is_a_byte {W : Type} (X : Externals W) (accepts : getopt_result -> bool)
    (inv : invocation) :
  (forall a, accepts (Optc a) = config_in_range X a) ->
  forallb accepts (opts inv) = true ->
  supplied_config X inv = -1 \/ 0 <= supplied_config X inv <= 255.
Proof.
  intros Ac F. unfold supplied_config.
  destruct (last_arg arg_c (opts inv) None) as [a|] eqn:L; [|left; reflexivity].
  right. destruct (last_arg_In _ _ _ L) as (o & Hin & Ho).
  rewrite forallb_forall in F. specialize (F o Hin).
  destruct o; try discriminate Ho. injection Ho as ->.
  rewrite Ac in F. unfold config_in_range in F.
  apply negb_true_iff, orb_false_iff in F. destruct F as [F1 F2].
  apply Z.ltb_ge in F1. rewrite Z.gtb_ltb in F2. apply Z.ltb_ge in F2. lia.
Qed.

Lemma to_uint16_range (z : Z) : 0 <= to_uint16 z < 65536.
Proof. unfold to_uint16. apply Z.mod_pos_bound. lia. Qed.

Lemma descriptors_read_nil_when (evs : list event) :
  (forall e, In e evs ->
             match e with LibusbGetDeviceDescriptor d => [d] | _ => [] end = []) ->
  descriptors_read evs = [].
Proof. apply flat_map_nil_when. Qed.

(** The descriptors read in [evs], piece by piece. *)
Ltac read_descriptors :=
  unfold Variant1.usage_text, selector_message;
  repeat first [rewrite descriptors_read_app
               | progress change (descriptors_read (?e :: ?l))
                   with (match e with LibusbGetDeviceDescriptor d => [d] | _ => [] end
                         ++ descriptors_read l)
               | progress cbn [app]];
  repeat match goal with
    | |- context [descriptors_read ?l] =>
        first [is_var l | match l with logged _ _ _ => idtac end];
        rewrite (descriptors_read_nil_when l)
          by (let e := fresh "e" in
              let He := fresh "He" in
              intros e He; event_cases He; reflexivity)
    | Hs : scanned _ _ ?l |- context [descriptors_read ?l] =>
        rewrite (scanned_descriptors _ _ _ Hs)
    end;
  change (descriptors_read []) with (@nil Z);
  cbn [app]; rewrite ?app_nil_r.

Lemma accepted_type_is_known {W : Type} (X : Externals W) (inv : invocation)
    (t : string) :
  forallb (accepts2 X) (opts inv) = true -> supplied_type inv = Some t ->
  known_type_name t = true.
Proof.
  intros F L. destruct (last_arg_In _ _ _ L) as (o & Hin & Ho).
  rewrite forallb_forall in F. specialize (F o Hin).
  destruct o; try discriminate Ho. injection Ho as ->. exact F.
Qed.

Section Loops.

Context {W : Type}.
Variable X : Externals W.
Variable B : Build.

Lemma usage_argv01 {A : Type} (inv inv' : invocation) :
  argv0 inv' = argv0 inv -> @Variant1.usage W A inv' = Variant1.usage inv.
Proof. unfold Variant1.usage. intros ->. reflexivity. Qed.

Lemma getopt_loop_argv01 (inv inv' : invocation) (os : list getopt_result) :
  argv0 inv' = argv0 inv ->
  forall l, Variant1.getopt_loop X B inv' os l = Variant1.getopt_loop X B inv os l.
Proof.
  intros H. induction os as [|o os IH]; intros l; [reflexivity|].
  destruct o; cbn [Variant1.getopt_loop]; rewrite ?IH, ?(usage_argv01 inv inv' H);
    reflexivity.
Qed.

Lemma getopt_loop_app1 (inv : invocation) (os os' : list getopt_result) :
  forall l st,
    Variant1.getopt_loop X B inv (os ++ os') l st
    = bind (Variant1.getopt_loop X B inv os l)
        (fun l' => Variant1.getopt_loop X B inv os' l') st.
Proof.
  induction os as [|o os IH]; intros l st.
  - cbn [app Variant1.getopt_loop]. unfold bind, ret.
    destruct (Variant1.getopt_loop X B inv os' l st) as [[o evs] st']. reflexivity.
  - destruct o; cbn [app Variant1.getopt_loop]; try apply IH; try reflexivity.
    + destruct ((to_int (strtoul X optarg) <? 0) || (to_int (strtoul X optarg) >? 255));
        [|apply IH].
      unfold bind. rewrite logerror_run, Variant1Facts.usage_run1. reflexivity.
    + unfold bind, get_verbose, set_verbose. rewrite IH. unfold bind.
      destruct (Variant1.getopt_loop X B inv os l _) as [[[l'|z] evs] st1];
        [|reflexivity].
      destruct (Variant1.getopt_loop X B inv os' l' st1) as [[o2 evs2] st2].
      reflexivity.
Qed.

(** At an option that it refuses the loop returns, whatever follows. *)
Lemma getopt_loop_refused1 (inv : invocation) (o : getopt_result)
    (post : list getopt_result) (l : Variant1.locals) (st : state W) :
  accepts1 X o = false ->
  Variant1.getopt_loop X B inv (o :: post) l st
  = Variant1.getopt_loop X B inv [o] l st.
Proof.
  destruct o; cbn [accepts1 Variant1.getopt_loop]; try discriminate;
    try reflexivity.
  unfold config_in_range. intros H. apply negb_false_iff in H. rewrite H.
  reflexivity.
Qed.

Lemma getopt_loop_refused2 (inv : invocation) (o : getopt_result)
    (post : list getopt_result) (l : Variant2.locals) (st : state W) :
  accepts2 X o = false ->
  Variant2.getopt_loop X B inv (o :: post) l st
  = Variant2.getopt_loop X B inv [o] l st.
Proof.
  destruct o; cbn [accepts2 Variant2.getopt_loop]; try discriminate;
    try reflexivity.
  - unfold config_in_range. intros H. apply negb_false_iff in H. rewrite H.
    reflexivity.
  - intros H. rewrite Variant2Facts.known_type_name_strcmp2, H. reflexivity.
Qed.

(** Once a [-D] has been read, the value that [device_id] had before does
    not matter. *)
Lemma getopt_loop_forgets_device1 (inv : invocation) (a : string)
    (os : list getopt_result) :
  In (OptD a) os ->
  forall (l : Variant1.locals) (d d' : option string) (st : state W),
    Variant1.getopt_loop X B inv os
      {| Variant1.firmware_path := Variant1.firmware_path l;
         Variant1.loader_path := Variant1.loader_path l;
         Variant1.device_id := d; Variant1.type := Variant1.type l;
         Variant1.config := Variant1.config l |} st
    = Variant1.getopt_loop X B inv os
        {| Variant1.firmware_path := Variant1.firmware_path l;
           Variant1.loader_path := Variant1.loader_path l;
           Variant1.device_id := d'; Variant1.type := Variant1.type l;
           Variant1.config := Variant1.config l |} st.
Proof.
  induction os as [|o os IH]; intros Hin l d d' st; [destruct Hin|].
  destruct o as [b|b| |b|b|b| | ];
    cbn [Variant1.getopt_loop Variant1.firmware_path Variant1.loader_path
         Variant1.device_id Variant1.type Variant1.config];
    try reflexivity;
    (destruct Hin as [E|Hin]; [discriminate E|]).
  - exact (IH Hin {| Variant1.firmware_path := Some b;
                     Variant1.loader_path := Variant1.loader_path l;
                     Variant1.device_id := None; Variant1.type := Variant1.type l;
                     Variant1.config := Variant1.config l |} d d' st).
  - destruct ((to_int (strtoul X b) <? 0) || (to_int (strtoul X b) >? 255));
      [reflexivity|].
    exact (IH Hin {| Variant1.firmware_path := Variant1.firmware_path l;
                     Variant1.loader_path := Variant1.loader_path l;
                     Variant1.device_id := None; Variant1.type := Variant1.type l;
                     Variant1.config := to_int (strtoul X b) |} d d' st).
  - exact (IH Hin {| Variant1.firmware_path := Variant1.firmware_path l;
                     Variant1.loader_path := Some b;
                     Variant1.device_id := None; Variant1.type := Variant1.type l;
                     Variant1.config := Variant1.config l |} d d' st).
  - exact (IH Hin {| Variant1.firmware_path := Variant1.firmware_path l;
                     Variant1.loader_path := Variant1.loader_path l;
                     Variant1.device_id := None; Variant1.type := Some b;
                     Variant1.config := Variant1.config l |} d d' st).
  - unfold bind, get_verbose, set_verbose. rewrite (IH Hin l d d'). reflexivity.
Qed.

Lemma getopt_loop_forgets_device2 (inv : invocation) (a : string)
    (os : list getopt_result) :
  In (OptD a) os ->
  forall (l : Variant2.locals) (d d' : option string) (st : state W),
    Variant2.getopt_loop X B inv os
      {| Variant2.ihex_path := Variant2.ihex_path l; Variant2.device_path := d;
         Variant2.type := Variant2.type l; Variant2.stage1 := Variant2.stage1 l;
         Variant2.config := Variant2.config l |} st
    = Variant2.getopt_loop X B inv os
        {| Variant2.ihex_path := Variant2.ihex_path l; Variant2.device_path := d';
           Variant2.type := Variant2.type l; Variant2.stage1 := Variant2.stage1 l;
           Variant2.config := Variant2.config l |} st.
Proof.
  induction os as [|o os IH]; intros Hin l d d' st; [destruct Hin|].
  destruct o as [b|b| |b|b|b| | ];
    cbn [Variant2.getopt_loop Variant2.ihex_path Variant2.device_path
         Variant2.type Variant2.stage1 Variant2.config];
    try reflexivity;
    (destruct Hin as [E|Hin]; [discriminate E|]).
  - exact (IH Hin {| Variant2.ihex_path := Some b; Variant2.device_path := None;
                     Variant2.type := Variant2.type l;
                     Variant2.stage1 := Variant2.stage1 l;
                     Variant2.config := Variant2.config l |} d d' st).
  - destruct ((to_int (strtoul X b) <? 0) || (to_int (strtoul X b) >? 255));
      [reflexivity|].
    exact (IH Hin {| Variant2.ihex_path := Variant2.ihex_path l;
                     Variant2.device_path := None;
                     Variant2.type := Variant2.type l;
                     Variant2.stage1 := Variant2.stage1 l;
                     Variant2.config := to_int (strtoul X b) |} d d' st).
  - exact (IH Hin {| Variant2.ihex_path := Variant2.ihex_path l;
                     Variant2.device_path := None;
                     Variant2.type := Variant2.type l;
                     Variant2.stage1 := Some b;
                     Variant2.config := Variant2.config l |} d d' st).
  - destruct (Variant2.strcmp_ne b "an21" && Variant2.strcmp_ne b "fx"
              && Variant2.strcmp_ne b "fx2" && Variant2.strcmp_ne b "fx2lp");
      [reflexivity|].
    exact (IH Hin {| Variant2.ihex_path := Variant2.ihex_path l;
                     Variant2.device_path := None;
                     Variant2.type := Some b;
                     Variant2.stage1 := Variant2.stage1 l;
                     Variant2.config := Variant2.config l |} d d' st).
  - unfold bind, get_verbose, set_verbose. rewrite (IH Hin l d d'). reflexivity.
Qed.

End Loops.

Section Alike.

Context {W : Type}.

Lemma apart_from_verbosity_app (evs evs' : list event) :
  apart_from_verbosity (evs ++ evs')
  = apart_from_verbosity evs ++ apart_from_verbosity evs'.
Proof. apply filter_app. Qed.

Lemma alike_ret {A : Type} (a : A) : alike (@ret W A a) (ret a).
Proof. intros st1 st2 H. cbn. auto. Qed.

Lemma alike_return {A : Type} (z : Z) : alike (@return_ W A z) (return_ z).
Proof. intros st1 st2 H. cbn. auto. Qed.

Lemma alike_bind {A C : Type} (m1 m2 : M W A) (k1 k2 : A -> M W C) :
  alike m1 m2 -> (forall a, alike (k1 a) (k2 a)) ->
  alike (bind m1 k1) (bind m2 k2).
Proof.
  intros Hm Hk st1 st2 H. specialize (Hm st1 st2 H). unfold bind.
  destruct (m1 st1) as [[[a1|z1] e1] s1], (m2 st2) as [[[a2|z2] e2] s2];
    cbn [fst snd] in Hm; destruct Hm as (Ho & He & Hw); try discriminate Ho.
  - injection Ho as <-. specialize (Hk a1 s1 s2 Hw).
    destruct (k1 a1 s1) as [[o1 e1'] s1'], (k2 a1 s2) as [[o2 e2'] s2'].
    cbn [fst snd] in *. destruct Hk as (Ho' & He' & Hw').
    rewrite !apart_from_verbosity_app, He, He'. auto.
  - injection Ho as ->. cbn [fst snd]. auto.
Qed.

Lemma alike_emit (e : event) : alike (@emit W e) (emit e).
Proof. intros st1 st2 H. cbn. auto. Qed.

Lemma alike_set_debug (v1 v2 : Z) :
  alike (@emit W (LibusbSetDebug v1)) (emit (LibusbSetDebug v2)).
Proof. intros st1 st2 H. cbn. auto. Qed.

Lemma alike_call_with {A : Type} (e : A -> event) (f : W -> A * W) :
  alike (call_with e f) (call_with e f).
Proof.
  intros st1 st2 H. unfold call_with. rewrite H.
  destruct (f (world st2)) as [a w]. cbn. auto.
Qed.

Lemma alike_call {A : Type} (e : event) (f : W -> A * W) :
  alike (call e f) (call e f).
Proof. apply alike_call_with. Qed.

Lemma alike_logerror (p : platform) (f1 f2 : string) (a1 a2 : list arg) :
  alike (@logerror W p f1 a1) (logerror p f2 a2).
Proof.
  intros st1 st2 H. rewrite !logerror_run. unfold logged.
  destruct (defined_WIN32 p); cbn; auto.
Qed.

Lemma alike_when_logerror (b1 b2 : bool) (p : platform) (f1 f2 : string)
    (a1 a2 : list arg) :
  alike (@when W b1 (logerror p f1 a1)) (when b2 (logerror p f2 a2)).
Proof.
  intros st1 st2 H. rewrite !when_logerror_run. unfold logged.
  destruct b1, b2, (defined_WIN32 p); cbn; auto.
Qed.

Lemma alike_get_verbose {C : Type} (k1 k2 : Z -> M W C) :
  (forall v1 v2, alike (k1 v1) (k2 v2)) ->
  alike (bind get_verbose k1) (bind get_verbose k2).
Proof.
  intros Hk st1 st2 H. specialize (Hk (verbose st1) (verbose st2) st1 st2 H).
  unfold bind, get_verbose.
  destruct (k1 (verbose st1) st1) as [[o1 e1] s1],
           (k2 (verbose st2) st2) as [[o2 e2] s2].
  exact Hk.
Qed.

(** A [-v] on one side only. *)
Lemma alike_skip_v {C : Type} (m1 m2 : M W C) :
  alike m1 m2 ->
  alike (v <- get_verbose ;; set_verbose (v + 1) ;;; m1) m2.
Proof.
  intros Hm st1 st2 H.
  specialize (Hm {| world := world st1; verbose := verbose st1 + 1 |} st2 H).
  unfold bind, get_verbose, set_verbose. cbn [fst snd].
  destruct (m1 _) as [[o1 e1] s1]. exact Hm.
Qed.

End Alike.

(** Decomposes two pieces of [main] of the same text along their sequences
    and tests. *)
Ltac alike_steps :=
  repeat match goal with
    | |- alike (ret _) (ret _) => apply alike_ret
    | |- alike (return_ _) (return_ _) => apply alike_return
    | |- alike (bind get_verbose _) (bind get_verbose _) =>
        apply alike_get_verbose; intros ? ?
    | |- alike (bind _ _) (bind _ _) => apply alike_bind; [|intro]
    | |- alike (emit (LibusbSetDebug _)) (emit (LibusbSetDebug _)) =>
        apply alike_set_debug
    | |- alike (emit _) (emit _) => apply alike_emit
    | |- alike (call _ _) (call _ _) => apply alike_call
    | |- alike (call_with _ _) (call_with _ _) => apply alike_call_with
    | |- alike (when _ (logerror _ _ _)) (when _ (logerror _ _ _)) =>
        apply alike_when_logerror
    | |- alike (logerror _ _ _) (logerror _ _ _) => apply alike_logerror
    | |- alike (if ?b then _ else _) (if ?b then _ else _) => destruct b
    | |- alike (match ?x with _ => _ end) (match ?x with _ => _ end) => destruct x
    end.

Section AlikeMain.

Context {W : Type}.
Variable X : Externals W.
Variable B : Build.

Lemma alike_getopt_loop1 (inv : invocation) (os : list getopt_result) :
  forall l,
    alike (Variant1.getopt_loop X B inv os l)
          (Variant1.getopt_loop X B inv (filter (fun o => negb (is_v o)) os) l).
Proof.
  induction os as [|o os IH]; intros l; [apply alike_ret|].
  destruct o; cbn [filter is_v negb Variant1.getopt_loop]; try apply IH.
  - unfold Variant1.usage. alike_steps.
  - unfold Variant1.usage. alike_steps. apply IH.
  - apply alike_skip_v, IH.
  - unfold Variant1.usage. alike_steps.
Qed.

Lemma alike_getopt_loop2 (inv : invocation) (os : list getopt_result) :
  forall l,
    alike (Variant2.getopt_loop X B inv os l)
          (Variant2.getopt_loop X B inv (filter (fun o => negb (is_v o)) os) l).
Proof.
  induction os as [|o os IH]; intros l; [apply alike_ret|].
  destruct o; cbn [filter is_v negb Variant2.getopt_loop]; try apply IH.
  - unfold Variant2.usage. alike_steps.
  - unfold Variant2.usage. alike_steps. apply IH.
  - unfold Variant2.usage. alike_steps. apply IH.
  - apply alike_skip_v, IH.
  - unfold Variant2.usage. alike_steps.
Qed.

Lemma alike_scan_devices1 (devs : list Z) (l : Variant1.locals) :
  forall t, alike (Variant1.scan_devices X B devs l t)
                  (Variant1.scan_devices X B devs l t).
Proof.
  induction devs as [|d devs IH]; intros t; [apply alike_ret|].
  cbn [Variant1.scan_devices]. alike_steps; apply IH.
Qed.

Lemma alike_rest1 (inv : invocation) (l : Variant1.locals) :
  alike (df <- Variant1.prepare X B inv l ;;
         status <- Variant1.download X B (fst df) l (snd df)
                     (Variant1.firmware_of l) ;;
         Variant1.out (fst df) status)
        (df <- Variant1.prepare X B inv l ;;
         status <- Variant1.download X B (fst df) l (snd df)
                     (Variant1.firmware_of l) ;;
         Variant1.out (fst df) status).
Proof.
  unfold Variant1.prepare, Variant1.check_options, Variant1.parse_device_id,
    Variant1.determine_type, Variant1.open_device, Variant1.open_found,
    Variant1.claim_interface, Variant1.download, Variant1.out, Variant1.usage.
  alike_steps; try apply alike_scan_devices1.
Qed.

Lemma alike_rest2 (inv : invocation) (l : Variant2.locals) :
  alike (p <- Variant2.prepare X B inv l ;;
         status <- Variant2.download X B (fst (fst p)) l (fst (snd p))
                     (snd (snd p)) (snd (fst p)) ;;
         Variant2.out (fst (fst p)) status)
        (p <- Variant2.prepare X B inv l ;;
         status <- Variant2.download X B (fst (fst p)) l (fst (snd p))
                     (snd (snd p)) (snd (fst p)) ;;
         Variant2.out (fst (fst p)) status).
Proof.
  unfold Variant2.prepare, Variant2.check_options, Variant2.parse_device_path,
    Variant2.open_device, Variant2.download, Variant2.out, Variant2.usage.
  alike_steps.
Qed.

Lemma alike_main_body1 (inv : invocation) :
  alike (Variant1.main_body X B inv) (Variant1.main_body X B (without_v inv)).
Proof.
  unfold Variant1.main_body. apply alike_bind.
  - intros st1 st2 H.
    rewrite (getopt_loop_argv01 X B inv (without_v inv) _ eq_refl).
    apply alike_getopt_loop1, H.
  - intros l. exact (alike_rest1 inv l).
Qed.

Lemma alike_main_body2 (inv : invocation) :
  alike (Variant2.main_body X B inv) (Variant2.main_body X B (without_v inv)).
Proof.
  unfold Variant2.main_body. apply alike_bind.
  - intros st1 st2 H.
    rewrite (Variant2Facts.getopt_loop_argv02 X B inv (without_v inv) _ eq_refl).
    apply alike_getopt_loop2, H.
  - intros l. exact (alike_rest2 inv l).
Qed.

End AlikeMain.

Section RunProperties.

Context {W : Type}.
Variable X : Externals W.
Variable B : Build.

(** X1.  [logerror] never reaches [vsyslog], and reaches [vfprintf] only
    in a build with [_WIN32], on the error stream: of the calls that a run
    of either [main] makes, none is [vsyslog], and a call of [vfprintf]
    is on [stderr] in a build with [_WIN32].  Built without [_WIN32], no
    message given to [logerror] is written. *)
Theorem logerror_writes_only_with_WIN32 (inv : invocation) (st : state W) :
  Forall (fun e => match e with
                   | Vsyslog _ _ _ => False
                   | Vfprintf f _ _ => f = stderr /\ target B = Windows
                   | _ => True
                   end)
         (snd (fst (Variant1.main X B inv st))) /\
  Forall (fun e => match e with
                   | Vsyslog _ _ _ => False
                   | Vfprintf f _ _ => f = stderr /\ target B = Windows
                   | _ => True
                   end)
         (snd (fst (Variant2.main X B inv st))).
Proof.
  assert (Win32 : defined_WIN32 (target B) = true -> target B = Windows).
  { destruct (target B); [reflexivity|discriminate|discriminate]. }
  split; apply Forall_forall; intros e He.
  - pose proof (Run1Facts.main_shape1 X B inv st) as R.
    destruct (Variant1.main X B inv st) as [[z evs] st']. cbn [fst snd] in *.
    destruct R;
      try match goal with Ho : opening1 _ _ _ _ _ _ |- _ => destruct Ho end;
      event_cases He; try exact I; (split; [reflexivity|auto]).
  - pose proof (Run2Facts.main_shape2 X B inv st) as R.
    destruct (Variant2.main X B inv st) as [[z evs] st']. cbn [fst snd] in *.
    destruct R; event_cases He; try exact I; (split; [reflexivity|auto]).
Qed.

(** X2.  The interface is released and the handle closed only after a
    download pass, and then always: once a pass has taken place, whatever
    its status, the run ends with the release of the interface, the
    closing of the handle of the passes and [libusb_exit], and [main]
    returns the status of the last pass.  A run without a pass, also one
    that has opened the device, never gives the handle back. *)
Theorem download_ends_in_cleanup (inv : invocation) (st : state W) :
  ((passes (snd (fst (Variant1.main X B inv st))) = [] /\
    filter is_cleanup (snd (fst (Variant1.main X B inv st))) = []) \/
   exists d front,
     snd (fst (Variant1.main X B inv st))
     = front ++ [LibusbReleaseInterface d 0; LibusbClose d; LibusbExit] /\
     filter is_cleanup front = [] /\
     is_load (last front LibusbInit) = true /\
     handle_of (last front LibusbInit) = Some d /\
     returned (last front LibusbInit) = fst (fst (Variant1.main X B inv st)))
  /\
  ((passes (snd (fst (Variant2.main X B inv st))) = [] /\
    filter is_cleanup (snd (fst (Variant2.main X B inv st))) = []) \/
   exists d front,
     snd (fst (Variant2.main X B inv st))
     = front ++ [LibusbReleaseInterface d 0; LibusbClose d; LibusbExit] /\
     filter is_cleanup front = [] /\
     is_load (last front LibusbInit) = true /\
     handle_of (last front LibusbInit) = Some d /\
     returned (last front LibusbInit) = fst (fst (Variant2.main X B inv st))).
Proof.
  split.
  - pose proof (Run1Facts.main_shape1 X B inv st) as R.
    destruct (Variant1.main X B inv st) as [[z evs] st']. cbn [fst snd] in *.
    destruct R;
      try match goal with Ho : opening1 _ _ _ _ _ _ |- _ => destruct Ho end;
      try (left; unfold passes; split; select_events; reflexivity).
    all: right;
      match goal with
      | Hd : downloaded _ ?d _ _ _ _ _ _ _ |- _ =>
          destruct (download_before_cleanup _ _ _ _ _ _ _ _ _ Hd)
            as (front & e & -> & Hf & Ce & Il & Hh & Hr);
          exists d
      end.
    + eexists ((_ :: _ :: _ :: cs ++ msgs ++ front) ++ [e]).
      split; [same_events|]. rewrite last_last. split; [|auto].
      select_events. rewrite Hf, Ce. reflexivity.
    + eexists ((_ :: _ :: _ :: (scan ++ [_; _]) ++ cs ++ msgs ++ front) ++ [e]).
      split; [same_events|]. rewrite last_last. split; [|auto].
      select_events. rewrite Hf, Ce. reflexivity.
  - pose proof (Run2Facts.main_shape2 X B inv st) as R.
    destruct (Variant2.main X B inv st) as [[z evs] st']. cbn [fst snd] in *.
    destruct R; try (left; unfold passes; split; select_events; reflexivity).
    right.
    match goal with
    | Hd : downloaded _ ?d _ _ _ _ _ _ _ |- _ =>
        destruct (download_before_cleanup _ _ _ _ _ _ _ _ _ Hd)
          as (front & e & -> & Hf & Ce & Il & Hh & Hr);
        exists d
    end.
    eexists ((_ :: _ :: _ :: cs ++ msgs ++ front) ++ [e]).
    split; [same_events|]. rewrite last_last. split; [|auto].
    select_events. rewrite Hf, Ce. reflexivity.
Qed.



(** X5.  The second [main] never uses a null handle: every claim, detach,
    download pass, release and close of a run is on the handle that
    [libusb_open_device_with_vid_pid] returned, which is not [NULL]. *)
Theorem handle_is_the_opened_one2 (inv : invocation) (st : state W) :
  Forall (fun e => match handle_of e with
                   | Some d => d = opened_handle2 X inv (world st) /\ d <> NULL
                   | None => True
                   end)
         (snd (fst (Variant2.main X B inv st))).
Proof.
  pose proof (Run2Facts.main_shape2 X B inv st) as R.
  destruct (Variant2.main X B inv st) as [[z evs] st']. cbn [fst snd] in *.
  apply Forall_forall. intros e He.
  destruct R; event_cases He; cbn [handle_of]; auto.
Qed.

(** X6.  A run of the first [main] uses one handle: every claim, detach,
    download pass, release and close is on the same handle, which is not
    [NULL] when the device was opened directly by its vid:pid. *)
Theorem one_handle_per_run1 (inv : invocation) (st : state W) :
  exists d,
    (both_supplied inv = true -> d <> NULL) /\
    Forall (fun e => match handle_of e with
                     | Some d' => d' = d
                     | None => True
                     end)
           (snd (fst (Variant1.main X B inv st))).
Proof.
  pose proof (Run1Facts.main_shape1 X B inv st) as R.
  destruct (Variant1.main X B inv st) as [[z evs] st']. cbn [fst snd] in *.
  destruct R;
    try match goal with
      | Ho : opening1 _ _ _ _ ?d _ |- _ => exists d; destruct Ho
      end;
    try (exists 1);
    (split; [try (intros _; assumption); try congruence; try discriminate|]);
    apply Forall_forall; intros e He; event_cases He; cbn [handle_of]; auto.
Qed.

(** X7.  The interface is claimed once, or, built with [__linux__] only,
    claimed, the kernel driver detached and claimed again: never more, and
    never a detach on another platform. *)
Theorem claim_then_detach_on_linux_only (inv : invocation) (st : state W) :
  (filter (fun e => is_claim e || is_detach e) (snd (fst (Variant1.main X B inv st)))
   = [] \/
   exists d,
     claimed (target B) d
       (filter (fun e => is_claim e || is_detach e)
               (snd (fst (Variant1.main X B inv st)))))
  /\
  (filter (fun e => is_claim e || is_detach e) (snd (fst (Variant2.main X B inv st)))
   = [] \/
   exists d,
     claimed (target B) d
       (filter (fun e => is_claim e || is_detach e)
               (snd (fst (Variant2.main X B inv st))))).
Proof.
  split.
  - pose proof (Run1Facts.main_shape1 X B inv st) as R.
    destruct (Variant1.main X B inv st) as [[z evs] st']. cbn [fst snd] in *.
    destruct R;
      try match goal with Ho : opening1 _ _ _ _ _ _ |- _ => destruct Ho end;
      try (left; select_events; reflexivity);
      right;
      match goal with
      | Hc : claimed _ ?d ?cs |- _ =>
          exists d; select_events;
          rewrite (claimed_selected _ _ _ Hc), ?app_nil_r; exact Hc
      end.
  - pose proof (Run2Facts.main_shape2 X B inv st) as R.
    destruct (Variant2.main X B inv st) as [[z evs] st']. cbn [fst snd] in *.
    destruct R;
      try (left; select_events; reflexivity);
      right;
      match goal with
      | Hc : claimed _ ?d ?cs |- _ =>
          exists d; select_events;
          rewrite (claimed_selected _ _ _ Hc), ?app_nil_r; exact Hc
      end.
Qed.

(** X8.  The level given to [libusb_set_debug] is the initial value of
    [verbose] plus the number of [-v] options, and it is given at most
    once. *)
Theorem debug_level_counts_v_options (inv : invocation) (st : state W) :
  (filter is_set_debug (snd (fst (Variant1.main X B inv st))) = [] \/
   filter is_set_debug (snd (fst (Variant1.main X B inv st)))
   = [LibusbSetDebug (verbose st + count_v (opts inv))])
  /\
  (filter is_set_debug (snd (fst (Variant2.main X B inv st))) = [] \/
   filter is_set_debug (snd (fst (Variant2.main X B inv st)))
   = [LibusbSetDebug (verbose st + count_v (opts inv))]).
Proof.
  split.
  - pose proof (Run1Facts.main_shape1 X B inv st) as R.
    destruct (Variant1.main X B inv st) as [[z evs] st']. cbn [fst snd] in *.
    destruct R;
      try match goal with Ho : opening1 _ _ _ _ _ _ |- _ => destruct Ho end;
      try (left; select_events; reflexivity);
      right; select_events; reflexivity.
  - pose proof (Run2Facts.main_shape2 X B inv st) as R.
    destruct (Variant2.main X B inv st) as [[z evs] st']. cbn [fst snd] in *.
    destruct R;
      try (left; select_events; reflexivity);
      right; select_events; reflexivity.
Qed.

Lemma eeprom_request1 (inv : invocation) :
  well_formed1 X B inv = true -> 0 <= supplied_config X inv ->
  supplied_type inv <> None /\ 0 <= supplied_config X inv <= 255.
Proof.
  intros Wf Cf. unfold well_formed1 in Wf. tests.
  split.
  - match goal with
    | Ho : (_ <? 0) || _ = true |- _ =>
        apply orb_true_iff in Ho; destruct Ho as [Ho|Ho];
        [tests; lia
        |destruct (supplied_type inv); [discriminate|cbn in Ho; discriminate Ho]]
    end.
  - destruct (accepted_config_is_a_byte X (accepts1 X) inv (fun a => eq_refl));
      [assumption|lia|assumption].
Qed.

Lemma eeprom_request2 (inv : invocation) :
  well_formed2 X inv = true -> 0 <= supplied_config X inv ->
  supplied_type inv <> None /\ 0 <= supplied_config X inv <= 255.
Proof.
  intros Wf Cf. unfold well_formed2 in Wf. tests.
  split.
  - match goal with
    | Ho : (_ <? 0) || _ = true |- _ =>
        apply orb_true_iff in Ho; destruct Ho as [Ho|Ho];
        [tests; lia
        |destruct (supplied_type inv); [discriminate|cbn in Ho; discriminate Ho]]
    end.
  - destruct (accepted_config_is_a_byte X (accepts2 X) inv (fun a => eq_refl));
      [assumption|lia|assumption].
Qed.

(** X9.  The lookup of a type name in [fx_name]: the index found is that
    of the first entry equal to the name; nothing is found only when no
    entry is equal to it. *)
Theorem find_type_gives_the_first_index (t : string) (names : list string) :
  match Variant1.find_type t names 0 with
  | Some j =>
      0 <= j < Z.of_nat (List.length names) /\
      nth (Z.to_nat j) names "" = t /\
      forall k, (k < Z.to_nat j)%nat -> nth k names "" <> t
  | None => ~ In t names
  end.
Proof.
  pose proof (find_type_from t names 0) as H.
  destruct (Variant1.find_type t names 0) as [j|]; [|exact H].
  rewrite Z.sub_0_r in H. exact H.
Qed.

(** X10.  The EEPROM is written at most once in a run, and only after the
    loader has been loaded with status 0, with the firmware and the config
    byte supplied, the config byte being in 0..255 and a type having been
    named; its status is what [main] returns. *)
Theorem eeprom_written_after_loader_with_a_byte (inv : invocation) (st : state W) :
  (filter is_eeprom (snd (fst (Variant1.main X B inv st))) = [] \/
   exists d loader firmware fx ty front,
     supplied_loader inv = Some loader /\
     supplied_firmware inv = Some firmware /\
     supplied_type inv <> None /\
     0 <= supplied_config X inv <= 255 /\
     snd (fst (Variant1.main X B inv st))
     = front ++ [EzusbLoadRam d loader fx 0 0;
                 EzusbLoadEeprom d firmware ty (supplied_config X inv)
                   (fst (fst (Variant1.main X B inv st)));
                 LibusbReleaseInterface d 0; LibusbClose d; LibusbExit] /\
     filter is_eeprom front = [])
  /\
  (filter is_eeprom (snd (fst (Variant2.main X B inv st))) = [] \/
   exists d loader firmware fx ty front,
     supplied_loader inv = Some loader /\
     supplied_firmware inv = Some firmware /\
     supplied_type inv <> None /\
     0 <= supplied_config X inv <= 255 /\
     snd (fst (Variant2.main X B inv st))
     = front ++ [EzusbLoadRam d loader fx 0 0;
                 EzusbLoadEeprom d firmware ty (supplied_config X inv)
                   (fst (fst (Variant2.main X B inv st)));
                 LibusbReleaseInterface d 0; LibusbClose d; LibusbExit] /\
     filter is_eeprom front = []).
Proof.
  split.
  - pose proof (Run1Facts.main_shape1 X B inv st) as R.
    destruct (Variant1.main X B inv st) as [[z evs] st']. cbn [fst snd] in *.
    destruct R;
      try match goal with Ho : opening1 _ _ _ _ _ _ |- _ => destruct Ho end;
      try (left; select_events; reflexivity).
    all: match goal with
         | Hd : downloaded _ _ _ _ _ _ _ _ _ |- _ =>
             destruct Hd as [m s Hl Hm|l m s Hl Hm Hs|l m s Hl Hm Hc|l m s Hl Hm Hc]
         end;
      try (left; select_events; reflexivity).
    + right.
      eexists d, l, firmware, fx, (AInt fx), (_ :: _ :: _ :: cs ++ msgs ++ m).
      destruct (eeprom_request1 inv) as [Ty Cf]; [assumption|assumption|].
      repeat (split; [assumption|]).
      split; [same_events|select_events; reflexivity].
    + right.
      eexists d, l, firmware, fx, (AInt fx),
        (_ :: _ :: (_ :: scan ++ [_; _]) ++ cs ++ msgs ++ m).
      destruct (eeprom_request1 inv) as [Ty Cf]; [assumption|assumption|].
      repeat (split; [assumption|]).
      split; [same_events|select_events; reflexivity].
  - pose proof (Run2Facts.main_shape2 X B inv st) as R.
    destruct (Variant2.main X B inv st) as [[z evs] st']. cbn [fst snd] in *.
    destruct R; try (left; select_events; reflexivity).
    match goal with
    | Hd : downloaded _ _ _ _ _ _ _ _ _ |- _ =>
        destruct Hd as [m s Hl Hm|l m s Hl Hm Hs|l m s Hl Hm Hc|l m s Hl Hm Hc]
    end;
      try (left; select_events; reflexivity).
    right.
    eexists _, l, firmware, _, _, (_ :: _ :: _ :: cs ++ msgs ++ m).
    destruct (eeprom_request2 inv) as [Ty Cf]; [assumption|assumption|].
    repeat (split; [assumption|]).
    split; [same_events|select_events; reflexivity].
Qed.

(** X11.  The device that is opened directly is the one that the selector
    names (the last [-D], or else [DEVICE]), its vid and pid reduced to 16
    bits. *)
Theorem device_opened_by_vid_pid_of_16_bits (inv : invocation) (st : state W) :
  Forall (fun e => match e with
                   | LibusbOpenDeviceWithVidPid v p =>
                       v = fst (selector1 X inv) mod 65536 /\
                       p = snd (selector1 X inv) mod 65536 /\
                       0 <= v < 65536 /\ 0 <= p < 65536
                   | _ => True
                   end)
         (snd (fst (Variant1.main X B inv st))) /\
  Forall (fun e => match e with
                   | LibusbOpenDeviceWithVidPid v p =>
                       v = fst (snd (selector2 X inv)) mod 65536 /\
                       p = snd (snd (selector2 X inv)) mod 65536 /\
                       0 <= v < 65536 /\ 0 <= p < 65536
                   | _ => True
                   end)
         (snd (fst (Variant2.main X B inv st))).
Proof.
  split; apply Forall_forall; intros e He.
  - pose proof (Run1Facts.main_shape1 X B inv st) as R.
    destruct (Variant1.main X B inv st) as [[z evs] st']. cbn [fst snd] in *.
    destruct R;
      try match goal with Ho : opening1 _ _ _ _ _ _ |- _ => destruct Ho end;
      event_cases He; try exact I;
      repeat split; try reflexivity; apply to_uint16_range.
  - pose proof (Run2Facts.main_shape2 X B inv st) as R.
    destruct (Variant2.main X B inv st) as [[z evs] st']. cbn [fst snd] in *.
    destruct R; event_cases He; try exact I;
      repeat split; try reflexivity; apply to_uint16_range.
Qed.

(** X12.  The first [main] enumerates the bus only when the type or the
    device is missing: with both supplied it makes none of the calls of
    the enumeration, and otherwise it never opens a device by vid:pid. *)
Theorem enumeration_only_for_what_is_missing (inv : invocation) (st : state W) :
  Forall (fun e => if both_supplied inv then is_enumeration e = false
                   else match e with
                        | LibusbOpenDeviceWithVidPid _ _ => False
                        | _ => True
                        end)
         (snd (fst (Variant1.main X B inv st))).
Proof.
  apply Forall_forall; intros e He.
  pose proof (Run1Facts.main_shape1 X B inv st) as R.
  destruct (Variant1.main X B inv st) as [[z evs] st']. cbn [fst snd] in *.
  destruct R;
    try match goal with Ho : opening1 _ _ _ _ _ _ |- _ => destruct Ho end;
    try match goal with Hb : both_supplied _ = _ |- _ => rewrite Hb end;
    event_cases He; try reflexivity; try exact I;
    destruct (both_supplied inv); try reflexivity; exact I.
Qed.

(** X13.  The device loop reads the descriptors of the first devices of the
    list, in order and each once, as far as the device that it opens: the
    device given to [libusb_open] is the last one whose descriptor was
    read. *)
Theorem descriptors_read_up_to_the_device_opened (inv : invocation) (st : state W) :
  (exists rest,
      device_list X (world st)
      = descriptors_read (snd (fst (Variant1.main X B inv st))) ++ rest) /\
  Forall (fun e => match e with
                   | LibusbOpen dv =>
                       last (descriptors_read (snd (fst (Variant1.main X B inv st))))
                            NULL = dv
                   | _ => True
                   end)
         (snd (fst (Variant1.main X B inv st))).
Proof.
  pose proof (Run1Facts.main_shape1 X B inv st) as R.
  destruct (Variant1.main X B inv st) as [[z evs] st']. cbn [fst snd] in *.
  destruct R;
    try match goal with Ho : opening1 _ _ _ _ _ _ |- _ => destruct Ho end.
  all: split;
    [read_descriptors|apply Forall_forall; intros e He; event_cases He; try exact I].
  all: try (eexists; cbn [app]; reflexivity).
  all: try match goal with
         | Hl : device_list _ _ = _ |- _ => rewrite Hl
         end.
  all: try (eexists; rewrite <- ?app_assoc; cbn [app]; reflexivity).
  all: read_descriptors; apply last_last.
Qed.

(** X14.  In the first [main], every download pass is given a determined
    [fx_type], never the undefined one that [main] starts with: with a
    type named, the valid index of the first entry of [fx_name] equal to
    the name; with none, the type of an entry of the table of known
    devices. *)
Theorem passes_get_a_determined_type1 (inv : invocation) (st : state W) :
  Forall (fun e => match e with
                   | EzusbLoadRam _ _ fx _ _ => determined_type1 B inv fx
                   | EzusbLoadEeprom _ _ ty _ _ =>
                       exists fx, ty = AInt fx /\ determined_type1 B inv fx
                   | _ => True
                   end)
         (snd (fst (Variant1.main X B inv st))).
Proof.
  apply Forall_forall; intros e He.
  pose proof (Run1Facts.main_shape1 X B inv st) as R.
  destruct (Variant1.main X B inv st) as [[z evs] st']. cbn [fst snd] in *.
  destruct R;
    try match goal with Ho : opening1 _ _ _ _ _ _ |- _ => destruct Ho end;
    event_cases He; try exact I.
  all: assert (Dt : determined_type1 B inv fx);
    [|solve [exact Dt|exists fx; split; [reflexivity|exact Dt]]].
  all: unfold determined_type1.
  all: match goal with
       | Hw : well_formed1 _ _ _ = true,
         Hf : supplied_type _ <> None -> _ = requested_type1 _ _,
         Hk : supplied_type _ = None -> _ |- _ =>
           unfold well_formed1 in Hw; tests;
           destruct (supplied_type inv) as [t|] eqn:St; [|exact (Hk eq_refl)];
           rewrite Hf by congruence; unfold requested_type1; rewrite St
       end.
  all: pose proof (find_type_from t (fx_name B) 0) as Ft.
  all: destruct (Variant1.find_type t (fx_name B) 0) as [i|]; [|discriminate].
  all: rewrite Z.sub_0_r in Ft; destruct Ft as (Range & Here & _).
  all: unfold FX_TYPE_MAX; auto.
Qed.

(** X15.  In the second [main], every download pass into RAM is given the
    number of the type named last: 2 for fx2lp, 1 for fx2, 0 for an21, for
    fx, and when no type is named.  The EEPROM pass is given the name
    itself, which is one of the four names. *)
Theorem passes_get_the_number_of_the_type2 (inv : invocation) (st : state W) :
  Forall (fun e => match e with
                   | EzusbLoadRam _ _ fx2 _ _ =>
                       fx2 = match supplied_type inv with
                             | Some t =>
                                 if String.eqb t "fx2lp" then 2
                                 else if String.eqb t "fx2" then 1 else 0
                             | None => 0
                             end
                   | EzusbLoadEeprom _ _ ty _ _ =>
                       exists t,
                         supplied_type inv = Some t /\ ty = AStr t /\
                         known_type_name t = true
                   | _ => True
                   end)
         (snd (fst (Variant2.main X B inv st))).
Proof.
  apply Forall_forall; intros e He.
  pose proof (Run2Facts.main_shape2 X B inv st) as R.
  destruct (Variant2.main X B inv st) as [[z evs] st']. cbn [fst snd] in *.
  destruct R; event_cases He; try exact I.
  - unfold Variant2.resolve_type. destruct (supplied_type inv) as [t|]; [|reflexivity].
    destruct (String.eqb t "fx2lp"); reflexivity.
  - match goal with
    | Hw : well_formed2 _ _ = true |- _ =>
        destruct (eeprom_request2 inv Hw) as [Ty _]; [assumption|];
        unfold well_formed2 in Hw; tests
    end.
    destruct (supplied_type inv) as [t|] eqn:St; [|congruence].
    exists t. split; [reflexivity|]. split.
    + unfold Variant2.resolve_type. destruct (String.eqb t "fx2lp"); reflexivity.
    + eapply accepted_type_is_known; eassumption.
Qed.

(** X16.  The option loop returns at the first option that it refuses
    ([-V], [-?], a config byte out of range and, in the second [main], an
    unknown type): the options after it have no effect on the run. *)
Theorem options_after_a_refused_one_are_ignored (name : string)
    (pre post : list getopt_result) (o : getopt_result) (device : option string)
    (st : state W) :
  (accepts1 X o = false ->
   Variant1.main X B {| argv0 := name; opts := pre ++ o :: post; DEVICE := device |} st
   = Variant1.main X B {| argv0 := name; opts := pre ++ [o]; DEVICE := device |} st)
  /\
  (accepts2 X o = false ->
   Variant2.main X B {| argv0 := name; opts := pre ++ o :: post; DEVICE := device |} st
   = Variant2.main X B {| argv0 := name; opts := pre ++ [o]; DEVICE := device |} st).
Proof.
  split; intros Refused.
  - unfold Variant1.main, Variant1.main_body. cbn [opts].
    rewrite (bind_ext _
               (Variant1.getopt_loop X B
                  {| argv0 := name; opts := pre ++ [o]; DEVICE := device |}
                  (pre ++ [o])
                  (Variant1.locals0
                     {| argv0 := name; opts := pre ++ [o]; DEVICE := device |}))
               _ (fun l =>
                    df <- Variant1.prepare X B
                            {| argv0 := name; opts := pre ++ [o]; DEVICE := device |}
                            l ;;
                    status <- Variant1.download X B (fst df) l (snd df)
                                (Variant1.firmware_of l) ;;
                    Variant1.out (fst df) status)); [reflexivity| |reflexivity].
    rewrite (getopt_loop_argv01 X B
               {| argv0 := name; opts := pre ++ [o]; DEVICE := device |}
               {| argv0 := name; opts := pre ++ o :: post; DEVICE := device |}
               _ eq_refl).
    rewrite !getopt_loop_app1. apply bind_ext; [reflexivity|].
    intros l evs st1 _. apply getopt_loop_refused1, Refused.
  - unfold Variant2.main, Variant2.main_body. cbn [opts].
    rewrite (bind_ext _
               (Variant2.getopt_loop X B
                  {| argv0 := name; opts := pre ++ [o]; DEVICE := device |}
                  (pre ++ [o])
                  (Variant2.locals0
                     {| argv0 := name; opts := pre ++ [o]; DEVICE := device |}))
               _ (fun l =>
                    p <- Variant2.prepare X B
                           {| argv0 := name; opts := pre ++ [o]; DEVICE := device |}
                           l ;;
                    status <- Variant2.download X B (fst (fst p)) l (fst (snd p))
                                (snd (snd p)) (snd (fst p)) ;;
                    Variant2.out (fst (fst p)) status)); [reflexivity| |reflexivity].
    rewrite (Variant2Facts.getopt_loop_argv02 X B
               {| argv0 := name; opts := pre ++ [o]; DEVICE := device |}
               {| argv0 := name; opts := pre ++ o :: post; DEVICE := device |}
               _ eq_refl).
    rewrite !Variant2Facts.getopt_loop_app2. apply bind_ext; [reflexivity|].
    intros l evs st1 _. apply getopt_loop_refused2, Refused.
Qed.

(** X17.  [-D] overrides [DEVICE]: with a [-D] among the options, the run
    is the same whatever the environment holds. *)
Theorem option_D_overrides_the_environment (name : string)
    (os : list getopt_result) (a : string) (device device' : option string)
    (st : state W) :
  In (OptD a) os ->
  Variant1.main X B {| argv0 := name; opts := os; DEVICE := device |} st
  = Variant1.main X B {| argv0 := name; opts := os; DEVICE := device' |} st
  /\
  Variant2.main X B {| argv0 := name; opts := os; DEVICE := device |} st
  = Variant2.main X B {| argv0 := name; opts := os; DEVICE := device' |} st.
Proof.
  intros Hin. split.
  - unfold Variant1.main, Variant1.main_body. cbn [opts].
    rewrite (bind_ext _
               (Variant1.getopt_loop X B
                  {| argv0 := name; opts := os; DEVICE := device' |} os
                  (Variant1.locals0
                     {| argv0 := name; opts := os; DEVICE := device' |}))
               _ (fun l =>
                    df <- Variant1.prepare X B
                            {| argv0 := name; opts := os; DEVICE := device' |} l ;;
                    status <- Variant1.download X B (fst df) l (snd df)
                                (Variant1.firmware_of l) ;;
                    Variant1.out (fst df) status)); [reflexivity| |reflexivity].
    rewrite (getopt_loop_argv01 X B
               {| argv0 := name; opts := os; DEVICE := device' |}
               {| argv0 := name; opts := os; DEVICE := device |} _ eq_refl).
    exact (getopt_loop_forgets_device1 X B _ a os Hin
             {| Variant1.firmware_path := None; Variant1.loader_path := None;
                Variant1.device_id := None; Variant1.type := None;
                Variant1.config := -1 |} device device' st).
  - unfold Variant2.main, Variant2.main_body. cbn [opts].
    rewrite (bind_ext _
               (Variant2.getopt_loop X B
                  {| argv0 := name; opts := os; DEVICE := device' |} os
                  (Variant2.locals0
                     {| argv0 := name; opts := os; DEVICE := device' |}))
               _ (fun l =>
                    p <- Variant2.prepare X B
                           {| argv0 := name; opts := os; DEVICE := device' |} l ;;
                    status <- Variant2.download X B (fst (fst p)) l (fst (snd p))
                                (snd (snd p)) (snd (fst p)) ;;
                    Variant2.out (fst (fst p)) status)); [reflexivity| |reflexivity].
    rewrite (Variant2Facts.getopt_loop_argv02 X B
               {| argv0 := name; opts := os; DEVICE := device' |}
               {| argv0 := name; opts := os; DEVICE := device |} _ eq_refl).
    exact (getopt_loop_forgets_device2 X B _ a os Hin
             {| Variant2.ihex_path := None; Variant2.device_path := None;
                Variant2.type := None; Variant2.stage1 := None;
                Variant2.config := -1 |} device device' st).
Qed.

(** X18.  Verbosity changes no call: with the [-v] options taken away and
    whatever the value of [verbose] at the start, [main] returns the same
    status and makes the same calls with the same arguments, in the same
    order, apart from the level given to [libusb_set_debug], and writes
    the same apart from the lines of [logerror]. *)
Theorem verbosity_changes_no_call (inv : invocation) (st1 st2 : state W) :
  world st1 = world st2 ->
  (fst (fst (Variant1.main X B inv st1))
   = fst (fst (Variant1.main X B (without_v inv) st2)) /\
   apart_from_verbosity (snd (fst (Variant1.main X B inv st1)))
   = apart_from_verbosity (snd (fst (Variant1.main X B (without_v inv) st2))))
  /\
  (fst (fst (Variant2.main X B inv st1))
   = fst (fst (Variant2.main X B (without_v inv) st2)) /\
   apart_from_verbosity (snd (fst (Variant2.main X B inv st1)))
   = apart_from_verbosity (snd (fst (Variant2.main X B (without_v inv) st2)))).
Proof.
  intros H. split.
  - destruct (alike_main_body1 X B inv st1 st2 H) as (Ho & He & _).
    unfold Variant1.main.
    destruct (Variant1.main_body X B inv st1) as [[[a1|z1] e1] s1],
             (Variant1.main_body X B (without_v inv) st2) as [[[a2|z2] e2] s2];
      cbn [fst snd] in *; try discriminate Ho; split; congruence.
  - destruct (alike_main_body2 X B inv st1 st2 H) as (Ho & He & _).
    unfold Variant2.main.
    destruct (Variant2.main_body X B inv st1) as [[[a1|z1] e1] s1],
             (Variant2.main_body X B (without_v inv) st2) as [[[a2|z2] e2] s2];
      cbn [fst snd] in *; try discriminate Ho; split; congruence.
Qed.

(** X19.  A match of a descriptor in the table of known devices never
    contradicts the table, the device or what was supplied: the entry is
    in the table, [fx_type], [vid] and [pid] are then those of the entry
    and of the descriptor, and what was supplied is kept.  With the type
    and the device both supplied nothing matches. *)
Theorem match_agrees_with_table_device_and_caller (known : list fx_known_device)
    (desc : libusb_device_descriptor) (tn dn : bool) (fx v p : Z) :
  match Variant1.match_known known desc tn dn fx v p with
  | Some (k, (fx', (v', p'))) =>
      In k known /\ (tn = true \/ dn = true) /\
      fx' = known_type k /\
      v' = known_vid k /\ v' = idVendor desc /\
      p' = known_pid k /\ p' = idProduct desc /\
      (tn = false -> fx' = fx) /\
      (dn = false -> v' = v /\ p' = p)
  | None => True
  end.
Proof.
  induction known as [|k1 known IH]; cbn [Variant1.match_known]; [exact I|].
  assert (Next :
            match Variant1.match_known known desc tn dn fx v p with
            | Some (k, (fx', (v', p'))) =>
                In k (k1 :: known) /\ (tn = true \/ dn = true) /\
                fx' = known_type k /\
                v' = known_vid k /\ v' = idVendor desc /\
                p' = known_pid k /\ p' = idProduct desc /\
                (tn = false -> fx' = fx) /\
                (dn = false -> v' = v /\ p' = p)
            | None => True
            end).
  { destruct (Variant1.match_known known desc tn dn fx v p)
      as [[k [fx' [v' p']]]|]; [|exact I].
    destruct IH as [Hin Rest]. split; [right; exact Hin|exact Rest]. }
  destruct ((idVendor desc =? known_vid k1) && (idProduct desc =? known_pid k1))
    eqn:Same; [|exact Next].
  apply andb_true_iff in Same. destruct Same as [Sv Sp].
  apply Z.eqb_eq in Sv. apply Z.eqb_eq in Sp.
  destruct tn, dn; cbn [andb].
  - repeat split; auto; first [left; reflexivity|congruence].
  - destruct ((v =? idVendor desc) && (p =? idProduct desc)) eqn:Sel;
      [|exact Next].
    apply andb_true_iff in Sel. destruct Sel as [Ev Ep].
    apply Z.eqb_eq in Ev. apply Z.eqb_eq in Ep.
    repeat split; auto; first [left; reflexivity|congruence].
  - destruct (fx =? known_type k1) eqn:Ty; [|exact Next].
    apply Z.eqb_eq in Ty.
    repeat split; auto; first [left; reflexivity|congruence].
  - exact Next.
Qed.

(** X20.  When [libusb_get_device_list] fails, the first [main] reports it
    with the name of the status of [libusb_init], which succeeded, and
    not of the failure: [status] is not assigned by that call.  The run
    then ends with [libusb_exit] and returns -1. *)
Theorem list_failure_is_reported_with_the_status_of_init (inv : invocation)
    (st : state W) :
  well_formed1 X B inv = true -> 0 <= init_status X (world st) ->
  both_supplied inv = false -> list_status X (world st) < 0 ->
  fst (Variant1.main X B inv st)
  = (-1,
     [LibusbInit; LibusbSetDebug (verbose st + count_v (opts inv));
      LibusbGetDeviceList]
     ++ logged (target B) ("libusb_get_device_list() failed: %s" ++ nl)
          [AStr (libusb_error_name X (init_status X (world st)))]
     ++ [LibusbExit]).
Proof.
  intros Wf Si Bs Ls.
  pose proof (Run1Facts.main_shape1 X B inv st) as R.
  destruct (Variant1.main X B inv st) as [[z evs] st']. cbn [fst snd] in *.
  destruct R;
    try match goal with Ho : opening1 _ _ _ _ _ _ |- _ => destruct Ho end;
    try congruence; try lia.
  reflexivity.
Qed.

(** X21.  The first [main] obtains the device list at most once and frees
    it at most once, after it has obtained it.  It returns without freeing
    it only when [libusb_get_device_list] fails or, the list obtained and a
    known device found, when [libusb_open] of that device fails. *)
Theorem device_list_freed_unless_open_fails (inv : invocation) (st : state W) :
  filter is_listing (snd (fst (Variant1.main X B inv st))) = []
  \/
  filter is_listing (snd (fst (Variant1.main X B inv st)))
  = [LibusbGetDeviceList; LibusbFreeDeviceList]
  \/
  (filter is_listing (snd (fst (Variant1.main X B inv st))) = [LibusbGetDeviceList] /\
   fst (fst (Variant1.main X B inv st)) = -1 /\
   (list_status X (world st) < 0 \/
    (0 <= list_status X (world st) /\
     exists front dv msgs,
       snd (fst (Variant1.main X B inv st))
       = front ++ LibusbOpen dv :: msgs ++ [LibusbExit] /\
       messages (target B) msgs))).
Proof.
  pose proof (Run1Facts.main_shape1 X B inv st) as R.
  destruct (Variant1.main X B inv st) as [[z evs] st']. cbn [fst snd] in *.
  destruct R;
    try match goal with Ho : opening1 _ _ _ _ _ _ |- _ => destruct Ho end;
    try (left; select_events; reflexivity);
    try (right; left; select_events; reflexivity).
  - right; right. split; [select_events; reflexivity|]. split; [reflexivity|].
    left. assumption.
  - right; right. split; [select_events; reflexivity|]. split; [reflexivity|].
    right. split; [assumption|].
    eexists (_ :: _ :: _ :: scan), dv, msgs. split; [same_events|assumption].
Qed.

End RunProperties.
(** * The two-stage download of a whole run *)

Lemma messages_passes (p : platform) (msgs : list event) :
  messages p msgs -> passes msgs = [].
Proof.
  intros Hm. apply filter_nil_when. intros e He.
  destruct (messages_In _ _ _ Hm He) as [(f & a & ->) _]. reflexivity.
Qed.

(** The passes of a download with a loader. *)
Lemma downloaded_two_stage (p : platform) (d : Z) (loader firmware : string)
    (fx : Z) (ty : arg) (config z : Z) (dl : list event) :
  downloaded p d (Some loader) firmware fx ty config z dl ->
  two_stage loader firmware config z (passes dl).
Proof.
  intros Hd.
  inversion Hd as [msgs s Hl Hm|l msgs s Hl Hm Hs|l msgs s Hl Hm Hc|l msgs s Hl Hm Hc];
    subst; try discriminate Hl; injection Hl as <-;
    rewrite passes_app, (messages_passes _ _ Hm); cbn [passes filter is_load app].
  - apply first_pass_failed; [assumption|reflexivity].
  - apply second_pass_eeprom; [assumption|reflexivity].
  - apply second_pass_ram; [assumption|reflexivity].
Qed.

Section TwoStage.

Context {W : Type}.
Variable X : Externals W.
Variable B : Build.

(** C3. With a first-stage loader, a run of either [main] that gets as
    far as the download (the options are accepted and complete, libusb
    is initialised, the device opened and its interface claimed) makes
    one RAM pass for the loader; when that pass returns non-zero, nothing
    else follows and [main] returns that status; when it returns zero, a
    second pass follows for the firmware, to the EEPROM when a config
    byte was supplied and to RAM otherwise, whose status [main] returns.
    A run that does not get as far makes no pass.  The download of either
    [main] does the same from any state in which it is called. *)
Theorem two_stage_sequencing (inv : invocation) (st : state W) (loader : string) :
  supplied_loader inv = Some loader ->
  (if reaches_download1 X B inv (world st) then
     exists firmware,
       supplied_firmware inv = Some firmware /\
       two_stage loader firmware (supplied_config X inv)
         (fst (fst (Variant1.main X B inv st)))
         (passes (snd (fst (Variant1.main X B inv st))))
   else passes (snd (fst (Variant1.main X B inv st))) = []) /\
  (if reaches_download2 X B inv (world st) then
     exists firmware,
       supplied_firmware inv = Some firmware /\
       two_stage loader firmware (supplied_config X inv)
         (fst (fst (Variant2.main X B inv st)))
         (passes (snd (fst (Variant2.main X B inv st))))
   else passes (snd (fst (Variant2.main X B inv st))) = []) /\
  (forall device l fx_type firmware,
      Variant1.loader_path l = Some loader ->
      exists s evs st',
        Variant1.download X B device l fx_type firmware st = ((Continue s, evs), st') /\
        two_stage loader firmware (Variant1.config l) s (passes evs)) /\
  (forall device l type fx2 firmware,
      Variant2.stage1 l = Some loader ->
      exists s evs st',
        Variant2.download X B device l type fx2 firmware st = ((Continue s, evs), st') /\
        two_stage loader firmware (Variant2.config l) s (passes evs)).
Proof.
  intros L. split; [|split; [|split]].
  - pose proof (Run1Facts.main_shape1 X B inv st) as R.
    destruct (Variant1.main X B inv st) as [[z evs] st'].
    cbn [fst snd] in *.
    destruct R;
      try match goal with
        | Ho : opening1 _ _ _ _ _ _ |- _ => destruct Ho
        end;
      match goal with
      | Rd : reaches_download1 _ _ _ _ = _ |- _ => rewrite Rd
      end;
      try (unfold passes; select_events; reflexivity).
    all: exists firmware; (split; [assumption|]).
    all: match goal with
         | Hd : downloaded _ _ _ _ _ _ _ _ _ |- _ =>
             rewrite L in Hd; apply downloaded_two_stage in Hd
         end.
    all: unfold passes in *; select_events; rewrite ?app_nil_r; assumption.
  - pose proof (Run2Facts.main_shape2 X B inv st) as R.
    destruct (Variant2.main X B inv st) as [[z evs] st'].
    cbn [fst snd] in *.
    destruct R;
      match goal with
      | Rd : reaches_download2 _ _ _ _ = _ |- _ => rewrite Rd
      end;
      try (unfold passes; select_events; reflexivity).
    exists firmware. split; [assumption|].
    match goal with
    | Hd : downloaded _ _ _ _ _ _ _ _ _ |- _ =>
        rewrite L in Hd; apply downloaded_two_stage in Hd
    end.
    unfold passes in *. select_events. rewrite ?app_nil_r. assumption.
  - intros device l fx firmware Ll.
    destruct (Variant1Facts.download_run1 X B device l fx firmware st)
      as (s & evs & st' & D & _ & S).
    rewrite Ll in S. eauto.
  - intros device l type fx2 firmware Ll.
    destruct (Variant2Facts.download_run2 X B device l type fx2 firmware st)
      as (s & evs & st' & D & _ & _ & S).
    rewrite Ll in S. eauto.
Qed.

End TwoStage.

(** * Two-stage downloads on the bench *)

Section TwoStageOnTheBench.

Import Bench.

(** The loader pass fails with 5: the first [main] makes this one pass
    and returns 5. *)
Example loader_pass_fails :
  Variant1.main X (B Linux) two_stage_ram (start [5])
  = ((5,
      [LibusbInit; LibusbSetDebug 0; LibusbOpenDeviceWithVidPid 1351 8497;
       LibusbClaimInterface 100 0;
       EzusbLoadRam 100 "loader.hex" 1 0 5;
       LibusbReleaseInterface 100 0; LibusbClose 100; LibusbExit]),
     start []).
Proof. reflexivity. Qed.

(** Both passes succeed: the second [main] makes the loader pass, then
    the firmware pass, and returns 0. *)
Example both_passes_succeed :
  passes (snd (fst (Variant2.main X (B Linux) two_stage_ram (start []))))
  = [EzusbLoadRam 100 "loader.hex" 0 0 0; EzusbLoadRam 100 "fw.hex" 0 1 0] /\
  fst (fst (Variant2.main X (B Linux) two_stage_ram (start []))) = 0.
Proof. split; reflexivity. Qed.

Lemma two_stage_witness :
  supplied_loader two_stage_ram = Some "loader.hex" /\
  reaches_download1 X (B Linux) two_stage_ram [5] = true /\
  (exists firmware,
      supplied_firmware two_stage_ram = Some firmware /\
      two_stage "loader.hex" firmware (supplied_config X two_stage_ram)
        (fst (fst (Variant1.main X (B Linux) two_stage_ram (start [5]))))
        (passes (snd (fst (Variant1.main X (B Linux) two_stage_ram (start [5])))))) /\
  reaches_download2 X (B Linux) two_stage_ram [] = true /\
  (exists firmware,
      supplied_firmware two_stage_ram = Some firmware /\
      two_stage "loader.hex" firmware (supplied_config X two_stage_ram)
        (fst (fst (Variant2.main X (B Linux) two_stage_ram (start []))))
        (passes (snd (fst (Variant2.main X (B Linux) two_stage_ram (start [])))))).
Proof.
  split; [reflexivity|]. split; [reflexivity|].
  split;
    [exact (proj1 (two_stage_sequencing X (B Linux) two_stage_ram (start [5])
                     "loader.hex" eq_refl))|].
  split; [reflexivity|].
  exact (proj1 (proj2 (two_stage_sequencing X (B Linux) two_stage_ram (start [])
                         "loader.hex" eq_refl))).
Defined.

End TwoStageOnTheBench.
(** * The runs of [main] on the bench *)

Section RunsOnTheBench.

Import Bench.

Lemma options_after_a_refused_one_witness :
  accepts1 X OptV = false /\
  Variant1.main X (B Linux)
    {| argv0 := "fxload"; opts := [OptI "fw.hex"] ++ OptV :: [Optc "999"];
       DEVICE := None |} (start [])
  = Variant1.main X (B Linux)
      {| argv0 := "fxload"; opts := [OptI "fw.hex"] ++ [OptV]; DEVICE := None |}
      (start []).
Proof.
  split; [reflexivity|].
  exact (proj1 (options_after_a_refused_one_are_ignored X (B Linux) "fxload"
                  [OptI "fw.hex"] [Optc "999"] OptV None (start []))
               eq_refl).
Defined.

Lemma option_D_overrides_witness :
  In (OptD "0547:2131") Faults.device_twice /\
  Variant1.main X (B Linux)
    {| argv0 := "fxload"; opts := Faults.device_twice; DEVICE := None |} (start [])
  = Variant1.main X (B Linux)
      {| argv0 := "fxload"; opts := Faults.device_twice;
         DEVICE := Some "not a selector" |} (start []) /\
  Variant2.main X (B Linux)
    {| argv0 := "fxload"; opts := Faults.device_twice; DEVICE := None |} (start [])
  = Variant2.main X (B Linux)
      {| argv0 := "fxload"; opts := Faults.device_twice;
         DEVICE := Some "not a selector" |} (start []).
Proof.
  split; [left; reflexivity|].
  exact (option_D_overrides_the_environment X (B Linux) "fxload"
           Faults.device_twice "0547:2131" None (Some "not a selector") (start [])
           (or_introl eq_refl)).
Defined.

Lemma verbosity_witness :
  world (start [5]) = world {| world := [5]; verbose := 3 |} /\
  (fst (fst (Variant1.main X (B Windows) Faults.verbose_twice (start [5])))
   = fst (fst (Variant1.main X (B Windows) (without_v Faults.verbose_twice)
                 {| world := [5]; verbose := 3 |})) /\
   apart_from_verbosity
     (snd (fst (Variant1.main X (B Windows) Faults.verbose_twice (start [5]))))
   = apart_from_verbosity
       (snd (fst (Variant1.main X (B Windows) (without_v Faults.verbose_twice)
                    {| world := [5]; verbose := 3 |})))) /\
  (fst (fst (Variant2.main X (B Windows) Faults.verbose_twice (start [5])))
   = fst (fst (Variant2.main X (B Windows) (without_v Faults.verbose_twice)
                 {| world := [5]; verbose := 3 |})) /\
   apart_from_verbosity
     (snd (fst (Variant2.main X (B Windows) Faults.verbose_twice (start [5]))))
   = apart_from_verbosity
       (snd (fst (Variant2.main X (B Windows) (without_v Faults.verbose_twice)
                    {| world := [5]; verbose := 3 |})))).
Proof.
  split; [reflexivity|].
  exact (verbosity_changes_no_call X (B Windows) Faults.verbose_twice (start [5])
           {| world := [5]; verbose := 3 |} eq_refl).
Defined.

Lemma list_failure_witness :
  well_formed1 Faults.X (B Windows) type_only = true /\
  0 <= init_status Faults.X (world (start [])) /\
  both_supplied type_only = false /\
  list_status Faults.X (world (start [])) < 0 /\
  fst (Variant1.main Faults.X (B Windows) type_only (start []))
  = (-1,
     [LibusbInit; LibusbSetDebug (verbose (start []) + count_v (opts type_only));
      LibusbGetDeviceList]
     ++ logged (target (B Windows)) ("libusb_get_device_list() failed: %s" ++ nl)
          [AStr (libusb_error_name Faults.X (init_status Faults.X (world (start []))))]
     ++ [LibusbExit]).
Proof.
  split; [reflexivity|]. split; [discriminate|]. split; [reflexivity|].
  split; [reflexivity|].
  apply (list_failure_is_reported_with_the_status_of_init Faults.X (B Windows)
           type_only (start []));
    [reflexivity|discriminate|reflexivity|reflexivity].
Defined.

(** The report of the failed listing names a success. *)
Example list_failure_names_a_success :
  snd (fst (Variant1.main Faults.X (B Windows) type_only (start [])))
  = [LibusbInit; LibusbSetDebug 0; LibusbGetDeviceList;
     Vfprintf stderr ("libusb_get_device_list() failed: %s" ++ nl)
       [AStr "LIBUSB_SUCCESS"];
     LibusbExit].
Proof. reflexivity. Qed.

End RunsOnTheBench.
